(** * Gated denoise pipeline of the object-detection noise experiments

    A shallow embedding of [research/object_detection]: the tensor
    operations the pipeline builds ([module.py], [denoise.py],
    [evaluator.py], [backup/add_noise.py]) over real-valued NHWC tensors,
    with build-time failures (Python [NameError], TensorFlow shape
    [ValueError]) as an explicit error result.

    Tensors hold real numbers: an operation on tensors stands for the
    float32 operation of the code with its rounding left out. Statements
    over tensors say which operations are applied to which values, and
    what shapes, clipping and failures follow. Where a property depends
    on rounding, the formula of one pixel is written over an arithmetic
    [Arith] and also evaluated in float32 ([Float32], on the [SpecFloat]
    of the Standard Library). *)

From Stdlib Require Import Reals Lra Lia ZArith SpecFloat.
From stdpp Require Import gmap strings list.

Local Open Scope R_scope.

(** ** Build results *)

Inductive error : Type :=
  | NameError (name : string)
  | ValueError (msg : string)
  | IndexError (msg : string)
  | AssertionError.

Inductive result (A : Type) : Type :=
  | Ok (a : A)
  | Err (e : error).
Arguments Ok {A} a.
Arguments Err {A} e.

#[global] Instance result_ret : MRet result := fun _ a => Ok a.
#[global] Instance result_bind : MBind result := fun _ _ k m =>
  match m with
  | Ok a => k a
  | Err e => Err e
  end.

Definition is_Ok {A} (m : result A) : Prop := exists a, m = Ok a.

(** A Python local that is bound only on some branches. *)
Definition lookup_local {A} (name : string) (v : option A) : result A :=
  match v with
  | Some a => Ok a
  | None => Err (NameError name)
  end.

(** ** Tensors: [batch, height, width, channels] *)

Abbreviation Pixel := (list R).
Abbreviation Row := (list (list R)).
Abbreviation Image := (list (list (list R))).
Abbreviation Tensor := (list (list (list (list R)))).

Definition tmap (f : R -> R) (t : Tensor) : Tensor :=
  fmap (M:=list) (fmap (M:=list) (fmap (M:=list) (fmap (M:=list) f))) t.

Definition tget (t : Tensor) (b i j c : nat) : option R :=
  img ← t !! b; r ← img !! i; px ← r !! j; px !! c.

Definition height (img : Image) : nat := length img.
Definition width (img : Image) : nat :=
  match img with
  | r :: _ => length r
  | [] => 0%nat
  end.
Definition channels (img : Image) : nat :=
  match img with
  | (px :: _) :: _ => length px
  | _ => 0%nat
  end.

(** [shape4 t B H W C]: the tensor is a full [B x H x W x C] block. *)
Definition shape4 (t : Tensor) (B H W C : nat) : Prop :=
  length t = B /\
  Forall (fun img : Image => length img = H /\
    Forall (fun r : Row => length r = W /\
      Forall (fun px : Pixel => length px = C) r) img) t.

(** The lengths of all the pixels of a tensor, in place: two tensors have
    the same shape when these agree. *)
Definition shape_of (t : Tensor) : list (list (list nat)) :=
  fmap (M:=list) (fmap (M:=list) (fmap (M:=list) (length (A:=R)))) t.

Definition zeros (B H W C : nat) : Tensor :=
  replicate B (replicate H (replicate W (replicate C 0))).

Definition flatten (t : Tensor) : list R := concat (concat (concat t)).

Definition rsum (l : list R) : R := foldr Rplus 0 l.

(** [tf.reduce_mean] over a list of values. Of no value at all the code
    gives NaN and the quotient here is [0 / 0 = 0]: what is stated of a
    mean takes values that are there, or gives its formula only. *)
Definition mean (l : list R) : R := rsum l / INR (length l).

Definition reduce_mean (t : Tensor) : R := mean (flatten t).

(** [tf.reduce_mean(t, [1, 2, 3])]: one scalar per example. *)
Definition reduce_mean_123 (t : Tensor) : list R :=
  fmap (fun img : Image => mean (concat (concat img))) t.

(** ** Spatial filter ([module.py], [evaluator.py]) *)

(** Python's [n * l] on a list: [n] copies of [l], one after the other. *)
Definition py_list_mul {A} (n : nat) (l : list A) : list A :=
  concat (replicate n l).

Inductive padding := SAME | VALID.

(** Output length of a pooling or convolution window sliding over [n]
    positions with stride [s] under [SAME] padding: [ceil (n / s)]. *)
Definition out_size (n s : nat) : nat := ((n + s - 1) / s)%nat.

(** Padding put before the first position under [SAME]. *)
Definition pad_before (n k s : nat) : nat :=
  ((((out_size n s - 1) * s + k) - n) / 2)%nat.

(** The input positions under the window of output position [i]; those
    that fall in the padding are left out, as [avg_pool] does not count
    them. *)
Definition window (n k s i : nat) : list nat :=
  (fun p => (p - pad_before n k s)%nat) <$>
    filter (fun p => (pad_before n k s <= p)%nat /\
                     (p - pad_before n k s < n)%nat)
           (seq (i * s) k).

Definition pixel_at (img : Image) (r q c : nat) : R :=
  default 0 (row ← img !! r; px ← row !! q; px !! c).

Definition avg_pool_image (kh kw sh sw : nat) (img : Image) : Image :=
  (fun i =>
     (fun j =>
        (fun c =>
           mean (r ← window (height img) kh sh i;
                 (fun q => pixel_at img r q c) <$> window (width img) kw sw j))
        <$> seq 0 (channels img))
     <$> seq 0 (out_size (width img) sw))
  <$> seq 0 (out_size (height img) sh).

(** [tf.nn.avg_pool(value, ksize, strides, padding='SAME')]: pooling is
    over the two spatial dimensions only. *)
Definition avg_pool (value : Tensor) (ksize strides : list nat)
  : result Tensor :=
  match ksize, strides with
  | [1; kh; kw; 1]%nat, [1; sh; sw; 1]%nat =>
      if decide (0 < kh /\ 0 < kw /\ 0 < sh /\ 0 < sw)%nat
      then Ok (avg_pool_image kh kw sh sw <$> value)
      else Err (ValueError "avg_pool: unsupported ksize or strides")
  | _, _ => Err (ValueError "avg_pool: pooling over batch or depth")
  end.

(** [module.average_filter] (and the copy in [evaluator.py]). *)
Definition average_filter (image : Tensor) (filter_size : nat)
  : result Tensor :=
  avg_pool image [1; filter_size; filter_size; 1]%nat
           (py_list_mul 4 [1%nat]).

(** ** Element-wise operations with TensorFlow's broadcasting *)

(** One dimension of a broadcast: a dimension of length 1 is stretched to
    the length of the other operand. *)
Definition bzip_with {A B C} (f : A -> B -> C) (la : list A) (lb : list B)
  : list C :=
  match la, lb with
  | [a], _ => f a <$> lb
  | _, [b] => (fun a => f a b) <$> la
  | _, _ => zip_with f la lb
  end.

Definition bcompat {A B} (inner : A -> B -> bool) (la : list A) (lb : list B)
  : bool :=
  match la, lb with
  | [a], _ => forallb (inner a) lb
  | _, [b] => forallb (fun a => inner a b) la
  | _, _ => bool_decide (length la = length lb) &&
            forallb (fun ab => inner ab.1 ab.2) (zip la lb)
  end.

Definition broadcastable (a b : Tensor) : bool :=
  bcompat (bcompat (bcompat (bcompat (fun _ _ : R => true)))) a b.

Definition tzip (f : R -> R -> R) (a b : Tensor) : Tensor :=
  zip_with (zip_with (zip_with (zip_with f))) a b.

Definition tensor_op (f : R -> R -> R) (a b : Tensor) : result Tensor :=
  if broadcastable a b
  then Ok (bzip_with (bzip_with (bzip_with (bzip_with f))) a b)
  else Err (ValueError "Dimensions must be equal").

Definition tensor_add := tensor_op Rplus.
Definition tensor_sub := tensor_op Rminus.
Definition tensor_mul := tensor_op Rmult.

Definition ones_like (t : Tensor) : Tensor := tmap (fun _ => 1) t.
Definition zeros_like (t : Tensor) : Tensor := tmap (fun _ => 0) t.

(** [tf.clip_by_value(t, lo, hi)] on one value. *)
Definition clip_by_value (x lo hi : R) : R := Rmin (Rmax x lo) hi.

(** [tf.floor] on one value. *)
Definition floor (x : R) : R := IZR (Int_part x).

(** [tf.sigmoid] on one value, without rounding: strictly between 0 and
    1 here, where the float32 value is 1 at a logit of 20 and 0 at a
    logit of -104. *)
Definition sigmoid (x : R) : R := 1 / (1 + exp (- x)).

(** [v[:, None, None, None]]: one scalar per example, as a
    [B x 1 x 1 x 1] tensor. *)
Definition expand_dims_123 (v : list R) : Tensor :=
  (fun c => [[[c]]]) <$> v.

(** [tf.concat([a, b], 3)]: all dimensions but the last must agree. *)
Definition same_len {A B} (inner : A -> B -> bool) (la : list A) (lb : list B)
  : bool :=
  bool_decide (length la = length lb) &&
  forallb (fun ab => inner ab.1 ab.2) (zip la lb).

Definition concat_axis3 (a b : Tensor) : result Tensor :=
  if same_len (same_len (same_len (fun _ _ : Pixel => true))) a b
  then Ok (zip_with (zip_with (zip_with app)) a b)
  else Err (ValueError "concat: dimensions must be equal").

(** A tensor with the shape of [t], filled from a field of values: what
    [tf.random_uniform(tf.shape(t))] yields for a given draw. *)
Definition tabulate_like (t : Tensor) (f : nat -> nat -> nat -> nat -> R)
  : Tensor :=
  imap (fun b (img : Image) =>
    imap (fun i (r : Row) =>
      imap (fun j (px : Pixel) =>
        imap (fun c (_ : R) => f b i j c) px) r) img) t.

(** ** Loss criteria ([module.py]) *)

Definition abs_criterion (in_ target : Tensor) : result R :=
  d ← tensor_sub in_ target;
  mret (reduce_mean (tmap Rabs d)).

Definition mae_criterion (in_ target : Tensor) : result R :=
  d ← tensor_sub in_ target;
  mret (reduce_mean (tmap (fun x => x ^ 2) d)).

(** [tf.nn.sigmoid_cross_entropy_with_logits] on one logit [x] and
    label [z]: [max(x, 0) - x * z + log(1 + exp(-abs(x)))]. *)
Definition sigmoid_cross_entropy_with_logits (x z : R) : R :=
  Rmax x 0 - x * z + ln (1 + exp (- Rabs x)).

(** Labels of another shape would be broadcast by [tensor_op], where
    the TensorFlow operation raises; the pipeline only passes labels of
    the shape of the logits ([ones_like], [zeros_like]). *)
Definition sce_criterion (logits labels : Tensor) : result R :=
  l ← tensor_op sigmoid_cross_entropy_with_logits logits labels;
  mret (reduce_mean l).

(** ** Noise injectors ([backup/add_noise.py], [evaluator.py]) *)

(** The random draws one injector call consumes: [tf.random_uniform] and
    [tf.random_normal] are taken as given fields of values. *)
Record Draws := {
  ratio_draw : R;                                 (* uniform in [0, 1) *)
  keep_draw : nat -> nat -> nat -> nat -> R;      (* uniform in [0, 1) *)
  value_draw : nat -> nat -> nat -> nat -> R;     (* uniform in [0, 1) *)
  normal_draw : nat -> nat -> nat -> nat -> R     (* standard normal *)
}.

(** [add_noise.get_salt_pepper_noise_image(image, ratio, rand_ratio)],
    lines 183-204, without rounding; one pixel of it over an arithmetic
    is [salt_pepper_pixel] below. The evaluator has a copy of its own,
    [Evaluator.get_salt_pepper_noise_image]. *)
Definition get_salt_pepper_noise_image (image : Tensor) (ratio : R)
    (rand_ratio : bool) (d : Draws) : result Tensor :=
  (* uniform [1 - ratio, 2 - ratio) *)
  let ratio := if rand_ratio then ratio_draw d * ratio else ratio in
  let random_tensor := 1 - ratio in
  let random_tensor :=
    tmap (fun u => random_tensor + u) (tabulate_like image (keep_draw d)) in
  (* 0: ratio, 1: 1 - ratio *)
  let binary_tensor := tmap floor random_tensor in
  (* scale image from [-1, 1] to [0, 1] *)
  let random_tensor2 := tabulate_like image (value_draw d) in
  let image := tmap (fun x => (x + 1) / 2) image in
  kept ← tensor_mul binary_tensor image;
  fresh ← tensor_mul (tmap (fun b => 1 - b) binary_tensor) random_tensor2;
  noise_image ← tensor_add kept fresh;
  (* scaling pixel values to be in [-1, 1] *)
  mret (tmap (fun x => clip_by_value (x * 2 - 1) (-1) 1) noise_image).

Definition get_gaussian_noise_image (image : Tensor) (stddev : R) (d : Draws)
  : result Tensor :=
  let sigma := stddev in
  (* since preprocessed input values are in [-1, 1], we use sigma*2 *)
  let noise :=
    tmap (fun g => g * (sigma * 2)) (tabulate_like image (normal_draw d)) in
  noisy ← tensor_add image noise;
  mret (tmap (fun x => clip_by_value x (-1) 1) noisy).

(** [get_snow_image] computes the number of snow balls and two index
    vectors and ends there: the Python function has no [return], so a
    call evaluates to [None]. *)
Definition get_snow_image (image : Tensor) (sparsity : R) : option Tensor :=
  let num_snows :=
    Int_part (INR (height (default [] (head image))) *
              INR (width (default [] (head image))) * sparsity / 24) in
  None.

(** [tf.summary.image(name, tensor)]: the argument must be a tensor. *)
Definition summary_image (name : string) (t : option Tensor) : result unit :=
  match t with
  | Some _ => Ok ()
  | None => Err (ValueError "None values not supported.")
  end.

(** [l[0]] on a Python list. *)
Definition first {A} (l : list A) : result A :=
  match l with
  | x :: _ => Ok x
  | [] => Err (IndexError "list index out of range")
  end.

(** [[f(x, d) for x in l]] with the draws of each call. *)
Fixpoint map_images (f : Tensor -> Draws -> result Tensor)
    (l : list Tensor) (ds : nat -> Draws) (k : nat)
  : result (list Tensor) :=
  match l with
  | [] => Ok []
  | x :: l' =>
      y ← f x (ds k);
      ys ← map_images f l' ds (S k);
      mret (y :: ys)
  end.

(** The command-line flags the pipeline reads
    ([denoise_discrim_train.py]). *)
Module FLAGS.
Record t := {
  ngf : nat;
  ndf : nat;
  res_depth : nat;
  filter_size : nat;
  average_filter : bool;
  mixture_of_filters : bool;
  denoise : bool;
  generator_separate_channel : bool;
  denoise_discrim : bool;
  discrim : bool;
  denoise_loss_factor : R;
  denoise_gan_loss_factor : R;
  discrim_loss_factor : R;
  salt_pepper_noise : bool;
  gaussian_noise : bool;
  lowres : bool;
  snow : bool;
  ratio : R;
  stddev : R
}.
End FLAGS.

(** [add_noise] of [backup/add_noise.py]: the elements of the list it
    builds are whatever the injectors evaluate to, so [option Tensor]. The
    draws of the salt-pepper pass are [sp], those of the gaussian pass
    [ga]. *)
Definition add_noise (F : FLAGS.t) (images : list Tensor)
    (sp ga : nat -> Draws) : result (list (option Tensor)) :=
  let noisy_images := images in
  noisy_images ←
    (if FLAGS.salt_pepper_noise F then
       noisy_images ← map_images
         (fun image => get_salt_pepper_noise_image image (FLAGS.ratio F) true)
         noisy_images sp 0;
       x ← first noisy_images;
       _ ← summary_image "salt_pepper_noise_images" (Some x);
       mret noisy_images
     else mret noisy_images);
  noisy_images ←
    (if FLAGS.gaussian_noise F then
       noisy_images ← map_images
         (fun image => get_gaussian_noise_image image (FLAGS.stddev F))
         noisy_images ga 0;
       x ← first noisy_images;
       _ ← summary_image "gaussian_noise_images" (Some x);
       mret noisy_images
     else mret noisy_images);
  noisy_images ←
    (if FLAGS.lowres F then
       (* [groundtruth_boxes_list] is not bound in [add_noise] *)
       Err (NameError "groundtruth_boxes_list")
     else mret noisy_images);
  if FLAGS.snow F then
    let noisy_images :=
      (fun image => get_snow_image image 0.05) <$> noisy_images in
    x ← first noisy_images;
    _ ← summary_image "snow_images" x;
    mret noisy_images
  else mret (Some <$> noisy_images).

(** ** Variable scopes and the layers of [ops.py] *)

(** The variable scope a layer is built in: its path decides which
    weights the layer reads, its flag whether they are looked up or
    created. *)
Record var_scope := { vs_path : string; vs_reuse : bool }.

Definition scope_join (path name : string) : string :=
  if decide (path = "") then name else path +:+ "/" +:+ name.

(** [with tf.variable_scope(name)]: the reuse flag is inherited. *)
Definition sub_scope (vs : var_scope) (name : string) : var_scope :=
  {| vs_path := scope_join (vs_path vs) name; vs_reuse := vs_reuse vs |}.

(** The opening of every network builder of [module.py]:
    [[
    with tf.variable_scope(name):
        if reuse:
            tf.get_variable_scope().reuse_variables()
        else:
            assert tf.get_variable_scope().reuse is False
    ]] *)
Definition enter_scope (vs : var_scope) (name : string) (reuse : bool)
  : result var_scope :=
  let inner := sub_scope vs name in
  if reuse then Ok {| vs_path := vs_path inner; vs_reuse := true |}
  else if vs_reuse inner
       then Err AssertionError
       else Ok inner.

(** Forward passes of the layers [module.py] imports from [ops.py], which
    is not among the sources: each is a function of its input and of the
    path of the variable scope holding its weights. Arguments the callers
    leave to the layer's defaults are [None]. *)
Class Layers := {
  conv2d : string -> Tensor -> nat -> option nat -> option nat ->
           option padding -> result Tensor;
  deconv2d : string -> Tensor -> nat -> option nat -> option nat ->
             result Tensor;
  instance_norm : string -> Tensor -> result Tensor;
  lrelu : Tensor -> Tensor;
  linear : string -> list (list R) -> nat -> result (list (list R))
}.

Definition relu (t : Tensor) : Tensor := tmap (fun x => Rmax x 0) t.

(** [tf.pad(l, [[p, p]], "REFLECT")] along one dimension. *)
Definition pad_reflect_list {A} (p : nat) (l : list A) : result (list A) :=
  if decide (p < length l)%nat
  then Ok (reverse (take p (drop 1 l)) ++ l ++
           reverse (take p (drop (length l - 1 - p) l)))
  else Err (ValueError "pad: paddings must be less than the dimension size").

Fixpoint mapM {A B} (f : A -> result B) (l : list A) : result (list B) :=
  match l with
  | [] => Ok []
  | x :: l' => y ← f x; ys ← mapM f l'; mret (y :: ys)
  end.

(** [tf.pad(x, [[0, 0], [p, p], [p, p], [0, 0]], "REFLECT")]. *)
Definition pad_reflect (x : Tensor) (p : nat) : result Tensor :=
  mapM (fun img : Image =>
          rows ← mapM (pad_reflect_list p) img;
          pad_reflect_list p rows) x.

(** ** Networks ([module.py]) *)

Record OPTIONS := {
  gf_dim : nat;
  df_dim : nat;
  output_c_dim : nat;
  is_training : bool
}.

Definition discriminator `{Layers} (vs : var_scope) (image : Tensor)
    (df_dim : nat) (ks : nat) (df_last_dim : nat) (reuse : bool)
    (name : string) : result Tensor :=
  sc ← enter_scope vs name reuse;
  let at_ (layer : string) := scope_join (vs_path sc) layer in
  c0 ← conv2d (at_ "d_h0_conv") image df_dim (Some ks) None None;
  let h0 := lrelu c0 in
  c1 ← conv2d (at_ "d_h1_conv") h0 (df_dim * 2) (Some ks) None None;
  n1 ← instance_norm (at_ "d_bn1") c1;
  let h1 := lrelu n1 in
  c2 ← conv2d (at_ "d_h2_conv") h1 (df_dim * 4) (Some ks) None None;
  n2 ← instance_norm (at_ "d_bn2") c2;
  let h2 := lrelu n2 in
  h4 ← conv2d (at_ "d_h3_pred") h2 df_last_dim (Some ks) (Some 1%nat) None;
  mret h4.

(** [tf.reduce_mean(t, [1, 2])]: one value per example and channel. *)
Definition reduce_mean_12 (t : Tensor) : list (list R) :=
  (fun img : Image =>
     (fun c => mean ((fun px : Pixel => default 0 (px !! c)) <$> concat img))
     <$> seq 0 (channels img)) <$> t.

(** [tf.nn.softmax] on the rows, without rounding. *)
Definition softmax (logits : list (list R)) : list (list R) :=
  (fun l : list R => (fun x => exp x / rsum (exp <$> l)) <$> l) <$> logits.

Definition gate `{Layers} (vs : var_scope) (image : Tensor) (df_dim : nat)
    (num_classes : nat) (reuse : bool) (name : string)
  : result (list (list R)) :=
  sc ← enter_scope vs name reuse;
  let at_ (layer : string) := scope_join (vs_path sc) layer in
  c0 ← conv2d (at_ "d_h0_conv") image df_dim None None None;
  let h0 := lrelu c0 in
  c1 ← conv2d (at_ "d_h1_conv") h0 (df_dim * 2) None None None;
  n1 ← instance_norm (at_ "d_bn1") c1;
  let h1 := lrelu n1 in
  c2 ← conv2d (at_ "d_h2_conv") h1 (df_dim * 4) None None None;
  n2 ← instance_norm (at_ "d_bn2") c2;
  let h2 := lrelu n2 in
  h4 ← conv2d (at_ "d_h3_pred") h2 (df_dim * 4) None (Some 1%nat) None;
  let global_pool := reduce_mean_12 h4 in
  logits ← linear (vs_path sc) global_pool num_classes;
  let probs := softmax logits in
  mret probs.

Definition residule_block `{Layers} (scope : string) (x : Tensor)
    (dim : nat) (name : string) : result Tensor :=
  let ks := 3%nat in
  let s := 1%nat in
  let p := ((ks - 1) / 2)%nat in
  y ← pad_reflect x p;
  y ← conv2d (scope_join scope (name +:+ "_c1")) y dim (Some ks) (Some s)
             (Some VALID);
  y ← instance_norm (scope_join scope (name +:+ "_bn1")) y;
  y ← pad_reflect (relu y) p;
  y ← conv2d (scope_join scope (name +:+ "_c2")) y dim (Some ks) (Some s)
             (Some VALID);
  y ← instance_norm (scope_join scope (name +:+ "_bn2")) y;
  tensor_add y x.

(** One link of the chain
    [[
    if res_depth >= k:
      rk = residule_block(r(k-1), ...)
      rn = rk
    ]]
    The local [rk] is bound only when the branch is taken, and the branch
    reads the local [r(k-1)] of the link before. *)
Definition res_stage `{Layers} (taken : bool) (scope : string)
    (prev_name : string) (prev : option Tensor) (dim : nat) (name : string)
    (rn : Tensor) : result (option Tensor * Tensor) :=
  if taken then
    x ← lookup_local prev_name prev;
    r ← residule_block scope x dim name;
    mret (Some r, r)
  else mret (None, rn).

Definition generator_resnet `{Layers} (vs : var_scope) (image : Tensor)
    (options : OPTIONS) (res_depth : nat) (output_c_dim : nat)
    (reuse : bool) (name : string) : result Tensor :=
  sc ← enter_scope vs name reuse;
  let at_ (layer : string) := scope_join (vs_path sc) layer in
  let ks := 3%nat in
  let dim := (gf_dim options * 4)%nat in
  c1 ← conv2d (at_ "g_e1_c") image (gf_dim options * 1) (Some ks)
              (Some 1%nat) (Some SAME);
  c1 ← instance_norm (at_ "g_e1_bn") c1;
  let c1 := relu c1 in
  c2 ← conv2d (at_ "g_e2_c") c1 (gf_dim options * 2) (Some 3%nat)
              (Some 2%nat) None;
  c2 ← instance_norm (at_ "g_e2_bn") c2;
  let c2 := relu c2 in
  c3 ← conv2d (at_ "g_e3_c") c2 (gf_dim options * 4) (Some 3%nat)
              (Some 2%nat) None;
  c3 ← instance_norm (at_ "g_e3_bn") c3;
  let c3 := relu c3 in
  (* define G network with 9 resnet blocks *)
  let rn := c3 in
  '(r1, rn) ← res_stage (bool_decide (1 <= res_depth)%nat)
                (vs_path sc) "c3" (Some c3) dim "g_r1" rn;
  '(r2, rn) ← res_stage (bool_decide (2 <= res_depth)%nat)
                (vs_path sc) "r1" r1 dim "g_r2" rn;
  '(r3, rn) ← res_stage (bool_decide (3 <= res_depth)%nat)
                (vs_path sc) "r2" r2 dim "g_r3" rn;
  '(r4, rn) ← res_stage (bool_decide (4 <= res_depth)%nat)
                (vs_path sc) "r3" r3 dim "g_r4" rn;
  '(r5, rn) ← res_stage (bool_decide (5 <= res_depth)%nat)
                (vs_path sc) "r4" r4 dim "g_r5" rn;
  '(r6, rn) ← res_stage (bool_decide (6 <= res_depth)%nat)
                (vs_path sc) "r5" r5 dim "g_r6" rn;
  '(r7, rn) ← res_stage (bool_decide (7 <= res_depth)%nat)
                (vs_path sc) "r6" r6 dim "g_r7" rn;
  '(r8, rn) ← res_stage (bool_decide (8 <= res_depth)%nat)
                (vs_path sc) "r7" r7 dim "g_r8" rn;
  '(r9, rn) ← res_stage (bool_decide (res_depth = 9)%nat)
                (vs_path sc) "r8" r8 dim "g_r9" rn;
  d1 ← deconv2d (at_ "g_d1_dc") rn (gf_dim options * 2) (Some 3%nat)
                (Some 2%nat);
  d1 ← instance_norm (at_ "g_d1_bn") d1;
  d1 ← tensor_add c2 (relu d1);
  d2 ← deconv2d (at_ "g_d2_dc") d1 (gf_dim options) (Some 3%nat)
                (Some 2%nat);
  d2 ← instance_norm (at_ "g_d2_bn") d2;
  d2 ← tensor_add c1 (relu d2);
  pred ← conv2d (at_ "g_pred_c") d2 output_c_dim (Some ks) (Some 1%nat)
                (Some SAME);
  let pred := tmap tanh pred in
  pred ← tensor_add pred image;
  let pred := tmap (fun x => clip_by_value x (-1) 1) pred in
  mret pred.

(** [image[:, :, :, k]] followed by [tf.expand_dims(_, -1)]. *)
Definition channel (k : nat) (image : Tensor) : result Tensor :=
  mapM (mapM (mapM (fun px : Pixel =>
    match px !! k with
    | Some x => Ok [x]
    | None => Err (ValueError "slice index out of bounds")
    end))) image.

(** [tf.concat([a, b, c], -1)]. *)
Definition concat_last3 (a b c : Tensor) : result Tensor :=
  ab ← concat_axis3 a b;
  concat_axis3 ab c.

Definition generator_separate_resnet `{Layers} (vs : var_scope)
    (image : Tensor) (options : OPTIONS) (res_depth : nat) (reuse : bool)
    (name : string) : result Tensor :=
  x0 ← channel 0 image;
  image0 ← generator_resnet vs x0 options res_depth 1 reuse name;
  x1 ← channel 1 image;
  image1 ← generator_resnet vs x1 options res_depth 1 true name;
  x2 ← channel 2 image;
  image2 ← generator_resnet vs x2 options res_depth 1 true name;
  pred ← concat_last3 image0 image1 image2;
  mret pred.

(** ** The gated denoise pipeline ([denoise.py]) *)

Inductive Summary :=
  | ImageSummary (name : string) (t : Tensor)
  | ScalarSummary (name : string) (v : R).

(** [probs[:, k]]. *)
Definition column (k : nat) (probs : list (list R)) : result (list R) :=
  mapM (fun l : list R =>
    match l !! k with
    | Some x => Ok x
    | None => Err (ValueError "slice index out of bounds")
    end) probs.

(** [probs[:, k, None, None, None] * t]. *)
Definition weighted (k : nat) (probs : list (list R)) (t : Tensor)
  : result Tensor :=
  w ← column k probs;
  tensor_mul (expand_dims_123 w) t.

Definition same_shape_b (a b : Tensor) : bool :=
  same_len (same_len (same_len
    (fun p q : Pixel => bool_decide (length p = length q)))) a b.

(** [tf.add_n]: the inputs must all have the same shape. *)
Fixpoint add_n_from (acc : Tensor) (ts : list Tensor) : result Tensor :=
  match ts with
  | [] => Ok acc
  | t :: ts' =>
      if same_shape_b acc t then add_n_from (tzip Rplus acc t) ts'
      else Err (ValueError "add_n: inputs must have the same shape")
  end.

Definition add_n (ts : list Tensor) : result Tensor :=
  match ts with
  | [] => Err (ValueError "add_n: inputs must be a non-empty list")
  | t :: ts' => add_n_from t ts'
  end.

(** The blend of the gate:
    [[
    tf.add(d_in_sigmoid[:,None,None,None] * images,
           (1 - d_in_sigmoid[:,None,None,None]) * filtered_images)
    ]]
    without rounding; one pixel of it over an arithmetic is
    [blend_pixel] below. *)
Definition gate_blend (d_in_sigmoid : list R) (images filtered_images : Tensor)
  : result Tensor :=
  raw_part ← tensor_mul (expand_dims_123 d_in_sigmoid) images;
  cand_part ← tensor_mul
    (tmap (fun c => 1 - c) (expand_dims_123 d_in_sigmoid)) filtered_images;
  tensor_add raw_part cand_part.

(** The filtered candidate: lines 69-82. *)
Definition filter_candidate `{Layers} (vs : var_scope) (images : Tensor)
    (F : FLAGS.t) : result Tensor :=
  if FLAGS.mixture_of_filters F then
    let scope := sub_scope vs "filter_gate" in
    filtered_images0 ← average_filter images 2;
    filtered_images1 ← average_filter images 3;
    filtered_images2 ← average_filter images 4;
    probs ← gate scope images (FLAGS.ndf F) 4 false "gate";
    t0 ← weighted 0 probs images;
    t1 ← weighted 1 probs filtered_images0;
    t2 ← weighted 2 probs filtered_images1;
    t3 ← weighted 3 probs filtered_images2;
    add_n [t0; t1; t2; t3]
  else average_filter images (FLAGS.filter_size F).

(** The filter stage: lines 66-85. *)
Definition filter_stage `{Layers} (vs : var_scope) (images : Tensor)
    (F : FLAGS.t) (is_training : bool) (noisy_batch_size : nat)
    (summaries_dict : gmap string Summary)
  : result (Tensor * gmap string Summary) :=
  let filtered_images := images in
  if FLAGS.average_filter F then
    filtered_images ← filter_candidate vs images F;
    let summaries_dict :=
      <["filtered_noisy_images" :=
          ImageSummary "filtered_noisy_images" filtered_images]>
        summaries_dict in
    let summaries_dict :=
      if is_training then
        <["filtered_clean_images" :=
            ImageSummary "filtered_clean_images"
                         (drop noisy_batch_size filtered_images)]>
          summaries_dict
      else summaries_dict in
    mret (filtered_images, summaries_dict)
  else mret (filtered_images, summaries_dict).

(** The adversary of the denoiser: lines 99-120. [g_loss] is the local
    the training branch above has bound, if it ran. *)
Definition denoise_discrim_stage `{Layers} (scope : var_scope)
    (F : FLAGS.t) (is_training : bool)
    (noisy_images original_images : option Tensor)
    (denoised_images : Tensor) (g_loss : option R)
    (losses_dict : gmap string R) (summaries_dict : gmap string Summary)
  : result (option R * gmap string R * gmap string Summary) :=
  let criterionGAN := mae_criterion in
  noisy ← lookup_local "noisy_images" noisy_images;
  noisy_and_denoised ← concat_axis3 noisy denoised_images;
  d_denoised ← discriminator scope noisy_and_denoised (FLAGS.ndf F) 3 1
                             false "discriminator";
  if is_training then
    noisy ← lookup_local "noisy_images" noisy_images;
    original ← lookup_local "original_images" original_images;
    noisy_and_original ← concat_axis3 noisy original;
    d_original ← discriminator scope noisy_and_original (FLAGS.ndf F) 3 1
                               true "discriminator";
    (* generator loss *)
    g_gan_loss ← criterionGAN d_denoised (ones_like d_denoised);
    let summaries_dict :=
      <["g_gan_loss" := ScalarSummary "g_loss/g_gan_loss" g_gan_loss]>
        summaries_dict in
    g_loss0 ← lookup_local "g_loss" g_loss;
    let g_loss := g_loss0 + FLAGS.denoise_gan_loss_factor F * g_gan_loss in
    let losses_dict := <["g_loss" := g_loss]> losses_dict in
    (* discriminator loss *)
    d_loss_real ← criterionGAN d_original (ones_like d_original);
    d_loss_fake ← criterionGAN d_denoised (zeros_like d_denoised);
    let d_loss :=
      FLAGS.denoise_gan_loss_factor F * (d_loss_real + d_loss_fake) / 2 in
    let losses_dict := <["d_loss" := d_loss]> losses_dict in
    let summaries_dict :=
      <["d_loss" := ScalarSummary "d_loss" d_loss]> summaries_dict in
    mret (Some g_loss, losses_dict, summaries_dict)
  else mret (g_loss, losses_dict, summaries_dict).

(** The call of the generator: lines 90-93. *)
Definition denoise_candidate `{Layers} (scope : var_scope) (F : FLAGS.t)
    (options : OPTIONS) (filtered_images : Tensor) : result Tensor :=
  if FLAGS.generator_separate_channel F then
    generator_separate_resnet scope filtered_images options
                              (FLAGS.res_depth F) false "generator"
  else
    generator_resnet scope filtered_images options
                     (FLAGS.res_depth F) 3 false "generator".

(** The denoise stage: lines 87-128. *)
Definition denoise_stage `{Layers} (vs : var_scope) (F : FLAGS.t)
    (options : OPTIONS) (is_training : bool) (noisy_batch_size : nat)
    (noisy_images original_images : option Tensor)
    (filtered_images : Tensor)
    (losses_dict : gmap string R) (summaries_dict : gmap string Summary)
  : result (Tensor * gmap string R * gmap string Summary) :=
  if FLAGS.denoise F then
    let scope := sub_scope vs "denoise" in
    denoised_images ← denoise_candidate scope F options filtered_images;
    '(g_loss, losses_dict, summaries_dict) ←
      (if is_training then
         original ← lookup_local "original_images" original_images;
         denoise_sim_loss ←
           abs_criterion (take noisy_batch_size denoised_images) original;
         let g_loss := FLAGS.denoise_loss_factor F * denoise_sim_loss in
         mret (Some g_loss,
               <["g_loss" := g_loss]> losses_dict,
               <["g_loss/sim_loss" :=
                   ScalarSummary "g_loss/sim_loss" denoise_sim_loss]>
                 summaries_dict)
       else mret (None, losses_dict, summaries_dict));
    '(g_loss, losses_dict, summaries_dict) ←
      (if FLAGS.denoise_discrim F then
         denoise_discrim_stage scope F is_training noisy_images
           original_images denoised_images g_loss losses_dict summaries_dict
       else mret (g_loss, losses_dict, summaries_dict));
    summaries_dict ←
      (if is_training then
         g ← lookup_local "g_loss" g_loss;
         mret (<["g_loss" := ScalarSummary "g_loss" g]> summaries_dict)
       else mret summaries_dict);
    let filtered_images := denoised_images in
    let summaries_dict :=
      <["filtered_noisy_images" :=
          ImageSummary "filtered_noisy_images" filtered_images]>
        summaries_dict in
    let summaries_dict :=
      if is_training then
        <["filtered_clean_images" :=
            ImageSummary "filtered_clean_images"
                         (drop noisy_batch_size filtered_images)]>
          summaries_dict
      else summaries_dict in
    mret (filtered_images, losses_dict, summaries_dict)
  else mret (filtered_images, losses_dict, summaries_dict).

(** The loss of the input gate: lines 137-140. *)
Definition d_in_loss_of (F : FLAGS.t) (noisy_batch_size : nat)
    (d_in_logits : Tensor) : result R :=
  let criterionGAN2 := sce_criterion in
  d_in_loss_real ←
    criterionGAN2 (drop noisy_batch_size d_in_logits)
                  (ones_like (drop noisy_batch_size d_in_logits));
  d_in_loss_fake ←
    criterionGAN2 (take noisy_batch_size d_in_logits)
                  (zeros_like (take noisy_batch_size d_in_logits));
  mret (FLAGS.discrim_loss_factor F * (d_in_loss_real + d_in_loss_fake) / 2).

(** The gate stage: lines 130-151. *)
Definition gate_stage `{Layers} (vs : var_scope) (F : FLAGS.t)
    (is_training : bool) (noisy_batch_size : nat)
    (images filtered_images : Tensor)
    (losses_dict : gmap string R) (summaries_dict : gmap string Summary)
  : result (Tensor * gmap string R * gmap string Summary) :=
  if FLAGS.discrim F then
    let scope := sub_scope vs "input_discrim" in
    d_in_logits ← discriminator scope images (FLAGS.ndf F) 3 1
                                false "discriminator";
    '(losses_dict, summaries_dict) ←
      (if is_training then
         d_in_loss ← d_in_loss_of F noisy_batch_size d_in_logits;
         mret (<["d_in_loss" := d_in_loss]> losses_dict,
               <["d_in_loss" := ScalarSummary "d_in_loss" d_in_loss]>
                 summaries_dict)
       else mret (losses_dict, summaries_dict));
    let d_in_logits := reduce_mean_123 d_in_logits in
    let d_in_sigmoid := sigmoid <$> d_in_logits in
    images ← gate_blend d_in_sigmoid images filtered_images;
    mret (images, losses_dict, summaries_dict)
  else
    let images := filtered_images in
    mret (images, losses_dict, summaries_dict).

(** [OPTIONS._make((FLAGS.ngf, FLAGS.ndf, 3, is_training))]. *)
Definition make_options (F : FLAGS.t) (is_training : bool) : OPTIONS :=
  {| gf_dim := FLAGS.ngf F; df_dim := FLAGS.ndf F; output_c_dim := 3;
     is_training := is_training |}.

(** The candidate the gate blends the raw batch with, in the words of
    the spec: the denoised batch if denoising ran, else the filtered
    batch, else the raw batch. *)
Definition best_candidate `{Layers} (vs : var_scope) (images : Tensor)
    (F : FLAGS.t) (is_training : bool) : result Tensor :=
  if FLAGS.denoise F then
    filtered ← (if FLAGS.average_filter F then filter_candidate vs images F
                else Ok images);
    denoise_candidate (sub_scope vs "denoise") F
                      (make_options F is_training) filtered
  else if FLAGS.average_filter F then filter_candidate vs images F
  else Ok images.

(** One confidence per example applied to the pixels of that example. *)
Definition per_example (f : R -> R -> R) (conf : list R) (t : Tensor)
  : Tensor :=
  zip_with (fun c (img : Image) =>
              fmap (M:=list) (fmap (M:=list) (fmap (M:=list) (f c))) img)
           conf t.

(** [denoise.gated_denoise]; [vs] is the variable scope of the caller. *)
Definition gated_denoise `{Layers} (vs : var_scope) (images : Tensor)
    (F : FLAGS.t) (is_training : bool) (noisy_batch_size : nat)
  : result (Tensor * gmap string R * gmap string Summary) :=
  let losses_dict : gmap string R := ∅ in
  let summaries_dict : gmap string Summary := ∅ in
  let options := make_options F is_training in
  let noisy_images :=
    if is_training then Some (take noisy_batch_size images) else None in
  let original_images :=
    if is_training then Some (drop noisy_batch_size images) else None in
  (* Filter *)
  let summaries_dict :=
    <["prefiltered_noisy_images" :=
        ImageSummary "prefiltered_noisy_images" images]> summaries_dict in
  let summaries_dict :=
    if is_training then
      <["prefiltered_clean_images" :=
          ImageSummary "prefiltered_clean_images"
                       (drop noisy_batch_size images)]> summaries_dict
    else summaries_dict in
  '(filtered_images, summaries_dict) ←
    filter_stage vs images F is_training noisy_batch_size summaries_dict;
  '(filtered_images, losses_dict, summaries_dict) ←
    denoise_stage vs F options is_training noisy_batch_size noisy_images
      original_images filtered_images losses_dict summaries_dict;
  (* Gate Operation *)
  '(images, losses_dict, summaries_dict) ←
    gate_stage vs F is_training noisy_batch_size images filtered_images
      losses_dict summaries_dict;
  let summaries_dict :=
    <["preprocessed_noisy_images" :=
        ImageSummary "preprocessed_noisy_images" images]> summaries_dict in
  let summaries_dict :=
    if is_training then
      <["preprocessed_clean_images" :=
          ImageSummary "preprocessed_clean_images"
                       (drop noisy_batch_size images)]> summaries_dict
    else summaries_dict in
  mret (images, losses_dict, summaries_dict).

(** ** Graph construction: which variables a network reads *)

(** The same builders seen as TensorFlow sees them while the graph is
    built: each layer asks the variable store for its weights by name,
    and the tensor it returns is an operation over those variables. *)
Module Graph.

Inductive node :=
  | Input (id : nat)
  | Conv2d (weights : string) (out : nat) (ks s : option nat) (x : node)
  | InstanceNorm (scale offset : string) (x : node)
  | LRelu (x : node).

(** The variables a tensor is computed from. *)
Fixpoint variables (n : node) : gset string :=
  match n with
  | Input _ => ∅
  | Conv2d w _ _ _ x => {[w]} ∪ variables x
  | InstanceNorm sc off x => {[sc; off]} ∪ variables x
  | LRelu x => variables x
  end.

(** What the operations compute, for any meaning of the layers. *)
Record Semantics (T : Type) := {
  conv_sem : T -> nat -> option nat -> option nat -> T -> T;
  inorm_sem : T -> T -> T -> T;
  lrelu_sem : T -> T
}.
Arguments conv_sem {T}.
Arguments inorm_sem {T}.
Arguments lrelu_sem {T}.

(** The value of a tensor when the variables hold [theta] and the
    inputs are fed [feed]. *)
Fixpoint eval {T} (S : Semantics T) (theta : string -> T) (feed : nat -> T)
    (n : node) : T :=
  match n with
  | Input i => feed i
  | Conv2d w out ks s x =>
      conv_sem S (theta w) out ks s (eval S theta feed x)
  | InstanceNorm sc off x =>
      inorm_sem S (theta sc) (theta off) (eval S theta feed x)
  | LRelu x => lrelu_sem S (eval S theta feed x)
  end.

(** A builder runs in a variable scope and over the set of variables
    created so far. *)
Definition Build (A : Type) : Type :=
  var_scope -> gset string -> result (A * gset string).

#[global] Instance build_ret : MRet Build := fun _ a _ store =>
  Ok (a, store).
#[global] Instance build_bind : MBind Build := fun _ _ k m vs store =>
  match m vs store with
  | Ok (a, store') => k a vs store'
  | Err e => Err e
  end.

(** [tf.get_variable(name, ...)]: under reuse the variable must exist,
    otherwise it must not. The store holds names only: that a reused
    variable has the shape asked for is not checked here. *)
Definition get_variable (name : string) : Build string :=
  fun vs store =>
    let full := scope_join (vs_path vs) name in
    if vs_reuse vs then
      if decide (full ∈ store) then Ok (full, store)
      else Err (ValueError "Variable does not exist")
    else
      if decide (full ∈ store)
      then Err (ValueError "Variable already exists")
      else Ok (full, {[full]} ∪ store).

Definition variable_scope {A} (name : string) (body : Build A) : Build A :=
  fun vs store => body (sub_scope vs name) store.

(** The opening of a network builder, see [enter_scope]. *)
Definition network_scope {A} (name : string) (reuse : bool)
    (body : Build A) : Build A :=
  fun vs store =>
    match enter_scope vs name reuse with
    | Ok sc => body sc store
    | Err e => Err e
    end.

(** Modelled from the spec: [conv2d] of [ops.py], which is not among the
    sources. The layer keeps its kernel in a variable of the scope it is
    named after, so that the scope and its reuse flag decide which
    weights a call reads (sections 3, 4.4 and 6 of the spec). *)
Definition conv2d (x : node) (out : nat) (ks s : option nat)
    (name : string) : Build node :=
  variable_scope name (
    w ← get_variable "weights";
    mret (Conv2d w out ks s x)).

(** Modelled from the spec: [instance_norm] of [ops.py], with its scale
    and offset in variables of the scope it is named after. *)
Definition instance_norm (x : node) (name : string) : Build node :=
  variable_scope name (
    scale ← get_variable "scale";
    offset ← get_variable "offset";
    mret (InstanceNorm scale offset x)).

Definition lrelu (x : node) : node := LRelu x.

(** The layers of [module.discriminator], between the opening of its
    scope and its [return]. *)
Definition discriminator_body (df_dim ks df_last_dim : nat) (image : node)
  : Build node :=
  c0 ← conv2d image df_dim (Some ks) None "d_h0_conv";
  let h0 := lrelu c0 in
  c1 ← conv2d h0 (df_dim * 2) (Some ks) None "d_h1_conv";
  n1 ← instance_norm c1 "d_bn1";
  let h1 := lrelu n1 in
  c2 ← conv2d h1 (df_dim * 4) (Some ks) None "d_h2_conv";
  n2 ← instance_norm c2 "d_bn2";
  let h2 := lrelu n2 in
  h4 ← conv2d h2 df_last_dim (Some ks) (Some 1%nat) "d_h3_pred";
  mret h4.

(** [module.discriminator]. *)
Definition discriminator (image : node) (df_dim : nat) (ks : nat)
    (df_last_dim : nat) (reuse : bool) (name : string) : Build node :=
  network_scope name reuse (discriminator_body df_dim ks df_last_dim image).

Definition root : var_scope := {| vs_path := ""; vs_reuse := false |}.

(** The two discriminators of the adversary in [gated_denoise]
    (lines 101 and 104), built in the scope [denoise]. *)
Definition denoise_adversary (fake real : node) (ndf : nat)
  : Build (node * node) :=
  variable_scope "denoise" (
    d_denoised ← discriminator fake ndf 3 1 false "discriminator";
    d_original ← discriminator real ndf 3 1 true "discriminator";
    mret (d_denoised, d_original)).

(** The discriminator of the input gate in [gated_denoise] (line 134),
    built in the scope [input_discrim]. *)
Definition input_gate (images : node) (ndf : nat) : Build node :=
  variable_scope "input_discrim" (
    discriminator images ndf 3 1 false "discriminator").

Definition reused (vs : var_scope) : var_scope :=
  {| vs_path := vs_path vs; vs_reuse := true |}.

(** A builder shares its parameters: a build that creates variables
    yields a network [net] over exactly the new variables, and every
    later build under reuse in the same scope applies that same [net]
    and creates nothing. *)
Definition shares (b : node -> Build node) : Prop :=
  forall vs store x d store',
    vs_reuse vs = false -> b x vs store = Ok (d, store') ->
    exists net : node -> node,
      d = net x /\
      store ⊆ store' /\
      (forall y, variables (net y) = variables y ∪ (store' ∖ store)) /\
      (forall T (S : Semantics T) theta feed y y',
         eval S theta feed y = eval S theta feed y' ->
         eval S theta feed (net y) = eval S theta feed (net y')) /\
      (forall y store2, store' ⊆ store2 ->
         b y (reused vs) store2 = Ok (net y, store2)).

End Graph.

(** ** The shapes the layers of [ops.py] produce *)

(** Output length of a convolution window over [n] positions. *)
Definition conv_out (pad : padding) (n ks s : nat) : nat :=
  match pad with
  | SAME => out_size n s
  | VALID => out_size (n - ks + 1) s
  end.

(** Modelled from the spec: the shapes of the layers of [ops.py], which is
    not among the sources. A convolution keeps the batch, has the
    requested number of output channels and slides over the two spatial
    dimensions with its stride ([SAME] padding unless the caller asks for
    [VALID]); the transposed convolution multiplies the spatial
    dimensions by its stride; the normalisation keeps the shape
    (sections 3 and 4.3 of the spec). *)
Record LayerShapes (L : Layers) : Prop := {
  conv2d_shape :
    forall scope x out ks s pad B H W C,
      shape4 x B H W C -> (0 < ks)%nat -> (0 < s)%nat ->
      (pad = Some VALID -> (ks <= H)%nat /\ (ks <= W)%nat) ->
      exists y,
        conv2d scope x out (Some ks) (Some s) pad = Ok y /\
        shape4 y B (conv_out (default SAME pad) H ks s)
                   (conv_out (default SAME pad) W ks s) out;
  deconv2d_shape :
    forall scope x out ks s B H W C,
      shape4 x B H W C -> (0 < s)%nat ->
      exists y,
        deconv2d scope x out (Some ks) (Some s) = Ok y /\
        shape4 y B (H * s) (W * s) out;
  instance_norm_shape :
    forall scope x B H W C,
      shape4 x B H W C ->
      exists y, instance_norm scope x = Ok y /\ shape4 y B H W C
}.

(** Layers that only produce the right shape, filled with zeros. *)
Definition resize_image (fh fw : nat -> nat) (out : nat) (img : Image)
  : Image :=
  (fun _ => (fun _ => replicate out 0) <$> seq 0 (fw (width img)))
  <$> seq 0 (fh (height img)).

Definition shape_layers : Layers :=
  {| conv2d := fun _ x out ks s pad =>
       Ok (resize_image
             (fun n => conv_out (default SAME pad) n (default 4%nat ks)
                                (default 2%nat s))
             (fun n => conv_out (default SAME pad) n (default 4%nat ks)
                                (default 2%nat s))
             out <$> x);
     deconv2d := fun _ x out ks s =>
       Ok (resize_image (fun n => n * default 2 s)%nat
                        (fun n => n * default 2 s)%nat out <$> x);
     instance_norm := fun _ x => Ok x;
     lrelu := fun x => x;
     linear := fun _ x _ => Ok x |}.

(** The ratio the injector works with: drawn below [ratio] when
    [rand_ratio] is set. *)
Definition effective_ratio (ratio : R) (rand_ratio : bool) (d : Draws) : R :=
  if rand_ratio then ratio_draw d * ratio else ratio.

Definition no_draws : Draws :=
  {| ratio_draw := 0;
     keep_draw := fun _ _ _ _ => 0;
     value_draw := fun _ _ _ _ => 0;
     normal_draw := fun _ _ _ _ => 0 |}.

Definition snow_flags : FLAGS.t :=
  {| FLAGS.ngf := 16; FLAGS.ndf := 16; FLAGS.res_depth := 3;
     FLAGS.filter_size := 3;
     FLAGS.average_filter := false; FLAGS.mixture_of_filters := false;
     FLAGS.denoise := false; FLAGS.generator_separate_channel := false;
     FLAGS.denoise_discrim := false; FLAGS.discrim := false;
     FLAGS.denoise_loss_factor := 1; FLAGS.denoise_gan_loss_factor := 1;
     FLAGS.discrim_loss_factor := 1;
     FLAGS.salt_pepper_noise := false; FLAGS.gaussian_noise := false;
     FLAGS.lowres := false; FLAGS.snow := true;
     FLAGS.ratio := 0.1; FLAGS.stddev := 0.15 |}.

(** Layers that hand their input on unchanged: the simplest network the
    pipeline can be run with. *)
Definition identity_layers : Layers :=
  {| conv2d := fun _ x _ _ _ _ => Ok x;
     deconv2d := fun _ x _ _ _ => Ok x;
     instance_norm := fun _ x => Ok x;
     lrelu := fun x => x;
     linear := fun _ x _ => Ok x |}.

Definition eval_flags : FLAGS.t :=
  {| FLAGS.ngf := 16; FLAGS.ndf := 16; FLAGS.res_depth := 0;
     FLAGS.filter_size := 3;
     FLAGS.average_filter := true; FLAGS.mixture_of_filters := false;
     FLAGS.denoise := false; FLAGS.generator_separate_channel := false;
     FLAGS.denoise_discrim := false; FLAGS.discrim := true;
     FLAGS.denoise_loss_factor := 1; FLAGS.denoise_gan_loss_factor := 1;
     FLAGS.discrim_loss_factor := 1;
     FLAGS.salt_pepper_noise := false; FLAGS.gaussian_noise := false;
     FLAGS.lowres := false; FLAGS.snow := false;
     FLAGS.ratio := 0.1; FLAGS.stddev := 0.15 |}.

Definition plain_flags : FLAGS.t :=
  {| FLAGS.ngf := 16; FLAGS.ndf := 16; FLAGS.res_depth := 3;
     FLAGS.filter_size := 3;
     FLAGS.average_filter := false; FLAGS.mixture_of_filters := true;
     FLAGS.denoise := false; FLAGS.generator_separate_channel := true;
     FLAGS.denoise_discrim := true; FLAGS.discrim := false;
     FLAGS.denoise_loss_factor := 1; FLAGS.denoise_gan_loss_factor := 1;
     FLAGS.discrim_loss_factor := 1;
     FLAGS.salt_pepper_noise := false; FLAGS.gaussian_noise := false;
     FLAGS.lowres := false; FLAGS.snow := false;
     FLAGS.ratio := 0.1; FLAGS.stddev := 0.15 |}.

Definition gan_flags : FLAGS.t :=
  {| FLAGS.ngf := 16; FLAGS.ndf := 16; FLAGS.res_depth := 0;
     FLAGS.filter_size := 3;
     FLAGS.average_filter := false; FLAGS.mixture_of_filters := false;
     FLAGS.denoise := true; FLAGS.generator_separate_channel := false;
     FLAGS.denoise_discrim := true; FLAGS.discrim := false;
     FLAGS.denoise_loss_factor := 1; FLAGS.denoise_gan_loss_factor := 1;
     FLAGS.discrim_loss_factor := 1;
     FLAGS.salt_pepper_noise := false; FLAGS.gaussian_noise := false;
     FLAGS.lowres := false; FLAGS.snow := false;
     FLAGS.ratio := 0.1; FLAGS.stddev := 0.15 |}.

Definition small_options : OPTIONS :=
  {| gf_dim := 2; df_dim := 2; output_c_dim := 3; is_training := false |}.

(** [evaluator.inception_preprocess]: [0, 255] --> [-1, 1], without
    rounding; one pixel of it over an arithmetic is [preprocess_pixel]
    below. *)
Definition inception_preprocess (images : Tensor) : Tensor :=
  tmap (fun x => (2.0 / 255.0) * x - 1.0) images.

(** [evaluator.inception_depreprocess]: [-1, 1] --> [0, 255], without
    rounding; one pixel of it over an arithmetic is [depreprocess_pixel]
    below. *)
Definition inception_depreprocess (images : Tensor) : Tensor :=
  tmap (fun x => (255.0 / 2.0) * (x + 1.0)) images.

(** ** The pipeline of the evaluator ([evaluator.py]) *)

Module Evaluator.

(** [evaluator.get_salt_pepper_noise_image(image, ratio, rand_stddev)],
    lines 85-105: the copy of the evaluator never draws its ratio, and
    does not read [rand_stddev]. *)
Definition get_salt_pepper_noise_image (image : Tensor) (ratio : R)
    (rand_stddev : bool) (d : Draws) : result Tensor :=
  (* uniform [1 - ratio, 2 - ratio) *)
  let random_tensor := 1 - ratio in
  let random_tensor :=
    tmap (fun u => random_tensor + u) (tabulate_like image (keep_draw d)) in
  (* 0: ratio, 1: 1 - ratio *)
  let binary_tensor := tmap floor random_tensor in
  (* scale image from [-1, 1] to [0, 1] *)
  let random_tensor2 := tabulate_like image (value_draw d) in
  let image := tmap (fun x => (x + 1) / 2) image in
  kept ← tensor_mul binary_tensor image;
  fresh ← tensor_mul (tmap (fun b => 1 - b) binary_tensor) random_tensor2;
  noise_image ← tensor_add kept fresh;
  (* scaling pixel values to be in [-1, 1] *)
  mret (tmap (fun x => clip_by_value (x * 2 - 1) (-1) 1) noise_image).

(** [evaluator.gated_denoise(images, is_training, FLAGS)], lines 157-216.
    The kernel size of the discriminators is read from [FLAGS.ks]
    ([ks] here; the flag is declared in [denoise_discrim_train.py] with
    default 3). The names [noisy_images] and [denoised] of the adversary
    branch are bound nowhere in [evaluator.py]. *)
Definition gated_denoise `{Layers} (vs : var_scope) (images : Tensor)
    (is_training : bool) (F : FLAGS.t) (ks : nat)
  : result (Tensor * Tensor * gmap string R * gmap string Summary) :=
  let losses_dict : gmap string R := ∅ in
  let summaries_dict : gmap string Summary := ∅ in
  let options := make_options F is_training in
  (* Filter *)
  let summaries_dict :=
    <["prefiltered_noisy_images" :=
        ImageSummary "prefiltered_noisy_images" images]> summaries_dict in
  let filtered_images := images in
  '(filtered_images, summaries_dict) ←
    (if FLAGS.average_filter F then
       filtered_images ← filter_candidate vs images F;
       mret (filtered_images,
             <["filtered_noisy_images" :=
                 ImageSummary "filtered_noisy_images" filtered_images]>
               summaries_dict)
     else mret (filtered_images, summaries_dict));
  '(filtered_images, summaries_dict) ←
    (if FLAGS.denoise F then
       let scope := sub_scope vs "denoise" in
       denoised_images ← denoise_candidate scope F options filtered_images;
       _ ← (if FLAGS.denoise_discrim F then
              noisy_images ← lookup_local (A:=Tensor) "noisy_images" None;
              noisy_and_denoised ← concat_axis3 noisy_images denoised_images;
              denoised ← lookup_local (A:=Tensor) "denoised" None;
              d_denoised ← discriminator scope denoised (FLAGS.ndf F) ks 1
                                         false "discriminator";
              mret ()
            else mret ());
       let filtered_images := denoised_images in
       mret (filtered_images,
             <["filtered_noisy_images" :=
                 ImageSummary "filtered_noisy_images" filtered_images]>
               summaries_dict)
     else mret (filtered_images, summaries_dict));
  (* Gate Operation *)
  images ←
    (if FLAGS.discrim F then
       let scope := sub_scope vs "input_discrim" in
       d_in_logits ← discriminator scope images (FLAGS.ndf F) ks 1
                                   false "discriminator";
       let d_in_logits := reduce_mean_123 d_in_logits in
       let d_in_sigmoid := sigmoid <$> d_in_logits in
       gate_blend d_in_sigmoid images filtered_images
     else mret filtered_images);
  let summaries_dict :=
    <["preprocessed_noisy_images" :=
        ImageSummary "preprocessed_noisy_images" images]> summaries_dict in
  mret (images, filtered_images, losses_dict, summaries_dict).

End Evaluator.


(** The flags under which [gated_denoise] builds a network. *)
Definition builds_network (F : FLAGS.t) : bool :=
  (FLAGS.average_filter F && FLAGS.mixture_of_filters F)
  || FLAGS.denoise F || FLAGS.discrim F.

(** All the values of a tensor lie in [lo, hi]. *)
Definition in_range (lo hi : R) (t : Tensor) : Prop :=
  forall b i j c x, tget t b i j c = Some x -> lo <= x <= hi.

Definition noise_flags : FLAGS.t :=
  {| FLAGS.ngf := 16; FLAGS.ndf := 16; FLAGS.res_depth := 3;
     FLAGS.filter_size := 3;
     FLAGS.average_filter := false; FLAGS.mixture_of_filters := false;
     FLAGS.denoise := false; FLAGS.generator_separate_channel := false;
     FLAGS.denoise_discrim := false; FLAGS.discrim := false;
     FLAGS.denoise_loss_factor := 1; FLAGS.denoise_gan_loss_factor := 1;
     FLAGS.discrim_loss_factor := 1;
     FLAGS.salt_pepper_noise := true; FLAGS.gaussian_noise := true;
     FLAGS.lowres := false; FLAGS.snow := false;
     FLAGS.ratio := 0.1; FLAGS.stddev := 0.15 |}.


Definition denoiser_flags : FLAGS.t :=
  {| FLAGS.ngf := 16; FLAGS.ndf := 16; FLAGS.res_depth := 3;
     FLAGS.filter_size := 3;
     FLAGS.average_filter := true; FLAGS.mixture_of_filters := false;
     FLAGS.denoise := true; FLAGS.generator_separate_channel := false;
     FLAGS.denoise_discrim := false; FLAGS.discrim := false;
     FLAGS.denoise_loss_factor := 1; FLAGS.denoise_gan_loss_factor := 1;
     FLAGS.discrim_loss_factor := 1;
     FLAGS.salt_pepper_noise := true; FLAGS.gaussian_noise := false;
     FLAGS.lowres := false; FLAGS.snow := false;
     FLAGS.ratio := 0.1; FLAGS.stddev := 0.15 |}.

Definition mixture_flags : FLAGS.t :=
  {| FLAGS.ngf := 16; FLAGS.ndf := 16; FLAGS.res_depth := 3;
     FLAGS.filter_size := 3;
     FLAGS.average_filter := true; FLAGS.mixture_of_filters := true;
     FLAGS.denoise := false; FLAGS.generator_separate_channel := false;
     FLAGS.denoise_discrim := false; FLAGS.discrim := false;
     FLAGS.denoise_loss_factor := 1; FLAGS.denoise_gan_loss_factor := 1;
     FLAGS.discrim_loss_factor := 1;
     FLAGS.salt_pepper_noise := false; FLAGS.gaussian_noise := false;
     FLAGS.lowres := false; FLAGS.snow := false;
     FLAGS.ratio := 0.1; FLAGS.stddev := 0.15 |}.

(** [module.generator_unet]. The assignment of [dropout_rate] (line 57)
    is commented out, so the name is bound nowhere in [module.py].
    [dropout] stands for [tf.layers.dropout]; the first normalisation is
    called without a name and takes the default of [ops.py], written
    [instance_norm] here. *)
Definition generator_unet `{Layers} (dropout : Tensor -> R -> bool -> Tensor)
    (vs : var_scope) (image : Tensor) (options : OPTIONS) (reuse : bool)
    (name : string) : result Tensor :=
  let dropout_rate : option R := None in
  sc ← enter_scope vs name reuse;
  let at_ (layer : string) := scope_join (vs_path sc) layer in
  c ← conv2d (at_ "g_e1_conv") image (gf_dim options) None None None;
  e1 ← instance_norm (at_ "instance_norm") c;
  c ← conv2d (at_ "g_e2_conv") (lrelu e1) (gf_dim options * 2) None None None;
  e2 ← instance_norm (at_ "g_bn_e2") c;
  c ← conv2d (at_ "g_e3_conv") (lrelu e2) (gf_dim options * 4) None None None;
  e3 ← instance_norm (at_ "g_bn_e3") c;
  c ← conv2d (at_ "g_e4_conv") (lrelu e3) (gf_dim options * 8) None None None;
  e4 ← instance_norm (at_ "g_bn_e4") c;
  c ← conv2d (at_ "g_e5_conv") (lrelu e4) (gf_dim options * 8) None None None;
  e5 ← instance_norm (at_ "g_bn_e5") c;
  c ← conv2d (at_ "g_e6_conv") (lrelu e5) (gf_dim options * 8) None None None;
  e6 ← instance_norm (at_ "g_bn_e6") c;
  c ← conv2d (at_ "g_e7_conv") (lrelu e6) (gf_dim options * 8) None None None;
  e7 ← instance_norm (at_ "g_bn_e7") c;
  c ← conv2d (at_ "g_e8_conv") (lrelu e7) (gf_dim options * 8) None None None;
  e8 ← instance_norm (at_ "g_bn_e8") c;
  d1 ← deconv2d (at_ "g_d1") (relu e8) (gf_dim options * 8) None None;
  rate ← lookup_local "dropout_rate" dropout_rate;
  let d1 := dropout d1 rate (is_training options) in
  n ← instance_norm (at_ "g_bn_d1") d1;
  d1 ← concat_axis3 n e7;
  d2 ← deconv2d (at_ "g_d2") (relu d1) (gf_dim options * 8) None None;
  rate ← lookup_local "dropout_rate" dropout_rate;
  let d2 := dropout d2 rate (is_training options) in
  n ← instance_norm (at_ "g_bn_d2") d2;
  d2 ← concat_axis3 n e6;
  d3 ← deconv2d (at_ "g_d3") (relu d2) (gf_dim options * 8) None None;
  rate ← lookup_local "dropout_rate" dropout_rate;
  let d3 := dropout d3 rate (is_training options) in
  n ← instance_norm (at_ "g_bn_d3") d3;
  d3 ← concat_axis3 n e5;
  d4 ← deconv2d (at_ "g_d4") (relu d3) (gf_dim options * 8) None None;
  n ← instance_norm (at_ "g_bn_d4") d4;
  d4 ← concat_axis3 n e4;
  d5 ← deconv2d (at_ "g_d5") (relu d4) (gf_dim options * 4) None None;
  n ← instance_norm (at_ "g_bn_d5") d5;
  d5 ← concat_axis3 n e3;
  d6 ← deconv2d (at_ "g_d6") (relu d5) (gf_dim options * 2) None None;
  n ← instance_norm (at_ "g_bn_d6") d6;
  d6 ← concat_axis3 n e2;
  d7 ← deconv2d (at_ "g_d7") (relu d6) (gf_dim options) None None;
  n ← instance_norm (at_ "g_bn_d7") d7;
  d7 ← concat_axis3 n e1;
  d8 ← deconv2d (at_ "g_d8") (relu d7) (output_c_dim options) None None;
  mret (tmap tanh d8).

(** ** One pixel, in exact and in float32 arithmetic *)

(** The operations the pixel formulas of the code use. [a_int z] is the
    integer constant [z]; [a_ratio p q] is the Python constant [p / q]
    as it meets a tensor. *)
Record Arith (T : Type) := {
  a_add : T -> T -> T;
  a_sub : T -> T -> T;
  a_mul : T -> T -> T;
  a_div : T -> T -> T;
  a_floor : T -> T;
  a_max : T -> T -> T;
  a_min : T -> T -> T;
  a_int : Z -> T;
  a_ratio : Z -> Z -> T
}.
Arguments a_add {T}.
Arguments a_sub {T}.
Arguments a_mul {T}.
Arguments a_div {T}.
Arguments a_floor {T}.
Arguments a_max {T}.
Arguments a_min {T}.
Arguments a_int {T}.
Arguments a_ratio {T}.

(** The arithmetic of the tensors of this file: real numbers. *)
Definition exact : Arith R :=
  {| a_add := Rplus; a_sub := Rminus; a_mul := Rmult; a_div := Rdiv;
     a_floor := floor; a_max := Rmax; a_min := Rmin; a_int := IZR;
     a_ratio := fun p q => IZR p / IZR q |}.

(** The arithmetic of the code: IEEE 754 binary32, round to nearest even,
    on the specification floats of the Standard Library. *)
Module Float32.

Definition prec : Z := 24.
Definition emax : Z := 128.
Definition t : Type := spec_float.

Definition of_Z (z : Z) : t := binary_normalize prec emax z 0 false.
Definition pow2 (e : Z) : t := SFldexp prec emax (of_Z 1) e.
Definition add : t -> t -> t := SFadd prec emax.
Definition sub : t -> t -> t := SFsub prec emax.
Definition mul : t -> t -> t := SFmul prec emax.
Definition div : t -> t -> t := SFdiv prec emax.
Definition max (x y : t) : t := if SFltb x y then y else x.
Definition min (x y : t) : t := if SFltb y x then y else x.

(** [tf.floor]: the largest integer not above [x]. *)
Definition floor (x : t) : t :=
  match x with
  | S754_finite s m e =>
      if (0 <=? e)%Z then x
      else of_Z (Z.shiftr (cond_Zopp s (Zpos m)) (- e))
  | _ => x
  end.

(** A Python float is a binary64; it is converted to binary32 when it
    meets a float32 tensor. *)
Definition of_float64 (x : spec_float) : t :=
  match x with
  | S754_finite s m e => binary_normalize prec emax (cond_Zopp s (Zpos m)) e s
  | _ => x
  end.

(** The Python constant [p / q]. *)
Definition ratio (p q : Z) : t :=
  of_float64 (SFdiv 53 1024 (binary_normalize 53 1024 p 0 false)
                            (binary_normalize 53 1024 q 0 false)).

Definition arith : Arith t :=
  {| a_add := add; a_sub := sub; a_mul := mul; a_div := div;
     a_floor := floor; a_max := max; a_min := min; a_int := of_Z;
     a_ratio := ratio |}.

End Float32.

(** [tf.clip_by_value(x, lo, hi)]: [minimum(maximum(x, lo), hi)]. *)
Definition clip {T} (A : Arith T) (x lo hi : T) : T :=
  a_min A (a_max A x lo) hi.

(** One pixel of [get_salt_pepper_noise_image] (lines 191-203 of
    [backup/add_noise.py], 92-104 of [evaluator.py]): [keep] and [u] are
    the two uniform draws of the pixel. *)
Definition salt_pepper_pixel {T} (A : Arith T) (ratio keep u x : T) : T :=
  let random_tensor := a_add A (a_sub A (a_int A 1) ratio) keep in
  let binary_tensor := a_floor A random_tensor in
  let image := a_div A (a_add A x (a_int A 1)) (a_int A 2) in
  let noise_image :=
    a_add A (a_mul A binary_tensor image)
            (a_mul A (a_sub A (a_int A 1) binary_tensor) u) in
  clip A (a_sub A (a_mul A noise_image (a_int A 2)) (a_int A 1))
       (a_int A (-1)) (a_int A 1).

(** Draws under which the first channel of every pixel is replaced and
    the other channels are kept, at ratio 1/2. *)
Definition mixed_draws : Draws :=
  {| ratio_draw := 1 / 2;
     keep_draw := fun _ _ _ c => if Nat.eqb c 0 then 0 else 3 / 4;
     value_draw := fun _ _ _ _ => 1 / 4;
     normal_draw := fun _ _ _ _ => 0 |}.

(** One pixel of the blend of the gate (lines 147-148 of [denoise.py]):
    [c * x + (1 - c) * y]. *)
Definition blend_pixel {T} (A : Arith T) (c x y : T) : T :=
  a_add A (a_mul A c x) (a_mul A (a_sub A (a_int A 1) c) y).

(** One pixel of [inception_preprocess] and of [inception_depreprocess]
    (lines 221 and 226 of [evaluator.py]). *)
Definition preprocess_pixel {T} (A : Arith T) (x : T) : T :=
  a_sub A (a_mul A (a_ratio A 2 255) x) (a_int A 1).

Definition depreprocess_pixel {T} (A : Arith T) (x : T) : T :=
  a_mul A (a_ratio A 255 2) (a_add A x (a_int A 1)).

(** The integer pixel values of [0, 255] that the round trip through
    [-1, 1] does not hand back in float32. *)
Definition round_trip_changes : list Z :=
  filter (fun z =>
            negb (SFeqb (depreprocess_pixel Float32.arith
                           (preprocess_pixel Float32.arith (Float32.of_Z z)))
                        (Float32.of_Z z)))
         (seqZ 0 256).

(** The names under which [gated_denoise] records a loss, by the flags:
    [g_loss] at line 99, [g_loss] and [d_loss] at lines 112 and 118,
    [d_in_loss] at line 141 of [denoise.py]. *)
Definition expected_losses (F : FLAGS.t) (is_training : bool) : gset string :=
  (if is_training && FLAGS.denoise F then {["g_loss"]} else ∅) ∪
  (if is_training && FLAGS.denoise F && FLAGS.denoise_discrim F
   then {["d_loss"]} else ∅) ∪
  (if is_training && FLAGS.discrim F then {["d_in_loss"]} else ∅).

(** ** Theorems *)

Lemma average_filter_strides : py_list_mul 4 [1%nat] = [1; 1; 1; 1]%nat.
Proof. reflexivity. Qed.

(** *** The spatial filter *)

Lemma out_size_stride_1 (n : nat) : out_size n 1 = n.
Proof. unfold out_size. rewrite Nat.div_1_r. lia. Qed.

Lemma pad_before_stride_1 (n k : nat) :
  (0 < n)%nat -> pad_before n k 1 = ((k - 1) / 2)%nat.
Proof.
  intros Hn. unfold pad_before. rewrite out_size_stride_1.
  f_equal. lia.
Qed.

(** With stride 1 the window of position [i] is the [k] positions around
    [i] that lie inside the image. *)
Lemma window_stride_1 (n k i r : nat) :
  r ∈ window n k 1 i <->
  (r < n /\ i <= r + (k - 1) / 2 < i + k)%nat.
Proof.
  unfold window. rewrite list_elem_of_fmap. split.
  - intros (p & -> & Hp). apply list_elem_of_filter in Hp as [[Hge Hlt] Hin].
    apply elem_of_seq in Hin.
    rewrite pad_before_stride_1 in * by lia. lia.
  - intros [Hr Hi]. exists (r + (k - 1) / 2)%nat.
    rewrite pad_before_stride_1 by lia. split; [lia|].
    apply list_elem_of_filter. split; [lia|].
    apply elem_of_seq. lia.
Qed.

Lemma avg_pool_image_height kh kw sh sw (img : Image) :
  height (avg_pool_image kh kw sh sw img) = out_size (height img) sh.
Proof. unfold avg_pool_image, height. by rewrite length_fmap, length_seq. Qed.

Lemma avg_pool_image_rows kh kw sh sw (img : Image) :
  Forall (fun r : Row =>
            length r = out_size (width img) sw /\
            Forall (fun px : Pixel => length px = channels img) r)
         (avg_pool_image kh kw sh sw img).
Proof.
  unfold avg_pool_image. apply Forall_fmap, Forall_forall. intros i _. simpl.
  rewrite length_fmap, length_seq. split; [done|].
  apply Forall_fmap, Forall_forall. intros j _. simpl.
  by rewrite length_fmap, length_seq.
Qed.

Lemma avg_pool_image_lookup kh kw sh sw (img : Image) (i j c : nat) :
  (i < out_size (height img) sh)%nat ->
  (j < out_size (width img) sw)%nat ->
  (c < channels img)%nat ->
  (r ← avg_pool_image kh kw sh sw img !! i; px ← r !! j; px !! c) =
  Some (mean (r ← window (height img) kh sh i;
              (fun q => pixel_at img r q c) <$> window (width img) kw sw j)).
Proof.
  intros Hi Hj Hc. unfold avg_pool_image.
  rewrite list_lookup_fmap, lookup_seq_lt by done. simpl.
  rewrite list_lookup_fmap, lookup_seq_lt by done. simpl.
  rewrite list_lookup_fmap, lookup_seq_lt by done. done.
Qed.

Lemma average_filter_unfold (images : Tensor) (filter_size : nat) :
  (0 < filter_size)%nat ->
  average_filter images filter_size =
  Ok (avg_pool_image filter_size filter_size 1 1 <$> images).
Proof.
  intros Hk. unfold average_filter, avg_pool. simpl.
  destruct decide as [|Hn]; [done|]. exfalso. apply Hn. lia.
Qed.

(** C1, as the code has it: [strides=4*[1]] is the list [[1, 1, 1, 1]], so
    the filter is a box average over the [filter_size x filter_size]
    neighbourhood of every pixel with stride 1, and its output has the
    batch size, height, width and channels of its input (no downsampling),
    for every image batch and every positive window size. *)
Theorem average_filter_stride_1_same_shape
    (images : Tensor) (filter_size : nat) :
  (0 < filter_size)%nat ->
  py_list_mul 4 [1%nat] = [1; 1; 1; 1]%nat /\
  exists out : Tensor,
    average_filter images filter_size = Ok out /\
    length out = length images /\
    (forall (b : nat) (img : Image), images !! b = Some img ->
       exists o : Image, out !! b = Some o /\
         height o = height img /\
         Forall (fun r : Row =>
                   length r = width img /\
                   Forall (fun px : Pixel => length px = channels img) r) o /\
         forall i j c : nat,
           (i < height img)%nat -> (j < width img)%nat ->
           (c < channels img)%nat ->
           tget out b i j c =
           Some (mean (r ← window (height img) filter_size 1 i;
                       (fun q => pixel_at img r q c) <$>
                         window (width img) filter_size 1 j))) /\
    (forall n i r : nat,
       r ∈ window n filter_size 1 i <->
       (r < n /\ i <= r + (filter_size - 1) / 2 < i + filter_size)%nat).
Proof.
  intros Hk. split; [reflexivity|].
  exists (avg_pool_image filter_size filter_size 1 1 <$> images).
  split; [by apply average_filter_unfold|].
  split; [by rewrite length_fmap|].
  split; [|intros; apply window_stride_1].
  intros b img Hb. eexists. split.
  { rewrite list_lookup_fmap, Hb. reflexivity. }
  split; [by rewrite avg_pool_image_height, out_size_stride_1|].
  split.
  { pose proof (avg_pool_image_rows filter_size filter_size 1 1 img) as Hr.
    by rewrite out_size_stride_1 in Hr. }
  intros i j c Hi Hj Hc. unfold tget.
  rewrite list_lookup_fmap, Hb. simpl.
  apply avg_pool_image_lookup; by rewrite ?out_size_stride_1.
Qed.

Lemma average_filter_stride_1_same_shape_witness :
  exists out : Tensor,
    average_filter (zeros 1 4 4 1) 3 = Ok out /\
    length out = length (zeros 1 4 4 1).
Proof.
  destruct (average_filter_stride_1_same_shape (zeros 1 4 4 1) 3)
    as (_ & out & Hout & Hlen & _); [lia|].
  exists out. split; [exact Hout | exact Hlen].
Defined.

(** C1 as stated fails: a [4 x 4] image comes out [4 x 4], not [1 x 1]. *)
Lemma average_filter_not_downsampled_by_4 :
  exists out : Tensor,
    average_filter (zeros 1 4 4 1) 3 = Ok out /\
    height <$> out = [4%nat] /\
    height <$> out <> (fun img : Image => (height img / 4)%nat) <$> zeros 1 4 4 1.
Proof.
  eexists. split; [apply average_filter_unfold; lia|].
  assert (Hh : height <$> (avg_pool_image 3 3 1 1 <$> zeros 1 4 4 1) = [4%nat]).
  { unfold zeros. simpl replicate at 1. rewrite !fmap_cons, !fmap_nil.
    rewrite avg_pool_image_height, out_size_stride_1. reflexivity. }
  split; [exact Hh|]. rewrite Hh. discriminate.
Qed.

(** *** Element-wise operations on tensors of one shape *)

Lemma fmap_eq_Forall2 {A B C} (g : A -> C) (h : B -> C) la lb :
  g <$> la = h <$> lb -> Forall2 (fun x y => g x = h y) la lb.
Proof.
  revert lb. induction la as [|a la IH]; intros [|b lb] Heq;
    simplify_eq/=; constructor; auto.
Qed.

Lemma bzip_with_Forall2 {A B C} (P : A -> B -> Prop) (f g : A -> B -> C)
    la lb :
  Forall2 P la lb -> (forall a b, P a b -> f a b = g a b) ->
  bzip_with f la lb = zip_with g la lb.
Proof.
  intros HF Hfg.
  assert (Hz : zip_with f la lb = zip_with g la lb).
  { induction HF; simpl; f_equal; auto. }
  destruct HF as [|a b la lb Hab HF]; [done|].
  destruct HF as [|a' b' la lb Hab' HF]; simpl in *; [done|].
  exact Hz.
Qed.

Lemma bcompat_Forall2 {A B} (P : A -> B -> Prop) (inner : A -> B -> bool)
    la lb :
  Forall2 P la lb -> (forall a b, P a b -> inner a b = true) ->
  bcompat inner la lb = true.
Proof.
  intros HF Hin.
  assert (Hz : forallb (fun ab => inner ab.1 ab.2) (zip la lb) = true).
  { induction HF; simpl; [done|]. rewrite Hin by done. done. }
  assert (Hlen : bool_decide (length la = length lb) = true).
  { apply bool_decide_eq_true. by eapply Forall2_length. }
  destruct HF as [|a b la lb Hab HF]; [done|].
  destruct HF as [|a' b' la lb Hab' HF]; simpl in *.
  - by rewrite Hin.
  - rewrite Hlen. exact Hz.
Qed.


Lemma tensor_op_same_shape (f : R -> R -> R) (a b : Tensor) :
  shape_of a = shape_of b -> tensor_op f a b = Ok (tzip f a b).
Proof.
  intros Hs. apply fmap_eq_Forall2 in Hs. unfold tensor_op, broadcastable.
  rewrite (bcompat_Forall2 _ _ _ _ Hs).
  - f_equal. unfold tzip. apply (bzip_with_Forall2 _ _ _ _ _ Hs).
    intros x y Hxy. apply fmap_eq_Forall2 in Hxy.
    apply (bzip_with_Forall2 _ _ _ _ _ Hxy).
    intros r1 r2 Hr. apply fmap_eq_Forall2 in Hr.
    apply (bzip_with_Forall2 _ _ _ _ _ Hr).
    intros p q Hpq. apply (bzip_with_Forall2 (fun _ _ => True)); [|done].
    by apply Forall2_true.
  - intros x y Hxy. apply fmap_eq_Forall2 in Hxy.
    apply (bcompat_Forall2 _ _ _ _ Hxy).
    intros r1 r2 Hr. apply fmap_eq_Forall2 in Hr.
    apply (bcompat_Forall2 _ _ _ _ Hr).
    intros p q Hpq. apply (bcompat_Forall2 (fun _ _ => True)); [|done].
    by apply Forall2_true.
Qed.

Lemma fmap_zip_with_l {A B C D} (P : A -> B -> Prop) (f : A -> B -> C)
    (g : C -> D) (g' : A -> D) la lb :
  Forall2 P la lb -> (forall a b, P a b -> g (f a b) = g' a) ->
  g <$> zip_with f la lb = g' <$> la.
Proof. intros HF Hg. induction HF; simpl; f_equal; auto. Qed.

Lemma shape_of_tzip (f : R -> R -> R) (a b : Tensor) :
  shape_of a = shape_of b -> shape_of (tzip f a b) = shape_of a.
Proof.
  intros Hs. apply fmap_eq_Forall2 in Hs. unfold shape_of, tzip.
  apply (fmap_zip_with_l _ _ _ _ _ _ Hs).
  intros x y Hxy. apply fmap_eq_Forall2 in Hxy.
  apply (fmap_zip_with_l _ _ _ _ _ _ Hxy).
  intros r1 r2 Hr. apply fmap_eq_Forall2 in Hr.
  apply (fmap_zip_with_l _ _ _ _ _ _ Hr).
  intros p q Hpq. rewrite length_zip_with. lia.
Qed.

Lemma shape_of_tmap (f : R -> R) (t : Tensor) :
  shape_of (tmap f t) = shape_of t.
Proof.
  unfold shape_of, tmap. rewrite <- list_fmap_compose.
  apply list_fmap_ext. intros _ img _. simpl.
  rewrite <- list_fmap_compose. apply list_fmap_ext. intros _ r _. simpl.
  rewrite <- list_fmap_compose. apply list_fmap_ext. intros _ px _. simpl.
  apply length_fmap.
Qed.

Lemma fmap_imap_ext {A B C} (f : nat -> A -> B) (g : B -> C) (g' : A -> C)
    (l : list A) :
  (forall i x, g (f i x) = g' x) -> g <$> imap f l = g' <$> l.
Proof.
  revert f. induction l as [|x l IH]; intros f Hg; simpl; [done|].
  f_equal; [apply Hg|]. apply IH. intros i y. apply Hg.
Qed.

Lemma shape_of_tabulate_like (t : Tensor) g :
  shape_of (tabulate_like t g) = shape_of t.
Proof.
  unfold shape_of, tabulate_like.
  apply fmap_imap_ext. intros b img.
  apply fmap_imap_ext. intros i r.
  apply fmap_imap_ext. intros j px.
  apply length_imap.
Qed.

Lemma tget_tmap (f : R -> R) (t : Tensor) b i j c :
  tget (tmap f t) b i j c = f <$> tget t b i j c.
Proof.
  unfold tget, tmap. rewrite list_lookup_fmap.
  destruct (t !! b) as [img|]; simpl; [|done].
  rewrite list_lookup_fmap. destruct (img !! i) as [r|]; simpl; [|done].
  rewrite list_lookup_fmap. destruct (r !! j) as [px|]; simpl; [|done].
  by rewrite list_lookup_fmap.
Qed.

Lemma tget_tabulate_like (t : Tensor) g b i j c :
  tget (tabulate_like t g) b i j c = (fun _ => g b i j c) <$> tget t b i j c.
Proof.
  unfold tget, tabulate_like. rewrite list_lookup_imap.
  destruct (t !! b) as [img|]; simpl; [|done].
  rewrite list_lookup_imap. destruct (img !! i) as [r|]; simpl; [|done].
  rewrite list_lookup_imap. destruct (r !! j) as [px|]; simpl; [|done].
  by rewrite list_lookup_imap.
Qed.

Lemma tget_tzip (f : R -> R -> R) (a b : Tensor) n i j c x y :
  tget a n i j c = Some x -> tget b n i j c = Some y ->
  tget (tzip f a b) n i j c = Some (f x y).
Proof.
  unfold tget, tzip. intros Ha Hb. rewrite lookup_zip_with.
  destruct (a !! n) as [ia|]; simpl in *; [|done].
  destruct (b !! n) as [ib|]; simpl in *; [|done].
  rewrite lookup_zip_with.
  destruct (ia !! i) as [ra|]; simpl in *; [|done].
  destruct (ib !! i) as [rb|]; simpl in *; [|done].
  rewrite lookup_zip_with.
  destruct (ra !! j) as [pa|]; simpl in *; [|done].
  destruct (rb !! j) as [pb|]; simpl in *; [|done].
  rewrite lookup_zip_with. by rewrite Ha, Hb.
Qed.

Ltac shape_tac :=
  repeat first
    [ rewrite shape_of_tmap
    | rewrite shape_of_tabulate_like
    | rewrite shape_of_tzip; [|solve [shape_tac]] ];
  try done.

(** On tensors of one shape, a position is defined in one exactly when it
    is defined in the other. *)
Lemma tget_same_shape (a b : Tensor) n i j c x :
  shape_of a = shape_of b -> tget a n i j c = Some x ->
  exists y, tget b n i j c = Some y.
Proof.
  unfold tget. intros Hs Ha. apply fmap_eq_Forall2 in Hs.
  destruct (a !! n) as [ia|] eqn:Hia; simpl in *; [|done].
  destruct (Forall2_lookup_l _ _ _ _ _ Hs Hia) as (ib & -> & Hi). simpl.
  apply fmap_eq_Forall2 in Hi.
  destruct (ia !! i) as [ra|] eqn:Hra; simpl in *; [|done].
  destruct (Forall2_lookup_l _ _ _ _ _ Hi Hra) as (rb & -> & Hr). simpl.
  apply fmap_eq_Forall2 in Hr.
  destruct (ra !! j) as [pa|] eqn:Hpa; simpl in *; [|done].
  destruct (Forall2_lookup_l _ _ _ _ _ Hr Hpa) as (pb & -> & Hp). simpl.
  apply lookup_lt_is_Some. rewrite <- Hp. by eapply lookup_lt_Some.
Qed.

(** *** Clipping and rounding *)

Lemma clip_by_value_bounds (x lo hi : R) :
  lo <= hi -> lo <= clip_by_value x lo hi <= hi.
Proof.
  intros Hlh. unfold clip_by_value, Rmin, Rmax.
  repeat destruct Rle_dec; lra.
Qed.

Lemma clip_by_value_id (x lo hi : R) :
  lo <= x <= hi -> clip_by_value x lo hi = x.
Proof.
  intros Hx. unfold clip_by_value, Rmin, Rmax.
  repeat destruct Rle_dec; lra.
Qed.

Lemma floor_unique (x : R) (z : Z) : IZR z <= x < IZR z + 1 -> floor x = IZR z.
Proof.
  intros Hx. unfold floor. f_equal. symmetry. apply Int_part_spec. lra.
Qed.

(** *** The salt-pepper injector *)

Lemma effective_ratio_bounds ratio rand_ratio d :
  0 <= ratio <= 1 -> 0 <= ratio_draw d < 1 ->
  0 <= effective_ratio ratio rand_ratio d <= 1.
Proof. unfold effective_ratio. destruct rand_ratio; nra. Qed.

Lemma salt_pepper_unfold (image : Tensor) ratio rand_ratio d :
  let r := effective_ratio ratio rand_ratio d in
  let binary_tensor :=
    tmap floor (tmap (fun u => 1 - r + u) (tabulate_like image (keep_draw d))) in
  get_salt_pepper_noise_image image ratio rand_ratio d =
  Ok (tmap (fun x => clip_by_value (x * 2 - 1) (-1) 1)
        (tzip Rplus
           (tzip Rmult binary_tensor (tmap (fun x => (x + 1) / 2) image))
           (tzip Rmult (tmap (fun b => 1 - b) binary_tensor)
                 (tabulate_like image (value_draw d))))).
Proof.
  intros r binary_tensor. subst r binary_tensor.
  unfold get_salt_pepper_noise_image, effective_ratio, tensor_mul, tensor_add.
  rewrite tensor_op_same_shape by shape_tac. simpl.
  rewrite tensor_op_same_shape by shape_tac. simpl.
  rewrite tensor_op_same_shape by shape_tac. done.
Qed.

(** *** The noise injector under the snow flag *)

Lemma get_snow_image_None (image : Tensor) (sparsity : R) :
  get_snow_image image sparsity = None.
Proof. reflexivity. Qed.

Ltac res_simpl H := unfold mret, result_ret in H; simpl in H.

Ltac bind_inv H :=
  res_simpl H;
  match type of H with
  | mbind _ ?m = Ok _ =>
      let E := fresh "E" in
      destruct m as [?|?] eqn:E; res_simpl H; [|discriminate H]
  end.

(** C6 fails on the code: with the snow flag set [add_noise] never returns
    an image batch. [get_snow_image] evaluates to [None] for every image,
    and the summary of the first element of the list of [None]s (or the
    indexing of an empty list) aborts the build. *)
Theorem add_noise_snow_no_image
    (F : FLAGS.t) (images : list Tensor) (sp ga : nat -> Draws) :
  FLAGS.snow F = true ->
  (forall image, image ∈ images -> get_snow_image image 0.05 = None) /\
  ~ is_Ok (add_noise F images sp ga).
Proof.
  intros Hsnow. split; [intros; apply get_snow_image_None|].
  intros [out H]. unfold add_noise in H. rewrite Hsnow in H.
  bind_inv H. bind_inv H. bind_inv H.
  destruct a1 as [|x l]; simpl in H; discriminate.
Qed.

Lemma add_noise_snow_no_image_witness :
  FLAGS.snow snow_flags = true /\
  ~ is_Ok (add_noise snow_flags [zeros 1 4 4 3] (fun _ => no_draws)
                     (fun _ => no_draws)).
Proof.
  split; [reflexivity|].
  apply (add_noise_snow_no_image snow_flags [zeros 1 4 4 3]
           (fun _ => no_draws) (fun _ => no_draws)).
  reflexivity.
Defined.

(** What the build does at that input. *)
Lemma add_noise_snow_error :
  add_noise snow_flags [zeros 1 4 4 3] (fun _ => no_draws) (fun _ => no_draws)
  = Err (ValueError "None values not supported.").
Proof. reflexivity. Qed.

(** *** The pipeline: losses and the disabled stages *)

Section Pipeline.
Context `{L : Layers}.

Lemma filter_stage_off vs images F tr n s :
  FLAGS.average_filter F = false ->
  filter_stage vs images F tr n s = Ok (images, s).
Proof. intros Hf. unfold filter_stage. by rewrite Hf. Qed.

Lemma denoise_stage_off vs F opts tr n noisy orig filtered l s :
  FLAGS.denoise F = false ->
  denoise_stage vs F opts tr n noisy orig filtered l s = Ok (filtered, l, s).
Proof. intros Hd. unfold denoise_stage. by rewrite Hd. Qed.

Lemma gate_stage_off vs F tr n images filtered l s :
  FLAGS.discrim F = false ->
  gate_stage vs F tr n images filtered l s = Ok (filtered, l, s).
Proof. intros Hd. unfold gate_stage. by rewrite Hd. Qed.

(** C10: with average filtering, denoising and input gating all
    disabled, [gated_denoise] returns its image batch unchanged and an
    empty losses dictionary, in training and in evaluation. *)
Theorem gated_denoise_all_off_identity
    (vs : var_scope) (images : Tensor) (F : FLAGS.t)
    (is_training : bool) (noisy_batch_size : nat) :
  FLAGS.average_filter F = false ->
  FLAGS.denoise F = false ->
  FLAGS.discrim F = false ->
  exists summaries_dict,
    gated_denoise vs images F is_training noisy_batch_size =
    Ok (images, ∅, summaries_dict).
Proof.
  intros Hf Hd Hg. unfold gated_denoise.
  rewrite filter_stage_off by done. simpl.
  rewrite denoise_stage_off by done. simpl.
  rewrite gate_stage_off by done. simpl.
  eexists. reflexivity.
Qed.

Lemma denoise_stage_eval_losses vs F opts n filtered l s t l' s' :
  denoise_stage vs F opts false n None None filtered l s = Ok (t, l', s') ->
  l' = l.
Proof.
  unfold denoise_stage. intros H.
  destruct (FLAGS.denoise F); [|res_simpl H; by simplify_eq].
  bind_inv H.
  destruct (FLAGS.denoise_discrim F); res_simpl H; [discriminate|].
  by simplify_eq.
Qed.

Lemma gate_stage_eval_losses vs F n images filtered l s t l' s' :
  gate_stage vs F false n images filtered l s = Ok (t, l', s') ->
  l' = l.
Proof.
  unfold gate_stage. intros H.
  destruct (FLAGS.discrim F); [|res_simpl H; by simplify_eq].
  bind_inv H. bind_inv H. by simplify_eq.
Qed.

(** C9: whenever [gated_denoise] builds with [is_training=false], the
    losses dictionary it returns is empty. *)
Theorem gated_denoise_eval_no_losses
    (vs : var_scope) (images : Tensor) (F : FLAGS.t)
    (noisy_batch_size : nat) out losses_dict summaries_dict :
  gated_denoise vs images F false noisy_batch_size =
    Ok (out, losses_dict, summaries_dict) ->
  losses_dict = ∅.
Proof.
  unfold gated_denoise. intros H.
  bind_inv H. destruct a as [filtered s1]. simpl in H.
  bind_inv H. destruct a as [[best l2] s2]. simpl in H.
  bind_inv H. destruct a as [[img l3] s3]. simpl in H.
  apply denoise_stage_eval_losses in E0.
  apply gate_stage_eval_losses in E1.
  by simplify_eq.
Qed.

End Pipeline.

(** *** The input gate *)

Lemma sigmoid_bounds (x : R) : 0 < sigmoid x < 1.
Proof.
  unfold sigmoid. pose proof (exp_pos (- x)) as He.
  split.
  - apply Rdiv_lt_0_compat; lra.
  - apply (Rmult_lt_reg_r (1 + exp (- x))); [lra|].
    unfold Rdiv. rewrite Rmult_assoc, Rinv_l by lra. lra.
Qed.

Lemma zip_with_fmap_same {A B C} (f : A -> B -> C) (g : A -> B) (h : A -> C)
    (l : list A) :
  (forall x, f x (g x) = h x) -> zip_with f l (g <$> l) = h <$> l.
Proof. intros Hf. induction l; simpl; f_equal; auto. Qed.

Lemma tzip_tmap_r (f : R -> R -> R) (g : R -> R) (t : Tensor) :
  tzip f t (tmap g t) = tmap (fun x => f x (g x)) t.
Proof.
  unfold tzip, tmap.
  apply zip_with_fmap_same. intros img.
  apply zip_with_fmap_same. intros r.
  apply zip_with_fmap_same. intros px.
  by apply zip_with_fmap_same.
Qed.

(** The cross-entropy of a block of logits against constant labels. *)
Lemma sce_criterion_constant_labels (logits : Tensor) (z : R) :
  sce_criterion logits (tmap (fun _ => z) logits) =
  Ok (reduce_mean
        (tmap (fun x => sigmoid_cross_entropy_with_logits x z) logits)).
Proof.
  unfold sce_criterion.
  rewrite tensor_op_same_shape by shape_tac. simpl.
  by rewrite tzip_tmap_r.
Qed.

Lemma d_in_loss_of_formula (F : FLAGS.t) (n : nat) (d_in_logits : Tensor) :
  d_in_loss_of F n d_in_logits =
  Ok (FLAGS.discrim_loss_factor F *
      (reduce_mean (tmap (fun x => sigmoid_cross_entropy_with_logits x 1)
                         (drop n d_in_logits)) +
       reduce_mean (tmap (fun x => sigmoid_cross_entropy_with_logits x 0)
                         (take n d_in_logits))) / 2).
Proof.
  unfold d_in_loss_of, ones_like, zeros_like.
  by rewrite !sce_criterion_constant_labels.
Qed.

Lemma expand_dims_123_tmap (g : R -> R) (conf : list R) :
  tmap g (expand_dims_123 conf) = expand_dims_123 (g <$> conf).
Proof.
  unfold tmap, expand_dims_123. rewrite <- !list_fmap_compose. done.
Qed.

Lemma forallb_all {A} (f : A -> bool) (l : list A) :
  (forall x, f x = true) -> forallb f l = true.
Proof. intros Hf. induction l; simpl; [done|]. by rewrite Hf. Qed.

(** Broadcasting a [B x 1 x 1 x 1] tensor against a batch of [B]
    examples applies each scalar to the pixels of its example. *)
Lemma tensor_op_expand_dims (f : R -> R -> R) (conf : list R) (t : Tensor) :
  length conf = length t ->
  tensor_op f (expand_dims_123 conf) t = Ok (per_example f conf t).
Proof.
  intros Hlen. unfold tensor_op, broadcastable.
  assert (HF : Forall2 (fun (e img : Image) => exists c, e = [[[c]]])
                       (expand_dims_123 conf) t).
  { unfold expand_dims_123. apply Forall2_fmap_l.
    apply Forall2_true; [|done]. intros c img. by exists c. }
  rewrite (bcompat_Forall2 _ _ _ _ HF).
  - f_equal. rewrite (bzip_with_Forall2 _ _ _ _ _ HF (fun _ _ _ => eq_refl)).
    unfold expand_dims_123, per_example. by rewrite zip_with_fmap_l.
  - intros e img [c ->]. simpl.
    apply forallb_all. intros r. simpl.
    apply forallb_all. intros px. simpl.
    by apply forallb_all.
Qed.

Lemma shape_of_per_example (f : R -> R -> R) (conf : list R) (t : Tensor) :
  length conf = length t -> shape_of (per_example f conf t) = shape_of t.
Proof.
  intros Hlen. unfold shape_of, per_example.
  revert conf Hlen. induction t as [|img t IH]; intros [|c conf] Hlen;
    simplify_eq/=; [done|].
  f_equal; [|by apply IH].
  rewrite <- list_fmap_compose. apply list_fmap_ext. intros _ r _. simpl.
  rewrite <- list_fmap_compose. apply list_fmap_ext. intros _ px _. simpl.
  apply length_fmap.
Qed.

Lemma tget_per_example (f : R -> R -> R) (conf : list R) (t : Tensor)
    b i j c cb x :
  conf !! b = Some cb -> tget t b i j c = Some x ->
  tget (per_example f conf t) b i j c = Some (f cb x).
Proof.
  unfold tget, per_example. intros Hc Ht. rewrite lookup_zip_with, Hc. simpl.
  destruct (t !! b) as [img|]; simpl in *; [|done].
  rewrite list_lookup_fmap. destruct (img !! i) as [r|]; simpl in *; [|done].
  rewrite list_lookup_fmap. destruct (r !! j) as [px|]; simpl in *; [|done].
  by rewrite list_lookup_fmap, Ht.
Qed.

Lemma shape_of_length (t : Tensor) : length (shape_of t) = length t.
Proof. unfold shape_of. apply length_fmap. Qed.

Lemma gate_blend_same_shape (conf : list R) (raw best : Tensor) :
  length conf = length raw -> shape_of best = shape_of raw ->
  gate_blend conf raw best =
  Ok (tzip Rplus (per_example Rmult conf raw)
                 (per_example Rmult ((fun c => 1 - c) <$> conf) best)).
Proof.
  intros Hlen Hs.
  assert (Hlen' : length conf = length best).
  { by rewrite <- (shape_of_length best), Hs, shape_of_length. }
  unfold gate_blend, tensor_mul, tensor_add.
  rewrite tensor_op_expand_dims by done. simpl.
  rewrite expand_dims_123_tmap.
  rewrite tensor_op_expand_dims by (by rewrite length_fmap). simpl.
  apply tensor_op_same_shape.
  rewrite !shape_of_per_example; rewrite ?length_fmap; done.
Qed.

(** Two tensors of one shape with the same value at every position are
    equal. *)
Lemma tensor_ext (a b : Tensor) :
  shape_of a = shape_of b ->
  (forall n i j c x y,
     tget a n i j c = Some x -> tget b n i j c = Some y -> x = y) ->
  a = b.
Proof.
  intros Hs Hv. apply fmap_eq_Forall2 in Hs.
  eapply list_eq_same_length;
    [reflexivity | by eapply Forall2_length | ].
  intros n ia ib _ Ha Hb.
  pose proof (Forall2_lookup_lr _ _ _ _ _ _ Hs Ha Hb) as Hi.
  apply fmap_eq_Forall2 in Hi.
  eapply list_eq_same_length;
    [reflexivity | by eapply Forall2_length | ].
  intros i ra rb _ Hra Hrb.
  pose proof (Forall2_lookup_lr _ _ _ _ _ _ Hi Hra Hrb) as Hr.
  apply fmap_eq_Forall2 in Hr.
  eapply list_eq_same_length;
    [reflexivity | by eapply Forall2_length | ].
  intros j pa pb _ Hpa Hpb.
  pose proof (Forall2_lookup_lr _ _ _ _ _ _ Hr Hpa Hpb) as Hp.
  simpl in Hp.
  eapply list_eq_same_length; [reflexivity | done | ].
  intros c x y _ Hx Hy.
  apply (Hv n i j c); unfold tget.
  - by rewrite Ha; simpl; rewrite Hra; simpl; rewrite Hpa.
  - by rewrite Hb; simpl; rewrite Hrb; simpl; rewrite Hpb.
Qed.

(** The blend at one position. *)
Lemma gate_blend_pixel (conf : list R) (raw best out : Tensor)
    b i j c cb x y :
  length conf = length raw -> shape_of best = shape_of raw ->
  gate_blend conf raw best = Ok out ->
  conf !! b = Some cb ->
  tget raw b i j c = Some x -> tget best b i j c = Some y ->
  tget out b i j c = Some (cb * x + (1 - cb) * y).
Proof.
  intros Hlen Hs Hout Hcb Hx Hy.
  rewrite gate_blend_same_shape in Hout by done. simplify_eq.
  apply tget_tzip.
  - by apply tget_per_example.
  - apply tget_per_example; [|done]. by rewrite list_lookup_fmap, Hcb.
Qed.

Lemma shape_of_gate_blend (conf : list R) (raw best out : Tensor) :
  length conf = length raw -> shape_of best = shape_of raw ->
  gate_blend conf raw best = Ok out -> shape_of out = shape_of raw.
Proof.
  intros Hlen Hs Hout.
  rewrite gate_blend_same_shape in Hout by done. simplify_eq.
  rewrite shape_of_tzip.
  - by apply shape_of_per_example.
  - rewrite !shape_of_per_example; rewrite ?length_fmap; try done.
    by rewrite <- (shape_of_length best), Hs, shape_of_length.
Qed.

Lemma tget_lookup_conf (conf : list R) (t : Tensor) b i j c x :
  length conf = length t -> tget t b i j c = Some x ->
  exists cb, conf !! b = Some cb.
Proof.
  intros Hlen Ht. apply lookup_lt_is_Some. rewrite Hlen.
  unfold tget in Ht. destruct (t !! b) eqn:Hb; [|done].
  by eapply lookup_lt_Some.
Qed.

Section Gate.
Context `{L : Layers}.

Lemma filter_stage_candidate vs images F tr n s filtered s1 :
  filter_stage vs images F tr n s = Ok (filtered, s1) ->
  (if FLAGS.average_filter F then filter_candidate vs images F
   else Ok images) = Ok filtered.
Proof.
  unfold filter_stage. intros H.
  destruct (FLAGS.average_filter F); [|res_simpl H; by simplify_eq].
  bind_inv H. by simplify_eq.
Qed.

Lemma denoise_stage_candidate vs F opts tr n noisy orig filtered l s
    best l2 s2 :
  denoise_stage vs F opts tr n noisy orig filtered l s = Ok (best, l2, s2) ->
  (if FLAGS.denoise F
   then denoise_candidate (sub_scope vs "denoise") F opts filtered
   else Ok filtered) = Ok best.
Proof.
  unfold denoise_stage. intros H.
  destruct (FLAGS.denoise F); [|res_simpl H; by simplify_eq].
  bind_inv H. bind_inv H. destruct a0 as [[g1 l1] s1'].
  bind_inv H. destruct a0 as [[g2 l2'] s2'].
  bind_inv H. by simplify_eq.
Qed.

Lemma gate_stage_on vs F tr n images filtered l s out l' s' :
  FLAGS.discrim F = true ->
  gate_stage vs F tr n images filtered l s = Ok (out, l', s') ->
  exists d_in_logits,
    discriminator (sub_scope vs "input_discrim") images (FLAGS.ndf F) 3 1
                  false "discriminator" = Ok d_in_logits /\
    gate_blend (sigmoid <$> reduce_mean_123 d_in_logits) images filtered
      = Ok out /\
    l' = if tr
         then <["d_in_loss" :=
                  FLAGS.discrim_loss_factor F *
                  (reduce_mean
                     (tmap (fun x => sigmoid_cross_entropy_with_logits x 1)
                           (drop n d_in_logits)) +
                   reduce_mean
                     (tmap (fun x => sigmoid_cross_entropy_with_logits x 0)
                           (take n d_in_logits))) / 2]> l
         else l.
Proof.
  unfold gate_stage. intros Hd H. rewrite Hd in H.
  bind_inv H. exists a. split; [done|].
  bind_inv H. destruct a0 as [l1 s1]. bind_inv H.
  split; [by simplify_eq|].
  destruct tr.
  - rewrite d_in_loss_of_formula in E0. res_simpl E0. by simplify_eq.
  - res_simpl E0. by simplify_eq.
Qed.

Lemma gated_denoise_stages vs images F tr n out losses summ :
  gated_denoise vs images F tr n = Ok (out, losses, summ) ->
  exists best l2 s2 s3,
    best_candidate vs images F tr = Ok best /\
    (tr = false -> l2 = ∅) /\
    gate_stage vs F tr n images best l2 s2 = Ok (out, losses, s3).
Proof.
  unfold gated_denoise. intros H.
  bind_inv H. destruct a as [filtered s1].
  bind_inv H. destruct a as [[best l2] s2].
  bind_inv H. destruct a as [[img l3] s3].
  exists best, l2, s2, s3. split; [|split].
  - apply filter_stage_candidate in E.
    pose proof (denoise_stage_candidate _ _ _ _ _ _ _ _ _ _ _ _ _ E0) as E0'.
    unfold best_candidate.
    destruct (FLAGS.denoise F).
    + rewrite E. simpl. exact E0'.
    + by simplify_eq.
  - intros ->. by eapply denoise_stage_eval_losses.
  - by simplify_eq.
Qed.

(** C8: with input gating enabled and in training mode, the loss of the
    input gate is the discrim loss factor times the average of two mean
    sigmoid cross-entropies, that of the logits of the clean half
    against labels 1 and that of the logits of the noisy half against
    labels 0; with [is_training=false] no such loss is produced. *)
Theorem input_gate_loss
    (vs : var_scope) (images : Tensor) (F : FLAGS.t) (is_training : bool)
    (noisy_batch_size : nat) out losses_dict summaries_dict :
  FLAGS.discrim F = true ->
  gated_denoise vs images F is_training noisy_batch_size =
    Ok (out, losses_dict, summaries_dict) ->
  (is_training = true ->
   exists d_in_logits,
     discriminator (sub_scope vs "input_discrim") images (FLAGS.ndf F) 3 1
                   false "discriminator" = Ok d_in_logits /\
     losses_dict !! "d_in_loss" =
     Some (FLAGS.discrim_loss_factor F *
           ((reduce_mean
               (tmap (fun x => sigmoid_cross_entropy_with_logits x 1)
                     (drop noisy_batch_size d_in_logits)) +
             reduce_mean
               (tmap (fun x => sigmoid_cross_entropy_with_logits x 0)
                     (take noisy_batch_size d_in_logits))) / 2))) /\
  (is_training = false -> losses_dict !! "d_in_loss" = None).
Proof.
  intros Hd H.
  apply gated_denoise_stages in H as (best & l2 & s2 & s3 & _ & Hl2 & H).
  apply gate_stage_on in H as (logits & Hlog & _ & ->); [|done].
  split.
  - intros ->. exists logits. split; [done|].
    rewrite lookup_insert_eq. f_equal. unfold Rdiv. ring.
  - intros ->. by rewrite Hl2.
Qed.

End Gate.

(** *** The adversary of the denoiser *)

Lemma gated_denoise_gan_error :
  gated_denoise (H:=identity_layers) Graph.root (zeros 2 4 4 3) gan_flags true 1
  = Err (ValueError "concat: dimensions must be equal").
Proof. reflexivity. Qed.

Lemma tensor_op_length (f : R -> R -> R) (a b out : Tensor) :
  tensor_op f a b = Ok out -> length b <> 1%nat -> length out = length b.
Proof.
  unfold tensor_op, broadcastable. intros H Hb.
  destruct (bcompat _ a b) eqn:Hc; simplify_eq.
  destruct a as [|x [|x' a]]; destruct b as [|y [|y' b]]; simpl in *;
    try done.
  - by rewrite length_fmap.
  - apply andb_prop in Hc as [Hlen _]. apply bool_decide_eq_true in Hlen.
    rewrite length_zip_with. simpl in *. lia.
Qed.

Lemma concat_axis3_length_mismatch (a b : Tensor) :
  length a <> length b ->
  concat_axis3 a b = Err (ValueError "concat: dimensions must be equal").
Proof.
  intros Hne. unfold concat_axis3, same_len.
  by rewrite bool_decide_eq_false_2.
Qed.

Ltac bind_all H :=
  repeat (bind_inv H;
          repeat match goal with
                 | a : (_ * _)%type |- _ => destruct a
                 end).

Section Adversary.
Context `{L : Layers}.

Lemma generator_resnet_length vs image opts depth c_dim reuse name out :
  generator_resnet vs image opts depth c_dim reuse name = Ok out ->
  length image <> 1%nat -> length out = length image.
Proof.
  unfold generator_resnet. intros H Hlen.
  bind_all H. simplify_eq.
  unfold tmap at 1. rewrite length_fmap.
  by eapply tensor_op_length.
Qed.

(** C4 fails on [denoise.py]: in training on a doubled batch (the first
    [n] examples noisy, the next [n] clean) with the adversary of the
    denoiser enabled, the build aborts. Line 100 concatenates the noisy
    half with the whole refined batch, [2 * n] examples, instead of its
    noisy half, so the two batch sizes differ. *)
Theorem denoise_discrim_training_never_builds
    (vs : var_scope) (images : Tensor) (F : FLAGS.t) (n : nat) :
  FLAGS.denoise F = true ->
  FLAGS.denoise_discrim F = true ->
  FLAGS.mixture_of_filters F = false ->
  FLAGS.generator_separate_channel F = false ->
  (0 < n)%nat ->
  length images = (2 * n)%nat ->
  ~ is_Ok (gated_denoise vs images F true n).
Proof.
  intros Hd Hdd Hmix Hsep Hn Hlen [[[out losses] summ] H].
  unfold gated_denoise in H.
  bind_inv H. destruct a as [filtered s1].
  assert (Hf : length filtered = length images).
  { apply filter_stage_candidate in E. unfold filter_candidate in E.
    rewrite Hmix in E. destruct (FLAGS.average_filter F); [|by simplify_eq].
    unfold average_filter, avg_pool in E. simpl in E.
    destruct decide; simplify_eq. by rewrite length_fmap. }
  bind_inv H. clear H. rename E0 into H.
  unfold denoise_stage in H. rewrite Hd, Hdd in H.
  bind_inv H. rename a0 into denoised.
  assert (Hg : length denoised = length images).
  { unfold denoise_candidate in E0. rewrite Hsep in E0.
    apply generator_resnet_length in E0; lia. }
  bind_inv H. destruct a0 as [[g_loss l1] s1'].
  bind_inv H. clear H. rename E2 into H.
  unfold denoise_discrim_stage in H. res_simpl H.
  rewrite (concat_axis3_length_mismatch (take n images) denoised) in H;
    [simpl in H; discriminate H|].
  rewrite length_take. lia.
Qed.

(** The part of C4 the code has: without the adversary, the generator
    loss is the denoise loss factor times the mean absolute difference
    between the noisy half of the refined batch and the clean half of
    the input. *)
Lemma denoise_sim_loss_scaled
    (vs : var_scope) (F : FLAGS.t) (opts : OPTIONS) (n : nat)
    (images filtered : Tensor) l s best l' s' :
  FLAGS.denoise F = true ->
  FLAGS.denoise_discrim F = false ->
  denoise_stage vs F opts true n (Some (take n images))
                (Some (drop n images)) filtered l s = Ok (best, l', s') ->
  exists diff,
    denoise_candidate (sub_scope vs "denoise") F opts filtered = Ok best /\
    tensor_sub (take n best) (drop n images) = Ok diff /\
    l' !! "g_loss" =
    Some (FLAGS.denoise_loss_factor F * reduce_mean (tmap Rabs diff)).
Proof.
  intros Hd Hdd H. unfold denoise_stage in H. rewrite Hd, Hdd in H.
  bind_inv H. bind_inv H. destruct a0 as [[g1 l1] s1].
  bind_inv E0. unfold abs_criterion in E1. bind_inv E1.
  exists a1. simplify_eq. res_simpl H. simplify_eq.
  by rewrite lookup_insert_eq.
Qed.

End Adversary.

Lemma denoise_discrim_training_never_builds_witness :
  ~ is_Ok (gated_denoise (H:=identity_layers) Graph.root (zeros 2 4 4 3)
                         gan_flags true 1).
Proof.
  apply (denoise_discrim_training_never_builds (L:=identity_layers)
           Graph.root (zeros 2 4 4 3) gan_flags 1);
    try reflexivity.
  lia.
Defined.

(** *** Parameter sharing between builds of the discriminator *)

Module GraphFacts.
Import Graph.

Lemma get_variable_fresh name vs store v store' :
  vs_reuse vs = false -> get_variable name vs store = Ok (v, store') ->
  v = scope_join (vs_path vs) name /\ (v ∉ store) /\
  store' = {[v]} ∪ store.
Proof.
  unfold get_variable. intros -> H. destruct decide; by simplify_eq.
Qed.

Lemma get_variable_reused name vs store :
  scope_join (vs_path vs) name ∈ store ->
  get_variable name (reused vs) store =
  Ok (scope_join (vs_path vs) name, store).
Proof. unfold get_variable. simpl. intros Hin. by rewrite decide_True. Qed.

Lemma shares_conv2d out ks s name :
  shares (fun x => conv2d x out ks s name).
Proof.
  intros vs store x d store' Hr H.
  unfold conv2d, variable_scope in H.
  unfold mbind, build_bind in H.
  destruct (get_variable _ _ _) as [[w st]|] eqn:E; [|done].
  apply get_variable_fresh in E as (-> & Hfresh & ->); [|done].
  unfold mret, build_ret in H. simplify_eq.
  eexists (fun y => Conv2d _ out ks s y). split; [done|].
  split; [set_solver|]. split; [|split].
  - intros y. simpl. set_solver.
  - intros T S theta feed y y' Hy. simpl. by rewrite Hy.
  - intros y store2 Hsub. unfold conv2d, variable_scope, mbind, build_bind.
    change (sub_scope (reused vs) name) with (reused (sub_scope vs name)).
    rewrite get_variable_reused by set_solver. done.
Qed.

Lemma shares_instance_norm name :
  shares (fun x => instance_norm x name).
Proof.
  intros vs store x d store' Hr H.
  unfold instance_norm, variable_scope in H.
  unfold mbind, build_bind in H.
  destruct (get_variable "scale" _ _) as [[sc st]|] eqn:E; [|done].
  apply get_variable_fresh in E as (-> & Hfresh & ->); [|done].
  destruct (get_variable "offset" _ _) as [[off st]|] eqn:E'; [|done].
  apply get_variable_fresh in E' as (-> & Hfresh' & ->); [|done].
  unfold mret, build_ret in H. simplify_eq.
  eexists (fun y => InstanceNorm _ _ y). split; [done|].
  split; [set_solver|]. split; [|split].
  - intros y. simpl. set_solver.
  - intros T S theta feed y y' Hy. simpl. by rewrite Hy.
  - intros y store2 Hsub.
    unfold instance_norm, variable_scope, mbind, build_bind.
    change (sub_scope (reused vs) name) with (reused (sub_scope vs name)).
    rewrite !get_variable_reused by set_solver. done.
Qed.

Lemma shares_ret : shares (fun x => mret x).
Proof.
  intros vs store x d store' Hr H. unfold mret, build_ret in H.
  simplify_eq. exists (fun y => y). split; [done|]. split; [done|].
  split; [|split].
  - intros y. set_solver.
  - done.
  - done.
Qed.

Lemma shares_pre_lrelu b : shares b -> shares (fun x => b (lrelu x)).
Proof.
  intros Hb vs store x d store' Hr H.
  destruct (Hb _ _ _ _ _ Hr H) as (net & -> & Hsub & Hv & He & Hre).
  exists (fun y => net (lrelu y)). split; [done|]. split; [done|].
  split; [|split].
  - intros y. by rewrite Hv.
  - intros T S theta feed y y' Hy. apply He. simpl. by rewrite Hy.
  - intros y store2 Hs. by apply Hre.
Qed.

Lemma shares_bind (b1 b2 : node -> Build node) :
  shares b1 -> shares b2 -> shares (fun x => d ← b1 x; b2 d).
Proof.
  intros H1 H2 vs store x d store' Hr H.
  unfold mbind, build_bind in H.
  destruct (b1 x vs store) as [[d1 st1]|] eqn:E1; [|done].
  destruct (H1 _ _ _ _ _ Hr E1) as (net1 & -> & Hsub1 & Hv1 & He1 & Hre1).
  destruct (H2 _ _ _ _ _ Hr H) as (net2 & -> & Hsub2 & Hv2 & He2 & Hre2).
  exists (fun y => net2 (net1 y)). split; [done|].
  split; [set_solver|]. split; [|split].
  - intros y. rewrite Hv2, Hv1. apply set_eq. intros v.
    rewrite !elem_of_union, !elem_of_difference.
    destruct (decide (v ∈ st1)); set_solver.
  - intros T S theta feed y y' Hy. by apply He2, He1.
  - intros y store2 Hs. unfold mbind, build_bind.
    rewrite Hre1 by set_solver. by apply Hre2.
Qed.

Lemma shares_discriminator_body df_dim ks df_last_dim :
  shares (discriminator_body df_dim ks df_last_dim).
Proof.
  unfold discriminator_body.
  apply (shares_bind (fun x => conv2d x _ _ _ _)); [apply shares_conv2d|].
  apply (shares_bind (fun x => conv2d (lrelu x) _ _ _ _));
    [apply (shares_pre_lrelu (fun x => conv2d x _ _ _ _)), shares_conv2d|].
  apply (shares_bind (fun x => instance_norm x _));
    [apply shares_instance_norm|].
  apply (shares_bind (fun x => conv2d (lrelu x) _ _ _ _));
    [apply (shares_pre_lrelu (fun x => conv2d x _ _ _ _)), shares_conv2d|].
  apply (shares_bind (fun x => instance_norm x _));
    [apply shares_instance_norm|].
  apply (shares_bind (fun x => conv2d (lrelu x) _ _ _ _));
    [apply (shares_pre_lrelu (fun x => conv2d x _ _ _ _)), shares_conv2d|].
  apply shares_ret.
Qed.

Lemma discriminator_unfold image df_dim ks df_last_dim reuse name vs store :
  discriminator image df_dim ks df_last_dim reuse name vs store =
  match enter_scope vs name reuse with
  | Ok sc => discriminator_body df_dim ks df_last_dim image sc store
  | Err e => Err e
  end.
Proof. reflexivity. Qed.

End GraphFacts.

(** One lookup of the variable store, on literal names. *)
Ltac step_build :=
  first [ rewrite decide_False by set_solver
        | rewrite decide_True by set_solver ]; simpl.

(** C2: a second build of the discriminator with [reuse=True] under the
    same scope name creates no variable and reads exactly the variables
    the first build created, so on equal inputs the two builds compute
    equal outputs whatever the variables hold; a discriminator built
    afterwards without reuse (which a different scope name allows) reads
    only variables of its own. In [gated_denoise] the two discriminators
    of the denoise adversary share their variables, and the discriminator
    of the input gate shares none with them, also on the same input. *)
Theorem discriminator_reuse_shares_parameters
    (vs : var_scope) (store : gset string) (x : Graph.node)
    (df_dim ks df_last_dim : nat) (name : string)
    (d1 : Graph.node) (store1 : gset string) :
  Graph.discriminator x df_dim ks df_last_dim false name vs store
    = Ok (d1, store1) ->
  (forall y, exists d2,
     Graph.discriminator y df_dim ks df_last_dim true name vs store1
       = Ok (d2, store1) /\
     Graph.variables d1 = Graph.variables x ∪ (store1 ∖ store) /\
     Graph.variables d2 = Graph.variables y ∪ (store1 ∖ store) /\
     forall T (S : Graph.Semantics T) theta feed,
       Graph.eval S theta feed x = Graph.eval S theta feed y ->
       Graph.eval S theta feed d1 = Graph.eval S theta feed d2) /\
  (forall vs' name' z df_dim' ks' df_last_dim' d3 store3,
     Graph.discriminator z df_dim' ks' df_last_dim' false name' vs' store1
       = Ok (d3, store3) ->
     Graph.variables d3 = Graph.variables z ∪ (store3 ∖ store1) /\
     (store3 ∖ store1) ## (store1 ∖ store)) /\
  (forall ndf, exists d_denoised d_original d_in store_a store_g,
     Graph.denoise_adversary (Graph.Input 0) (Graph.Input 1) ndf
       Graph.root ∅ = Ok ((d_denoised, d_original), store_a) /\
     Graph.input_gate (Graph.Input 0) ndf Graph.root store_a
       = Ok (d_in, store_g) /\
     Graph.variables d_denoised = Graph.variables d_original /\
     "denoise/discriminator/d_h0_conv/weights" ∈ Graph.variables d_denoised /\
     "input_discrim/discriminator/d_h0_conv/weights" ∈ Graph.variables d_in /\
     Graph.variables d_in ## Graph.variables d_denoised).
Proof.
  intros H. split; [|split].
  - intros y. rewrite GraphFacts.discriminator_unfold in H.
    rewrite GraphFacts.discriminator_unfold.
    unfold enter_scope in *.
    destruct (vs_reuse (sub_scope vs name)) eqn:Hr; [done|].
    destruct (GraphFacts.shares_discriminator_body _ _ _ _ _ _ _ _ Hr H)
      as (net & -> & Hsub & Hv & He & Hre).
    exists (net y). split; [by apply Hre|].
    split; [apply Hv|]. split; [apply Hv|].
    intros T S theta feed. apply He.
  - intros vs' name' z df_dim' ks' df_last_dim' d3 store3 H3.
    rewrite GraphFacts.discriminator_unfold in H3.
    unfold enter_scope in H3.
    destruct (vs_reuse (sub_scope vs' name')) eqn:Hr; [done|].
    destruct (GraphFacts.shares_discriminator_body _ _ _ _ _ _ _ _ Hr H3)
      as (net & -> & Hsub & Hv & He & Hre).
    split; [apply Hv|]. set_solver.
  - intros ndf. do 5 eexists. split; [|split].
    + unfold Graph.denoise_adversary, Graph.discriminator,
        Graph.discriminator_body, Graph.network_scope, Graph.variable_scope, Graph.conv2d,
        Graph.instance_norm, Graph.get_variable, mbind, Graph.build_bind,
        mret, Graph.build_ret. simpl.
      repeat step_build. reflexivity.
    + unfold Graph.input_gate, Graph.discriminator,
        Graph.discriminator_body, Graph.network_scope, Graph.variable_scope, Graph.conv2d,
        Graph.instance_norm, Graph.get_variable, mbind, Graph.build_bind,
        mret, Graph.build_ret. simpl.
      repeat step_build. reflexivity.
    + simpl. split; [reflexivity|].
      split; [set_solver|]. split; [set_solver|]. set_solver.
Qed.

Lemma denoise_discriminator_first_build :
  exists r,
    Graph.discriminator (Graph.Input 0) 16 3 1 false "discriminator"
      (sub_scope Graph.root "denoise") ∅ = Ok r.
Proof.
  eexists.
  unfold Graph.discriminator, Graph.discriminator_body,
    Graph.network_scope, Graph.variable_scope, Graph.conv2d, Graph.instance_norm, Graph.get_variable, mbind,
    Graph.build_bind, mret, Graph.build_ret. simpl.
  repeat step_build. reflexivity.
Qed.

Lemma discriminator_reuse_shares_parameters_witness :
  exists d1 store1,
    Graph.discriminator (Graph.Input 0) 16 3 1 false "discriminator"
      (sub_scope Graph.root "denoise") ∅ = Ok (d1, store1) /\
    exists d2,
      Graph.discriminator (Graph.Input 1) 16 3 1 true "discriminator"
        (sub_scope Graph.root "denoise") store1 = Ok (d2, store1) /\
      Graph.variables d2 = Graph.variables (Graph.Input 1) ∪ (store1 ∖ ∅).
Proof.
  destruct denoise_discriminator_first_build as [[d1 store1] H].
  exists d1, store1. split; [exact H|].
  destruct (discriminator_reuse_shares_parameters _ _ _ _ _ _ _ _ _ H)
    as [Hre _].
  destruct (Hre (Graph.Input 1)) as (d2 & Hd2 & _ & Hv & _).
  exists d2. split; [exact Hd2 | exact Hv].
Defined.

(** *** Runs of the pipeline on a small batch *)

Lemma eval_run :
  exists r,
    gated_denoise (H:=identity_layers) Graph.root (zeros 1 4 4 3)
                  eval_flags false 1 = Ok r.
Proof. eexists. reflexivity. Qed.

Lemma training_run :
  exists r,
    gated_denoise (H:=identity_layers) Graph.root (zeros 2 4 4 3)
                  eval_flags true 1 = Ok r.
Proof. eexists. reflexivity. Qed.

Lemma gated_denoise_eval_no_losses_witness :
  exists out losses_dict summaries_dict,
    gated_denoise (H:=identity_layers) Graph.root (zeros 1 4 4 3)
                  eval_flags false 1 =
      Ok (out, losses_dict, summaries_dict) /\
    losses_dict = ∅.
Proof.
  destruct eval_run as [[[out losses] summ] H].
  exists out, losses, summ. split; [exact H|].
  exact (gated_denoise_eval_no_losses (L:=identity_layers) _ _ _ _ _ _ _ H).
Defined.

Lemma gated_denoise_all_off_identity_witness :
  exists summaries_dict,
    gated_denoise (H:=identity_layers) Graph.root (zeros 2 4 4 3)
                  plain_flags true 1 =
      Ok (zeros 2 4 4 3, ∅, summaries_dict).
Proof.
  apply (gated_denoise_all_off_identity (L:=identity_layers));
    reflexivity.
Defined.

Lemma input_gate_loss_witness :
  exists out losses_dict summaries_dict,
    gated_denoise (H:=identity_layers) Graph.root (zeros 2 4 4 3)
                  eval_flags true 1 =
      Ok (out, losses_dict, summaries_dict) /\
    is_Some (losses_dict !! "d_in_loss").
Proof.
  destruct training_run as [[[out losses] summ] H].
  exists out, losses, summ. split; [exact H|].
  destruct (input_gate_loss (L:=identity_layers) Graph.root (zeros 2 4 4 3)
              eval_flags true 1 out losses summ eq_refl H) as [Htr _].
  destruct (Htr eq_refl) as (logits & _ & Hloss).
  rewrite Hloss. eexists. reflexivity.
Defined.

(** *** Shapes *)

Lemma fmap_replicate_iff {A B} (g : A -> B) (c : B) (n : nat) (l : list A) :
  g <$> l = replicate n c <-> length l = n /\ Forall (fun x => g x = c) l.
Proof.
  revert n. induction l as [|x l IH]; intros [|n]; simpl.
  - split; [intros _; split; [done|constructor] | done].
  - split; [discriminate | intros [? _]; discriminate].
  - split; [discriminate | intros [? _]; discriminate].
  - split.
    + intros H. injection H as Hx Hl. apply IH in Hl as [Hlen HF].
      split; [by rewrite Hlen | by constructor].
    + intros [Hlen HF]. inversion HF; subst. f_equal; try done.
      apply IH. split; [lia|done].
Qed.

Lemma shape4_shape_of (t : Tensor) (B H W C : nat) :
  shape4 t B H W C <->
  shape_of t = replicate B (replicate H (replicate W C)).
Proof.
  unfold shape4, shape_of. rewrite fmap_replicate_iff.
  apply and_iff_compat_l. apply Forall_proper; [|done]. intros img.
  rewrite fmap_replicate_iff. apply and_iff_compat_l.
  apply Forall_proper; [|done]. intros r.
  rewrite fmap_replicate_iff. done.
Qed.

Lemma shape4_same (a b : Tensor) B H W C :
  shape4 a B H W C -> shape4 b B H W C -> shape_of a = shape_of b.
Proof. rewrite !shape4_shape_of. congruence. Qed.

Lemma shape4_transfer (a b : Tensor) B H W C :
  shape_of b = shape_of a -> shape4 a B H W C -> shape4 b B H W C.
Proof. rewrite !shape4_shape_of. congruence. Qed.

Lemma shape4_tmap (f : R -> R) (t : Tensor) B H W C :
  shape4 t B H W C -> shape4 (tmap f t) B H W C.
Proof. apply shape4_transfer, shape_of_tmap. Qed.

Lemma tensor_add_shape4 (a b : Tensor) B H W C :
  shape4 a B H W C -> shape4 b B H W C ->
  tensor_add a b = Ok (tzip Rplus a b) /\
  shape4 (tzip Rplus a b) B H W C.
Proof.
  intros Ha Hb. pose proof (shape4_same _ _ _ _ _ _ Ha Hb) as Hs.
  split; [by apply tensor_op_same_shape|].
  eapply shape4_transfer; [|exact Ha]. by apply shape_of_tzip.
Qed.

Lemma Forall2_right {A B} (Q : B -> Prop) (l : list A) (k : list B) :
  Forall2 (fun _ y => Q y) l k -> Forall Q k.
Proof. induction 1; constructor; auto. Qed.

Lemma mapM_ok {A B} (f : A -> result B) (Q : B -> Prop) (l : list A) :
  Forall (fun x => exists y, f x = Ok y /\ Q y) l ->
  exists ys, mapM f l = Ok ys /\ length ys = length l /\ Forall Q ys.
Proof.
  induction 1 as [|x l (y & Hy & HQ) _ (ys & Hys & Hlen & HF)]; simpl.
  - exists []. by repeat split.
  - exists (y :: ys). rewrite Hy. simpl. rewrite Hys. simpl.
    split; [done|]. split; [by rewrite Hlen|]. by constructor.
Qed.

Lemma pad_reflect_list_ok {A} (P : A -> Prop) (p : nat) (l : list A) :
  (p < length l)%nat -> Forall P l ->
  exists l', pad_reflect_list p l = Ok l' /\
             length l' = (length l + 2 * p)%nat /\ Forall P l'.
Proof.
  intros Hp HP. unfold pad_reflect_list. rewrite decide_True by done.
  eexists. split; [done|]. split.
  - rewrite !length_app, !length_reverse, !length_take, !length_drop. lia.
  - apply Forall_app_2; [|apply Forall_app_2; [done|]].
    + by apply Forall_reverse, Forall_take, Forall_drop.
    + by apply Forall_reverse, Forall_take, Forall_drop.
Qed.

Lemma pad_reflect_shape (x : Tensor) (p B H W C : nat) :
  shape4 x B H W C -> (p < H)%nat -> (p < W)%nat ->
  exists y, pad_reflect x p = Ok y /\
            shape4 y B (H + 2 * p) (W + 2 * p) C.
Proof.
  intros [HB Hx] HpH HpW. unfold pad_reflect.
  destruct (mapM_ok
    (fun img : Image => rows ← mapM (pad_reflect_list p) img;
                        pad_reflect_list p rows)
    (fun img : Image => length img = (H + 2 * p)%nat /\
       Forall (fun r : Row => length r = (W + 2 * p)%nat /\
                 Forall (fun px : Pixel => length px = C) r) img) x)
    as (y & Hy & Hlen & HF).
  { eapply Forall_impl; [exact Hx|]. intros img [HH Himg]. simpl.
    destruct (mapM_ok (pad_reflect_list p)
      (fun r : Row => length r = (W + 2 * p)%nat /\
                      Forall (fun px : Pixel => length px = C) r) img)
      as (rows & Hrows & Hrl & Hrf).
    { eapply Forall_impl; [exact Himg|]. intros r [HW Hr]. simpl.
      destruct (pad_reflect_list_ok (fun px : Pixel => length px = C) p r)
        as (r' & Hr' & Hl' & Hf'); [lia|done|].
      exists r'. rewrite Hl', HW. done. }
    rewrite Hrows. simpl.
    destruct (pad_reflect_list_ok
      (fun r : Row => length r = (W + 2 * p)%nat /\
                      Forall (fun px : Pixel => length px = C) r) p rows)
      as (img' & Himg' & Hl' & Hf'); [lia|done|].
    exists img'. rewrite Himg', Hl', Hrl, HH. done. }
  exists y. split; [done|]. split; [lia|done].
Qed.

Lemma conv_out_valid_3 (n : nat) :
  (1 <= n)%nat -> conv_out VALID (n + 2 * 1) 3 1 = n.
Proof. intros Hn. unfold conv_out, out_size. rewrite Nat.div_1_r. lia. Qed.

Lemma conv_out_same_1 (n ks : nat) : conv_out SAME n ks 1 = n.
Proof. apply out_size_stride_1. Qed.

Section Generator.
Context `{L : Layers} (HL : LayerShapes L).

Lemma residule_block_shape scope x dim name B H W :
  shape4 x B H W dim -> (2 <= H)%nat -> (2 <= W)%nat ->
  exists y, residule_block scope x dim name = Ok y /\ shape4 y B H W dim.
Proof.
  intros Hx HH HW. unfold residule_block.
  change ((3 - 1) / 2)%nat with 1%nat.
  destruct (pad_reflect_shape x 1 B H W dim) as (y1 & -> & Hy1);
    [done|lia|lia|].
  destruct (conv2d_shape L HL (scope_join scope (name +:+ "_c1")) y1 dim
              3 1 (Some VALID) _ _ _ _ Hy1) as (y2 & Ey2 & Hy2);
    [lia|lia|intros _; lia|].
  change (default SAME (Some VALID)) with VALID in Hy2.
  rewrite !conv_out_valid_3 in Hy2 by lia.
  destruct (instance_norm_shape L HL (scope_join scope (name +:+ "_bn1"))
              y2 _ _ _ _ Hy2) as (y3 & Ey3 & Hy3).
  apply (shape4_tmap (fun x => Rmax x 0)) in Hy3. fold (relu y3) in Hy3.
  destruct (pad_reflect_shape (relu y3) 1 B H W dim) as (y4 & Ey4 & Hy4);
    [done|lia|lia|].
  destruct (conv2d_shape L HL (scope_join scope (name +:+ "_c2")) y4 dim
              3 1 (Some VALID) _ _ _ _ Hy4) as (y5 & Ey5 & Hy5);
    [lia|lia|intros _; lia|].
  change (default SAME (Some VALID)) with VALID in Hy5.
  rewrite !conv_out_valid_3 in Hy5 by lia.
  destruct (instance_norm_shape L HL (scope_join scope (name +:+ "_bn2"))
              y5 _ _ _ _ Hy5) as (y6 & Ey6 & Hy6).
  destruct (tensor_add_shape4 y6 x B H W dim) as [Ea Hs]; [done..|].
  exists (tzip Rplus y6 x). split; [|done].
  unfold mbind, result_bind.
  by rewrite Ey2, Ey3, Ey4, Ey5, Ey6.
Qed.

Lemma res_stage_shape (taken : bool) scope prev_name prev dim name rn
    B H W :
  shape4 rn B H W dim ->
  (taken = true ->
   (2 <= H)%nat /\ (2 <= W)%nat /\
   exists t, prev = Some t /\ shape4 t B H W dim) ->
  exists r rn',
    res_stage taken scope prev_name prev dim name rn = Ok (r, rn') /\
    shape4 rn' B H W dim /\
    (taken = true -> exists t, r = Some t /\ shape4 t B H W dim).
Proof.
  intros Hrn Hprev. unfold res_stage. destruct taken.
  - destruct (Hprev eq_refl) as (HH & HW & t & -> & Ht). simpl.
    destruct (residule_block_shape scope t dim name B H W)
      as (y & -> & Hy); [done..|]. simpl.
    exists (Some y), y. split; [done|]. split; [done|]. eauto.
  - exists None, rn. split; [done|]. split; [done|]. done.
Qed.

End Generator.

(** *** The residual generator *)

Lemma out_size_even (k : nat) : out_size (2 * k) 2 = k.
Proof.
  unfold out_size. replace (2 * k + 2 - 1)%nat with (1 + k * 2)%nat by lia.
  rewrite Nat.div_add by lia. simpl. lia.
Qed.

Lemma enter_scope_ok (vs : var_scope) (name : string) (reuse : bool) :
  reuse = true \/ vs_reuse vs = false ->
  exists sc, enter_scope vs name reuse = Ok sc.
Proof.
  intros H. unfold enter_scope. destruct reuse; [eauto|].
  destruct H as [|H]; [done|]. simpl. rewrite H. eauto.
Qed.

Lemma shape4_zeros (B H W C : nat) : shape4 (zeros B H W C) B H W C.
Proof.
  unfold shape4, zeros. rewrite length_replicate. split; [done|].
  apply Forall_replicate. rewrite length_replicate. split; [done|].
  apply Forall_replicate. rewrite length_replicate. split; [done|].
  apply Forall_replicate. by rewrite length_replicate.
Qed.

Lemma out_size_0 (s : nat) : (0 < s)%nat -> out_size 0 s = 0%nat.
Proof. intros Hs. unfold out_size. apply Nat.div_small. lia. Qed.

Lemma resize_image_shape (fh fw : nat -> nat) (out : nat) (x : Tensor)
    (B H W C : nat) :
  shape4 x B H W C -> (H = 0%nat -> fh 0%nat = 0%nat) ->
  shape4 (resize_image fh fw out <$> x) B (fh H) (fw W) out.
Proof.
  intros [HB Hx] H0. split; [by rewrite length_fmap|].
  apply Forall_fmap. eapply Forall_impl; [exact Hx|].
  intros img [HH Himg]. simpl. unfold resize_image, height.
  rewrite length_fmap, length_seq, HH. split; [done|].
  destruct img as [|r img].
  { simpl in HH. subst H. rewrite H0 by done. constructor. }
  apply Forall_fmap, Forall_forall. intros i _. simpl.
  inversion Himg as [|? ? [HW _] _]; subst.
  rewrite length_fmap, length_seq. split; [done|].
  apply Forall_fmap, Forall_forall. intros j _. simpl.
  by rewrite length_replicate.
Qed.

Lemma shape_layers_shapes : LayerShapes shape_layers.
Proof.
  split.
  - intros scope x out ks s pad B H W C Hx Hks Hs Hvalid. simpl.
    eexists. split; [reflexivity|].
    apply (resize_image_shape
             (fun n => conv_out (default SAME pad) n ks s)
             (fun n => conv_out (default SAME pad) n ks s)
             _ _ _ _ _ _ Hx).
    intros ->. destruct pad as [[|]|]; simpl.
    + by apply out_size_0.
    + destruct (Hvalid eq_refl). lia.
    + by apply out_size_0.
  - intros scope x out ks s B H W C Hx Hs. simpl.
    eexists. split; [reflexivity|].
    apply (resize_image_shape (fun n => n * s)%nat (fun n => n * s)%nat
             _ _ _ _ _ _ Hx). lia.
  - intros scope x B H W C Hx. simpl. eauto.
Qed.

(** *** The loss criteria *)

Lemma rsum_nonneg (l : list R) : Forall (fun x => 0 <= x) l -> 0 <= rsum l.
Proof. induction 1; simpl; [lra|]. unfold rsum in *. simpl. lra. Qed.

Lemma INR_inv_nonneg (n : nat) : 0 <= / INR n.
Proof.
  destruct n as [|n]; [simpl; rewrite Rinv_0; lra|].
  left. apply Rinv_0_lt_compat, lt_0_INR. lia.
Qed.

Lemma mean_nonneg (l : list R) : Forall (fun x => 0 <= x) l -> 0 <= mean l.
Proof.
  intros Hl. unfold mean, Rdiv.
  apply Rmult_le_pos; [by apply rsum_nonneg | apply INR_inv_nonneg].
Qed.

Lemma rsum_zero (l : list R) : Forall (fun x => x = 0) l -> rsum l = 0.
Proof. induction 1; unfold rsum in *; simpl; [done|]. lra. Qed.

Lemma mean_zero (l : list R) : Forall (fun x => x = 0) l -> mean l = 0.
Proof. intros Hl. unfold mean. rewrite rsum_zero by done. lra. Qed.

Lemma Forall_flatten_tmap (P : R -> Prop) (f : R -> R) (t : Tensor) :
  (forall x, P (f x)) -> Forall P (flatten (tmap f t)).
Proof.
  intros Hf. unfold flatten, tmap.
  apply Forall_concat, Forall_concat, Forall_concat.
  apply Forall_fmap, Forall_forall. intros img _. simpl.
  apply Forall_fmap, Forall_forall. intros r _. simpl.
  apply Forall_fmap, Forall_forall. intros px _. simpl.
  apply Forall_fmap, Forall_forall. intros x _. apply Hf.
Qed.

Lemma zip_with_same {A B} (f : A -> A -> B) (g : A -> B) (l : list A) :
  (forall x, f x x = g x) -> zip_with f l l = g <$> l.
Proof. intros Hf. induction l; simpl; f_equal; auto. Qed.

Lemma tzip_same (f : R -> R -> R) (t : Tensor) :
  tzip f t t = tmap (fun x => f x x) t.
Proof.
  unfold tzip, tmap.
  apply zip_with_same. intros img.
  apply zip_with_same. intros r.
  apply zip_with_same. intros px.
  by apply zip_with_same.
Qed.

Lemma zip_with_swap {A B C} (f : A -> B -> C) (g : B -> A -> C) la lb :
  (forall a b, f a b = g b a) -> zip_with f la lb = zip_with g lb la.
Proof.
  intros Hfg. revert lb. induction la as [|a la IH]; intros [|b lb]; simpl;
    f_equal; auto.
Qed.

Lemma tmap_tzip (g : R -> R) (f : R -> R -> R) (a b : Tensor) :
  tmap g (tzip f a b) = tzip (fun x y => g (f x y)) a b.
Proof.
  unfold tmap, tzip.
  revert b. induction a as [|ia a IHa]; intros [|ib b]; simpl; try done.
  f_equal; [|apply IHa]. clear IHa.
  revert ib. induction ia as [|ra ia IHi]; intros [|rb ib]; simpl; try done.
  f_equal; [|apply IHi]. clear IHi.
  revert rb. induction ra as [|pa ra IHr]; intros [|pb rb]; simpl; try done.
  f_equal; [|apply IHr]. clear IHr.
  revert pb. induction pa as [|x pa IHp]; intros [|y pb]; simpl; try done.
  f_equal. apply IHp.
Qed.

Lemma tzip_swap (f g : R -> R -> R) (a b : Tensor) :
  (forall x y, f x y = g y x) -> tzip f a b = tzip g b a.
Proof.
  intros Hfg. unfold tzip.
  apply zip_with_swap. intros ia ib.
  apply zip_with_swap. intros ra rb.
  apply zip_with_swap. intros pa pb.
  by apply zip_with_swap.
Qed.

(** *** The average filter on full blocks *)

(** In a full block, the shape read off the first row and pixel is the
    shape of every row and pixel. *)
Lemma shape4_image (t : Tensor) (B H W C : nat) (b : nat) (img : Image) :
  shape4 t B H W C -> t !! b = Some img ->
  height img = H /\
  ((0 < H)%nat -> width img = W) /\
  ((0 < H)%nat -> (0 < W)%nat -> channels img = C) /\
  Forall (fun r : Row => length r = W /\
            Forall (fun px : Pixel => length px = C) r) img.
Proof.
  intros [_ Ht] Hb.
  pose proof (Forall_lookup_1 _ _ _ _ Ht Hb) as [HH Hrows]. simpl in *.
  split; [done|]. split; [|split; [|done]].
  - intros HHpos. destruct img as [|r img]; simpl in *; [lia|].
    by inversion Hrows as [|? ? [? _] _].
  - intros HHpos HWpos. destruct img as [|r img]; simpl in *; [lia|].
    inversion Hrows as [|? ? [HW Hr] _]; subst.
    destruct r as [|px r]; simpl in *; [lia|].
    by inversion Hr.
Qed.

Lemma pixel_at_tget (t : Tensor) (b : nat) (img : Image) (i j c : nat) x :
  t !! b = Some img -> tget t b i j c = Some x -> pixel_at img i j c = x.
Proof.
  unfold tget, pixel_at. intros -> H. simpl in H. by rewrite H.
Qed.

Lemma tget_defined (t : Tensor) (B H W C : nat) (b : nat) (img : Image)
    (i j c : nat) :
  shape4 t B H W C -> t !! b = Some img ->
  (i < H)%nat -> (j < W)%nat -> (c < C)%nat ->
  exists x, tget t b i j c = Some x.
Proof.
  intros Ht Hb Hi Hj Hc.
  destruct (shape4_image _ _ _ _ _ _ _ Ht Hb) as (HH & _ & _ & Hrows).
  unfold tget. rewrite Hb. simpl.
  destruct (lookup_lt_is_Some_2 img i) as [r Hr]; [unfold height in HH; lia|].
  rewrite Hr. simpl.
  pose proof (Forall_lookup_1 _ _ _ _ Hrows Hr) as [HW Hpx]. simpl in *.
  destruct (lookup_lt_is_Some_2 r j) as [px Hp]; [lia|].
  rewrite Hp. simpl.
  pose proof (Forall_lookup_1 _ _ _ _ Hpx Hp) as HC. simpl in *.
  apply lookup_lt_is_Some_2. lia.
Qed.

Lemma tget_avg_pool_inv (k : nat) (t : Tensor) b i j c y :
  tget (avg_pool_image k k 1 1 <$> t) b i j c = Some y ->
  exists img,
    t !! b = Some img /\
    (i < height img)%nat /\ (j < width img)%nat /\ (c < channels img)%nat /\
    y = mean (r ← window (height img) k 1 i;
              (fun q => pixel_at img r q c) <$> window (width img) k 1 j).
Proof.
  unfold tget. intros H.
  apply bind_Some in H as (o & Ho & H).
  rewrite list_lookup_fmap in Ho. apply fmap_Some in Ho as (img & Hb & ->).
  exists img. split; [done|].
  apply bind_Some in H as (r & Hr & H). unfold avg_pool_image in Hr.
  rewrite list_lookup_fmap in Hr. apply fmap_Some in Hr as (i' & Hi & ->).
  apply lookup_seq in Hi as [-> Hi]. rewrite out_size_stride_1 in Hi.
  apply bind_Some in H as (px & Hp & H).
  rewrite list_lookup_fmap in Hp. apply fmap_Some in Hp as (j' & Hj & ->).
  apply lookup_seq in Hj as [-> Hj]. rewrite out_size_stride_1 in Hj.
  rewrite list_lookup_fmap in H. apply fmap_Some in H as (c' & Hc & ->).
  apply lookup_seq in Hc as [-> Hc]. done.
Qed.

Lemma window_size_1 (n i : nat) : (i < n)%nat -> window n 1 1 i = [i].
Proof.
  intros Hi. unfold window. rewrite pad_before_stride_1 by lia.
  change ((1 - 1) / 2)%nat with 0%nat. rewrite Nat.mul_1_r. simpl.
  rewrite filter_cons_True by lia. rewrite filter_nil. simpl.
  f_equal. lia.
Qed.

Lemma mean_singleton (x : R) : mean [x] = x.
Proof. unfold mean, rsum. simpl. lra. Qed.

(** X6: with a window of size 1 the average filter returns a full block
    unchanged. *)
Theorem average_filter_size_1_identity (images : Tensor) (B H W C : nat) :
  shape4 images B H W C ->
  average_filter images 1 = Ok images.
Proof.
  intros Hs. rewrite average_filter_unfold by lia. f_equal.
  assert (Hshape : shape_of (avg_pool_image 1 1 1 1 <$> images)
                   = shape_of images).
  { apply shape4_same with B H W C; [|done].
    split; [rewrite length_fmap; apply Hs|].
    apply Forall_fmap, Forall_forall. intros img Himg. simpl.
    apply list_elem_of_lookup in Himg as [b Hb].
    destruct (shape4_image _ _ _ _ _ _ _ Hs Hb) as (HH & HW & HC & Hrows).
    pose proof (avg_pool_image_height 1 1 1 1 img) as Hh.
    rewrite out_size_stride_1 in Hh. unfold height in *.
    split; [lia|].
    pose proof (avg_pool_image_rows 1 1 1 1 img) as Hr.
    rewrite out_size_stride_1 in Hr.
    destruct (decide (H = 0%nat)) as [->|HH0].
    { destruct (avg_pool_image 1 1 1 1 img); [constructor|simpl in *; lia]. }
    rewrite HW in Hr by lia.
    destruct (decide (W = 0%nat)) as [->|HW0].
    { eapply Forall_impl; [exact Hr|]. intros r [Hl _]. simpl.
      split; [done|]. destruct r; [constructor|simpl in *; lia]. }
    rewrite HC in Hr by lia. done. }
  apply tensor_ext; [done|].
  intros b i j c x y Hx Hy.
  apply tget_avg_pool_inv in Hx as (img & Hb & Hi & Hj & Hc & ->).
  rewrite !window_size_1 by done. simpl.
  rewrite mean_singleton. by eapply pixel_at_tget.
Qed.

Lemma average_filter_size_1_identity_witness :
  average_filter (zeros 2 4 4 3) 1 = Ok (zeros 2 4 4 3).
Proof.
  apply (average_filter_size_1_identity (zeros 2 4 4 3) 2 4 4 3).
  apply shape4_zeros.
Defined.

Lemma abs_criterion_nonneg (a b : Tensor) v :
  abs_criterion a b = Ok v -> 0 <= v.
Proof.
  intros H. unfold abs_criterion in H. bind_inv H. simplify_eq.
  apply mean_nonneg, Forall_flatten_tmap. intros x. apply Rabs_pos.
Qed.

Lemma mae_criterion_nonneg (a b : Tensor) v :
  mae_criterion a b = Ok v -> 0 <= v.
Proof.
  intros H. unfold mae_criterion in H. bind_inv H. simplify_eq.
  apply mean_nonneg, Forall_flatten_tmap. intros x. apply pow2_ge_0.
Qed.

(** *** The pipeline outside training *)

Section Evaluation.
Context `{L : Layers}.


(** X8: outside training, enabling the adversary of the denoiser makes
    [denoise.gated_denoise] fail for every input: [noisy_images] is bound
    only under [is_training], so once the filter and the generator are
    built the build stops on that name. *)
Theorem denoise_discrim_eval_name_error
    (vs : var_scope) (images : Tensor) (F : FLAGS.t) (n : nat) :
  FLAGS.denoise F = true ->
  FLAGS.denoise_discrim F = true ->
  ~ is_Ok (gated_denoise vs images F false n) /\
  (is_Ok (best_candidate vs images F false) ->
   gated_denoise vs images F false n = Err (NameError "noisy_images")).
Proof.
  intros Hd Hdd.
  assert (Hgen : forall c, best_candidate vs images F false = Ok c ->
            gated_denoise vs images F false n = Err (NameError "noisy_images")).
  { intros c Hc. unfold best_candidate in Hc. rewrite Hd in Hc.
    unfold gated_denoise, filter_stage, denoise_stage.
    rewrite Hd, Hdd.
    destruct (FLAGS.average_filter F).
    - destruct (filter_candidate vs images F) as [f|e]; [|discriminate Hc].
      res_simpl Hc. simpl. unfold mret, result_ret. simpl.
      by rewrite Hc.
    - res_simpl Hc. simpl. unfold mret, result_ret. simpl.
      by rewrite Hc. }
  split.
  - intros [[[out l] s] H].
    assert (Hb : is_Ok (best_candidate vs images F false)).
    { unfold gated_denoise in H. bind_inv H. destruct a as [filtered s1].
      apply filter_stage_candidate in E.
      bind_inv H. clear H. unfold denoise_stage in E0. rewrite Hd in E0.
      bind_inv E0. unfold best_candidate. rewrite Hd.
      destruct (FLAGS.average_filter F).
      - rewrite E. simpl. by eexists.
      - simplify_eq. simpl. by eexists. }
    destruct Hb as [c Hc]. rewrite (Hgen c Hc) in H. discriminate H.
  - intros [c Hc]. exact (Hgen c Hc).
Qed.


End Evaluation.

Lemma denoise_discrim_eval_name_error_witness :
  ~ is_Ok (gated_denoise (H:=identity_layers) Graph.root (zeros 1 4 4 3)
                         gan_flags false 1) /\
  (is_Ok (best_candidate (H:=identity_layers) Graph.root (zeros 1 4 4 3)
                         gan_flags false) ->
   gated_denoise (H:=identity_layers) Graph.root (zeros 1 4 4 3)
                 gan_flags false 1 = Err (NameError "noisy_images")).
Proof.
  apply (denoise_discrim_eval_name_error (L:=identity_layers) Graph.root
           (zeros 1 4 4 3) gan_flags 1); reflexivity.
Defined.

(** *** Builders in a reusing scope *)

Lemma enter_scope_reusing (vs : var_scope) (name : string) :
  vs_reuse vs = true -> enter_scope vs name false = Err AssertionError.
Proof. unfold enter_scope. simpl. by intros ->. Qed.

Section Reusing.
Context `{L : Layers}.

Lemma discriminator_reusing vs image df ks last name :
  vs_reuse vs = true ->
  discriminator vs image df ks last false name = Err AssertionError.
Proof.
  intros Hr. unfold discriminator. by rewrite enter_scope_reusing.
Qed.

Lemma gate_reusing vs image df nc name :
  vs_reuse vs = true -> gate vs image df nc false name = Err AssertionError.
Proof. intros Hr. unfold gate. by rewrite enter_scope_reusing. Qed.

Lemma generator_resnet_reusing vs image opts depth c name :
  vs_reuse vs = true ->
  generator_resnet vs image opts depth c false name = Err AssertionError.
Proof.
  intros Hr. unfold generator_resnet. by rewrite enter_scope_reusing.
Qed.

Lemma generator_separate_resnet_reusing vs image opts depth name :
  vs_reuse vs = true ->
  ~ is_Ok (generator_separate_resnet vs image opts depth false name).
Proof.
  intros Hr [out H]. unfold generator_separate_resnet in H.
  bind_inv H. by rewrite generator_resnet_reusing in H.
Qed.

(** X10: every network builder called with [reuse=False] asserts that
    the enclosing variable scope does not reuse. Hence inside a reusing
    scope (a second tower, say) the builders stop with an
    [AssertionError], and [gated_denoise] builds for no input as soon as
    one flag asks for a network. *)
Theorem gated_denoise_reusing_scope_never_builds
    (vs : var_scope) (images : Tensor) (F : FLAGS.t) (is_training : bool)
    (n : nat) :
  vs_reuse vs = true ->
  builds_network F = true ->
  (forall image df ks last name,
     discriminator vs image df ks last false name = Err AssertionError) /\
  (forall image df nc name,
     gate vs image df nc false name = Err AssertionError) /\
  (forall image opts depth c name,
     generator_resnet vs image opts depth c false name
       = Err AssertionError) /\
  ~ is_Ok (gated_denoise vs images F is_training n).
Proof.
  intros Hr HF. split; [|split; [|split]].
  - intros. by apply discriminator_reusing.
  - intros. by apply gate_reusing.
  - intros. by apply generator_resnet_reusing.
  - intros [[[out l] s] H]. unfold gated_denoise in H.
    bind_inv H. destruct a as [filtered s1].
    bind_inv H. destruct a as [[best l2] s2].
    bind_inv H. clear H.
    unfold builds_network in HF.
    destruct (FLAGS.average_filter F && FLAGS.mixture_of_filters F) eqn:Hmix.
    { apply andb_prop in Hmix as [Ha Hm].
      apply filter_stage_candidate in E. rewrite Ha in E.
      unfold filter_candidate in E. rewrite Hm in E.
      bind_inv E.
      match goal with
      | Hg : gate _ _ _ _ false _ = Ok _ |- _ =>
          by rewrite gate_reusing in Hg
      end. }
    destruct (FLAGS.denoise F) eqn:Hd.
    { unfold denoise_stage in E0. rewrite Hd in E0. bind_inv E0.
      unfold denoise_candidate in E2.
      destruct (FLAGS.generator_separate_channel F).
      - eapply (generator_separate_resnet_reusing (sub_scope vs "denoise"));
          [done|by eexists].
      - by rewrite generator_resnet_reusing in E2. }
    simpl in HF. unfold gate_stage in E1. rewrite HF in E1.
    bind_inv E1.
    match goal with
    | Hg : discriminator _ _ _ _ _ false _ = Ok _ |- _ =>
        by rewrite discriminator_reusing in Hg
    end.
Qed.

(** *** The depth of the generator *)

(** X11: the last link of the chain of residual blocks tests
    [res_depth == 9], the eight before test [res_depth >= k]; a depth of
    10 or more therefore builds the network of depth 8. *)
Theorem generator_resnet_depth_over_9
    (vs : var_scope) (image : Tensor) (options : OPTIONS) (res_depth : nat)
    (output_c_dim : nat) (reuse : bool) (name : string) :
  (10 <= res_depth)%nat ->
  generator_resnet vs image options res_depth output_c_dim reuse name =
  generator_resnet vs image options 8 output_c_dim reuse name.
Proof.
  intros Hd. unfold generator_resnet.
  rewrite !(bool_decide_eq_true_2 (_ <= res_depth)%nat) by lia.
  rewrite (bool_decide_eq_false_2 (res_depth = 9)%nat) by lia.
  reflexivity.
Qed.

End Reusing.

Lemma gated_denoise_reusing_scope_never_builds_witness :
  ~ is_Ok (gated_denoise (H:=identity_layers) (Graph.reused Graph.root)
                         (zeros 1 4 4 3) eval_flags false 1).
Proof.
  apply (gated_denoise_reusing_scope_never_builds (L:=identity_layers)
           (Graph.reused Graph.root) (zeros 1 4 4 3) eval_flags false 1);
    reflexivity.
Defined.

Lemma generator_resnet_depth_over_9_witness :
  generator_resnet (H:=identity_layers) Graph.root (zeros 1 8 8 3)
                   small_options 12 3 false "generator" =
  generator_resnet (H:=identity_layers) Graph.root (zeros 1 8 8 3)
                   small_options 8 3 false "generator".
Proof.
  apply (generator_resnet_depth_over_9 (L:=identity_layers) Graph.root
           (zeros 1 8 8 3) small_options 12 3 false "generator").
  lia.
Defined.

(** *** The noise injectors at the ends of their parameters *)

Lemma in_range_clip (lo hi : R) (f : R -> R) (t : Tensor) :
  lo <= hi -> in_range lo hi (tmap (fun x => clip_by_value (f x) lo hi) t).
Proof.
  intros Hlh b i j c x. rewrite tget_tmap.
  destruct (tget t b i j c); intros Hx; simplify_eq/=.
  by apply clip_by_value_bounds.
Qed.

Lemma gaussian_unfold (image : Tensor) (stddev : R) (d : Draws) :
  get_gaussian_noise_image image stddev d =
  Ok (tmap (fun x => clip_by_value x (-1) 1)
        (tzip Rplus image
           (tmap (fun g => g * (stddev * 2))
                 (tabulate_like image (normal_draw d))))).
Proof.
  unfold get_gaussian_noise_image, tensor_add.
  rewrite tensor_op_same_shape by shape_tac. done.
Qed.

(** X13: the gaussian injector builds for every batch and returns a
    batch of the same shape: each pixel is the input pixel plus the
    normal draw scaled by [2 * stddev], clipped to [-1, 1]. With
    [stddev = 0] a batch with values in [-1, 1] comes back unchanged. *)
Theorem gaussian_noise_clipped
    (image : Tensor) (stddev : R) (d : Draws) :
  exists out : Tensor,
    get_gaussian_noise_image image stddev d = Ok out /\
    shape_of out = shape_of image /\
    in_range (-1) 1 out /\
    (forall b i j c x,
       tget image b i j c = Some x ->
       tget out b i j c =
       Some (clip_by_value (x + normal_draw d b i j c * (stddev * 2)) (-1) 1)) /\
    (stddev = 0 -> in_range (-1) 1 image -> out = image).
Proof.
  eexists. split; [apply gaussian_unfold|].
  assert (Hpix : forall b i j c x,
    tget image b i j c = Some x ->
    tget (tmap (fun x => clip_by_value x (-1) 1)
            (tzip Rplus image
               (tmap (fun g => g * (stddev * 2))
                     (tabulate_like image (normal_draw d))))) b i j c =
    Some (clip_by_value (x + normal_draw d b i j c * (stddev * 2)) (-1) 1)).
  { intros b i j c x Hx. rewrite tget_tmap.
    erewrite tget_tzip; [reflexivity|done|].
    by rewrite tget_tmap, tget_tabulate_like, Hx. }
  split; [shape_tac|]. split; [|split; [done|]].
  - apply (in_range_clip (-1) 1 (fun x => x)). lra.
  - intros -> Hrange. apply tensor_ext; [shape_tac|].
    intros b i j c y x Hy Hx. rewrite (Hpix _ _ _ _ _ Hx) in Hy.
    simplify_eq. rewrite clip_by_value_id; [lra|].
    pose proof (Hrange _ _ _ _ _ Hx). lra.
Qed.

(** *** The noise passes of [add_noise] *)

Lemma map_images_Forall2 (f : Tensor -> Draws -> result Tensor)
    (P : Tensor -> Tensor -> Prop) (l : list Tensor) (ds : nat -> Draws)
    (k : nat) :
  (forall x d, exists y, f x d = Ok y /\ P x y) ->
  exists out, map_images f l ds k = Ok out /\ Forall2 P l out.
Proof.
  intros Hf. revert k. induction l as [|x l IH]; intros k; simpl.
  - by exists [].
  - destruct (Hf x (ds k)) as (y & -> & Hy).
    destruct (IH (S k)) as (ys & -> & Hys).
    exists (y :: ys). split; [done|]. by constructor.
Qed.

Lemma first_ok {A} (l : list A) : l <> [] -> exists x, first l = Ok x.
Proof. destruct l as [|x l]; [done|]. by exists x. Qed.

Lemma salt_pepper_pass (image : Tensor) ratio d :
  exists out,
    get_salt_pepper_noise_image image ratio true d = Ok out /\
    (shape_of out = shape_of image /\ in_range (-1) 1 out).
Proof.
  eexists. split; [apply salt_pepper_unfold|]. split; [shape_tac|].
  apply (in_range_clip (-1) 1 (fun x => x * 2 - 1)). lra.
Qed.

Lemma gaussian_pass (image : Tensor) stddev d :
  exists out,
    get_gaussian_noise_image image stddev d = Ok out /\
    (shape_of out = shape_of image /\ in_range (-1) 1 out).
Proof.
  eexists. split; [apply gaussian_unfold|]. split; [shape_tac|].
  apply (in_range_clip (-1) 1 (fun x => x)). lra.
Qed.

(** X15: without the low-resolution and snow passes, [add_noise] returns
    for every non-empty list of batches one noisy batch per input batch,
    each of the shape of its input; if the salt-pepper or the gaussian
    pass is enabled all its values lie in [-1, 1], and with no pass
    enabled the list comes back unchanged. *)
Theorem add_noise_salt_pepper_gaussian
    (F : FLAGS.t) (images : list Tensor) (sp ga : nat -> Draws) :
  FLAGS.lowres F = false ->
  FLAGS.snow F = false ->
  images <> [] ->
  exists out : list Tensor,
    add_noise F images sp ga = Ok (Some <$> out) /\
    Forall2 (fun x y => shape_of y = shape_of x) images out /\
    (FLAGS.salt_pepper_noise F || FLAGS.gaussian_noise F = true ->
     Forall (in_range (-1) 1) out) /\
    (FLAGS.salt_pepper_noise F || FLAGS.gaussian_noise F = false ->
     out = images).
Proof.
  intros Hlow Hsnow Hne. unfold add_noise. rewrite Hlow, Hsnow.
  assert (Hlen : forall (P : Tensor -> Tensor -> Prop) l l',
            Forall2 P l l' -> l <> [] -> l' <> []).
  { intros P l l' HF Hl ->. apply Forall2_nil_inv_r in HF. done. }
  destruct (FLAGS.salt_pepper_noise F), (FLAGS.gaussian_noise F); simpl.
  - destruct (map_images_Forall2
                (fun image => get_salt_pepper_noise_image image (FLAGS.ratio F)
                                                          true)
                (fun x y => shape_of y = shape_of x /\ in_range (-1) 1 y)
                images sp 0) as (o1 & -> & H1).
    { intros x d. apply salt_pepper_pass. }
    simpl. destruct (first_ok o1) as [x1 ->]; [by eapply Hlen|]. simpl.
    destruct (map_images_Forall2
                (fun image => get_gaussian_noise_image image (FLAGS.stddev F))
                (fun x y => shape_of y = shape_of x /\ in_range (-1) 1 y)
                o1 ga 0) as (o2 & -> & H2).
    { intros x d. apply gaussian_pass. }
    simpl. destruct (first_ok o2) as [x2 ->]; [by eapply Hlen, Hlen|]. simpl.
    exists o2. split; [done|]. split; [|split; [|done]].
    + eapply Forall2_trans; [|exact H1|exact H2].
      simpl. intros x y z [Hy _] [Hz _]. congruence.
    + intros _. eapply Forall2_Forall_r; [exact H2|].
      apply Forall_true. by intros x y [_ Hy].
  - destruct (map_images_Forall2
                (fun image => get_salt_pepper_noise_image image (FLAGS.ratio F)
                                                          true)
                (fun x y => shape_of y = shape_of x /\ in_range (-1) 1 y)
                images sp 0) as (o1 & -> & H1).
    { intros x d. apply salt_pepper_pass. }
    simpl. destruct (first_ok o1) as [x1 ->]; [by eapply Hlen|]. simpl.
    exists o1. split; [done|]. split; [|split; [|done]].
    + eapply Forall2_impl; [exact H1|]. by intros x y [Hy _].
    + intros _. eapply Forall2_Forall_r; [exact H1|].
      apply Forall_true. by intros x y [_ Hy].
  - destruct (map_images_Forall2
                (fun image => get_gaussian_noise_image image (FLAGS.stddev F))
                (fun x y => shape_of y = shape_of x /\ in_range (-1) 1 y)
                images ga 0) as (o2 & -> & H2).
    { intros x d. apply gaussian_pass. }
    simpl. destruct (first_ok o2) as [x2 ->]; [by eapply Hlen|]. simpl.
    exists o2. split; [done|]. split; [|split; [|done]].
    + eapply Forall2_impl; [exact H2|]. by intros x y [Hy _].
    + intros _. eapply Forall2_Forall_r; [exact H2|].
      apply Forall_true. by intros x y [_ Hy].
  - exists images. split; [done|]. split; [|split; [done|done]].
    apply Forall_Forall2_diag, Forall_true. done.
Qed.

(** X16: the two ways [add_noise] stops before its noise is used. With
    the low-resolution flag it never returns: the pass reads
    [groundtruth_boxes_list], which [add_noise] does not bind. On an
    empty list an enabled salt-pepper or gaussian pass stops on
    [noisy_images[0]]. *)
Theorem add_noise_lowres_and_empty
    (F : FLAGS.t) (images : list Tensor) (sp ga : nat -> Draws) :
  (FLAGS.lowres F = true ->
   ~ is_Ok (add_noise F images sp ga) /\
   (images <> [] ->
    add_noise F images sp ga = Err (NameError "groundtruth_boxes_list"))) /\
  (FLAGS.salt_pepper_noise F || FLAGS.gaussian_noise F = true ->
   add_noise F [] sp ga = Err (IndexError "list index out of range")).
Proof.
  split.
  - intros Hlow. split.
    + intros [out H]. unfold add_noise in H. rewrite Hlow in H.
      bind_inv H. bind_inv H. discriminate H.
    + intros Hne. unfold add_noise. rewrite Hlow.
      assert (Hlen : forall (P : Tensor -> Tensor -> Prop) l l',
                Forall2 P l l' -> l <> [] -> l' <> []).
      { intros P l l' HF Hl ->. apply Forall2_nil_inv_r in HF. done. }
      assert (Hsp : forall l, l <> [] -> exists o x,
                map_images (fun image => get_salt_pepper_noise_image image
                              (FLAGS.ratio F) true) l sp 0 = Ok o /\
                first o = Ok x /\ o <> []).
      { intros l Hl.
        destruct (map_images_Forall2
                    (fun image => get_salt_pepper_noise_image image
                                    (FLAGS.ratio F) true)
                    (fun x y => shape_of y = shape_of x /\ in_range (-1) 1 y)
                    l sp 0) as (o1 & E1 & H1).
        { intros x d. apply salt_pepper_pass. }
        destruct (first_ok o1) as [x1 E]; [by eapply Hlen|].
        exists o1, x1. split; [done|]. split; [done|]. by eapply Hlen. }
      assert (Hga : forall l, l <> [] -> exists o x,
                map_images (fun image => get_gaussian_noise_image image
                              (FLAGS.stddev F)) l ga 0 = Ok o /\
                first o = Ok x /\ o <> []).
      { intros l Hl.
        destruct (map_images_Forall2
                    (fun image => get_gaussian_noise_image image
                                    (FLAGS.stddev F))
                    (fun x y => shape_of y = shape_of x /\ in_range (-1) 1 y)
                    l ga 0) as (o1 & E1 & H1).
        { intros x d. apply gaussian_pass. }
        destruct (first_ok o1) as [x1 E]; [by eapply Hlen|].
        exists o1, x1. split; [done|]. split; [done|]. by eapply Hlen. }
      destruct (FLAGS.salt_pepper_noise F), (FLAGS.gaussian_noise F); simpl.
      * destruct (Hsp images Hne) as (o1 & x1 & E1 & E2 & Ho1).
        rewrite E1. simpl. rewrite E2. simpl.
        destruct (Hga o1 Ho1) as (o2 & x2 & E3 & E4 & _).
        rewrite E3. simpl. rewrite E4. done.
      * destruct (Hsp images Hne) as (o1 & x1 & E1 & E2 & Ho1).
        rewrite E1. simpl. rewrite E2. done.
      * destruct (Hga images Hne) as (o2 & x2 & E3 & E4 & _).
        rewrite E3. simpl. rewrite E4. done.
      * done.
  - intros Hflag. unfold add_noise.
    destruct (FLAGS.salt_pepper_noise F); [done|].
    destruct (FLAGS.gaussian_noise F); [done|]. done.
Qed.

Lemma add_noise_salt_pepper_gaussian_witness :
  exists out : list Tensor,
    add_noise noise_flags [zeros 1 2 2 3] (fun _ => no_draws)
              (fun _ => no_draws) = Ok (Some <$> out) /\
    Forall2 (fun x y => shape_of y = shape_of x) [zeros 1 2 2 3] out /\
    Forall (in_range (-1) 1) out.
Proof.
  destruct (add_noise_salt_pepper_gaussian noise_flags [zeros 1 2 2 3]
              (fun _ => no_draws) (fun _ => no_draws))
    as (out & Hout & Hshape & Hrange & _); [reflexivity|reflexivity|done|].
  exists out. split; [exact Hout|]. split; [exact Hshape|].
  apply Hrange. reflexivity.
Defined.

(** *** Full blocks through the filter *)

Lemma avg_pool_shape4 (k : nat) (images : Tensor) (B H W C : nat) :
  shape4 images B H W C ->
  shape4 (avg_pool_image k k 1 1 <$> images) B H W C.
Proof.
  intros [Hlen Himgs]. split; [by rewrite length_fmap|].
  apply Forall_fmap. eapply Forall_impl; [exact Himgs|].
  intros img [HH Hrows]. simpl.
  pose proof (avg_pool_image_height k k 1 1 img) as Hh.
  rewrite out_size_stride_1 in Hh. unfold height in Hh.
  split; [lia|].
  pose proof (avg_pool_image_rows k k 1 1 img) as Hr.
  rewrite out_size_stride_1 in Hr.
  destruct img as [|r img].
  { destruct (avg_pool_image k k 1 1 []); [constructor|simpl in Hh; lia]. }
  apply Forall_cons in Hrows as [[Hw Hpx] _].
  eapply Forall_impl; [exact Hr|]. simpl.
  intros r' [Hw' Hpx']. split; [lia|].
  destruct r as [|px r].
  { simpl in *. destruct r'; [constructor|simpl in Hw'; lia]. }
  apply Forall_cons in Hpx as [HC _].
  eapply Forall_impl; [exact Hpx'|]. simpl. intros px' Hc. lia.
Qed.

Lemma in_range_zeros (B H W C : nat) : in_range 0 0 (zeros B H W C).
Proof.
  intros b i j c x Hx. unfold tget, zeros in Hx.
  apply bind_Some in Hx as (img & Himg & Hx).
  apply lookup_replicate in Himg as [-> _].
  apply bind_Some in Hx as (r & Hr & Hx).
  apply lookup_replicate in Hr as [-> _].
  apply bind_Some in Hx as (px & Hp & Hx).
  apply lookup_replicate in Hp as [-> _].
  apply lookup_replicate in Hx as [-> _]. lra.
Qed.

(** *** The generator applied channel by channel *)




Lemma mapM_fmap {A B} (f : A -> result B) (g : A -> B) (l : list A) :
  Forall (fun x => f x = Ok (g x)) l -> mapM f l = Ok (g <$> l).
Proof.
  induction 1 as [|x l Hx _ IH]; simpl; [done|].
  rewrite Hx. simpl. rewrite IH. done.
Qed.




Lemma enter_scope_path (vs sc : var_scope) (name : string) (reuse : bool) :
  enter_scope vs name reuse = Ok sc ->
  vs_path sc = scope_join (vs_path vs) name.
Proof.
  unfold enter_scope. intros H. destruct reuse; [by simplify_eq|].
  destruct (vs_reuse (sub_scope vs name)); by simplify_eq.
Qed.

Section GeneratorBuilds.
Context `{L : Layers} (HL : LayerShapes L).

Local Arguments Nat.mul : simpl never.

Ltac shape_stage B h w :=
  match goal with
  | |- context [res_stage ?tk ?sc ?pn ?prev ?dim ?nm ?rn] =>
      let r := fresh "r" in
      let rn' := fresh "rn" in
      let E := fresh "E" in
      let Hrn := fresh "Hrn" in
      let Hr := fresh "Hr" in
      destruct (res_stage_shape HL tk sc pn prev dim nm rn B h w)
        as (r & rn' & E & Hrn & Hr);
      [ assumption
      | let Htk := fresh in
        intros Htk; apply bool_decide_eq_true in Htk;
        split; [lia|]; split; [lia|];
        first [ eexists; split; [reflexivity|assumption]
              | match goal with
                | Hp : _ = true -> exists t, prev = Some t /\ _ |- _ =>
                    apply Hp; apply bool_decide_eq_true; lia
                end ]
      | rewrite E; clear E; simpl ]
  end.

Lemma generator_resnet_shapes
    (vs : var_scope) (image : Tensor) (options : OPTIONS)
    (res_depth c_dim : nat) (reuse : bool) (name : string) (B h w : nat) :
  reuse = true \/ vs_reuse vs = false ->
  shape4 image B (4 * h) (4 * w) c_dim ->
  res_depth = 0%nat \/ (2 <= h /\ 2 <= w)%nat ->
  exists d2 conv : Tensor,
    shape4 d2 B (4 * h) (4 * w) (gf_dim options) /\
    conv2d (scope_join (scope_join (vs_path vs) name) "g_pred_c") d2 c_dim
           (Some 3%nat) (Some 1%nat) (Some SAME) = Ok conv /\
    shape4 conv B (4 * h) (4 * w) c_dim /\
    generator_resnet vs image options res_depth c_dim reuse name =
    Ok (tmap (fun x => clip_by_value x (-1) 1)
             (tzip Rplus (tmap tanh conv) image)).
Proof.
  intros Hreuse Himg Hdepth. unfold generator_resnet.
  destruct (enter_scope_ok vs name reuse Hreuse) as [sc Hsc].
  pose proof (enter_scope_path _ _ _ _ Hsc) as Hpath.
  rewrite Hsc. simpl.
  destruct (conv2d_shape L HL (scope_join (vs_path sc) "g_e1_c") image
              (gf_dim options * 1) 3 1 (Some SAME) _ _ _ _ Himg)
    as (c1 & -> & Hc1); [lia|lia|done|]. simpl.
  change (default SAME (Some SAME)) with SAME in Hc1.
  rewrite !conv_out_same_1 in Hc1.
  destruct (instance_norm_shape L HL (scope_join (vs_path sc) "g_e1_bn")
              c1 _ _ _ _ Hc1) as (c1' & -> & Hc1'). simpl.
  apply (shape4_tmap (fun x => Rmax x 0)) in Hc1'. fold (relu c1') in Hc1'.
  destruct (conv2d_shape L HL (scope_join (vs_path sc) "g_e2_c") (relu c1')
              (gf_dim options * 2) 3 2 None _ _ _ _ Hc1')
    as (c2 & -> & Hc2); [lia|lia|done|]. simpl.
  change (default SAME None) with SAME in Hc2. unfold conv_out in Hc2.
  replace (4 * h)%nat with (2 * (2 * h))%nat in Hc2 by lia.
  replace (4 * w)%nat with (2 * (2 * w))%nat in Hc2 by lia.
  rewrite !out_size_even in Hc2.
  destruct (instance_norm_shape L HL (scope_join (vs_path sc) "g_e2_bn")
              c2 _ _ _ _ Hc2) as (c2' & -> & Hc2'). simpl.
  apply (shape4_tmap (fun x => Rmax x 0)) in Hc2'. fold (relu c2') in Hc2'.
  destruct (conv2d_shape L HL (scope_join (vs_path sc) "g_e3_c") (relu c2')
              (gf_dim options * 4) 3 2 None _ _ _ _ Hc2')
    as (c3 & -> & Hc3); [lia|lia|done|]. simpl.
  change (default SAME None) with SAME in Hc3. unfold conv_out in Hc3.
  rewrite !out_size_even in Hc3.
  destruct (instance_norm_shape L HL (scope_join (vs_path sc) "g_e3_bn")
              c3 _ _ _ _ Hc3) as (c3' & -> & Hc3'). simpl.
  apply (shape4_tmap (fun x => Rmax x 0)) in Hc3'. fold (relu c3') in Hc3'.
  do 9 shape_stage B h w.
  destruct (deconv2d_shape L HL (scope_join (vs_path sc) "g_d1_dc") rn7
              (gf_dim options * 2) 3 2 _ _ _ _ Hrn7)
    as (d1 & -> & Hd1); [lia|]. simpl.
  destruct (instance_norm_shape L HL (scope_join (vs_path sc) "g_d1_bn")
              d1 _ _ _ _ Hd1) as (d1' & -> & Hd1'). simpl.
  apply (shape4_tmap (fun x => Rmax x 0)) in Hd1'. fold (relu d1') in Hd1'.
  replace (h * 2)%nat with (2 * h)%nat in Hd1' by lia.
  replace (w * 2)%nat with (2 * w)%nat in Hd1' by lia.
  destruct (tensor_add_shape4 _ _ _ _ _ _ Hc2' Hd1') as [-> Hs1]. simpl.
  destruct (deconv2d_shape L HL (scope_join (vs_path sc) "g_d2_dc") _
              (gf_dim options) 3 2 _ _ _ _ Hs1)
    as (d2 & -> & Hd2); [lia|]. simpl.
  destruct (instance_norm_shape L HL (scope_join (vs_path sc) "g_d2_bn")
              d2 _ _ _ _ Hd2) as (d2' & -> & Hd2'). simpl.
  apply (shape4_tmap (fun x => Rmax x 0)) in Hd2'. fold (relu d2') in Hd2'.
  replace (2 * h * 2)%nat with (4 * h)%nat in Hd2' by lia.
  replace (2 * w * 2)%nat with (4 * w)%nat in Hd2' by lia.
  replace (gf_dim options * 1)%nat with (gf_dim options) in Hc1' by lia.
  destruct (tensor_add_shape4 _ _ _ _ _ _ Hc1' Hd2') as [-> Hs2]. simpl.
  destruct (conv2d_shape L HL (scope_join (vs_path sc) "g_pred_c") _
              c_dim 3 1 (Some SAME) _ _ _ _ Hs2)
    as (pp & Epp & Hpp); [lia|lia|done|]. rewrite Epp. simpl.
  change (default SAME (Some SAME)) with SAME in Hpp.
  rewrite !conv_out_same_1 in Hpp.
  pose proof (shape4_tmap tanh _ _ _ _ _ Hpp) as Hcorr.
  destruct (tensor_add_shape4 _ _ _ _ _ _ Hcorr Himg) as [-> Hsum]. simpl.
  exists (tzip Rplus (relu c1') (relu d2')), pp.
  split; [done|]. split; [by rewrite <- Hpath|]. split; done.
Qed.

Lemma generator_resnet_builds
    (vs : var_scope) (image : Tensor) (options : OPTIONS)
    (res_depth c_dim : nat) (reuse : bool) (name : string) (B h w : nat) :
  reuse = true \/ vs_reuse vs = false ->
  shape4 image B (4 * h) (4 * w) c_dim ->
  res_depth = 0%nat \/ (2 <= h /\ 2 <= w)%nat ->
  exists pred,
    generator_resnet vs image options res_depth c_dim reuse name = Ok pred /\
    shape4 pred B (4 * h) (4 * w) c_dim /\
    in_range (-1) 1 pred.
Proof.
  intros Hreuse Himg Hdepth.
  destruct (generator_resnet_shapes vs image options res_depth c_dim reuse
              name B h w Hreuse Himg Hdepth) as (d2 & conv & _ & _ & Hc & ->).
  eexists. split; [done|]. split.
  - apply shape4_tmap.
    by apply (tensor_add_shape4 _ _ _ _ _ _ (shape4_tmap tanh _ _ _ _ _ Hc)).
  - apply (in_range_clip (-1) 1 (fun x => x)). lra.
Qed.


End GeneratorBuilds.


(** *** The denoiser without its adversary *)

Lemma shape4_take (t : Tensor) (n B H W C : nat) :
  shape4 t B H W C -> shape4 (take n t) (n `min` B) H W C.
Proof.
  intros [HB Himgs]. split; [rewrite length_take; lia|].
  by apply Forall_take.
Qed.

Lemma shape4_drop (t : Tensor) (n B H W C : nat) :
  shape4 t B H W C -> shape4 (drop n t) (B - n) H W C.
Proof.
  intros [HB Himgs]. split; [rewrite length_drop; lia|].
  by apply Forall_drop.
Qed.

Section DenoiseBuilds.
Context `{L : Layers} (HL : LayerShapes L).

Local Arguments Nat.mul : simpl never.

(** X19: the configuration the denoiser is trained and run in. With
    layers of the shapes of [LayerShapes], in a scope that does not
    reuse variables, with the generator on the three channels at once,
    no mixture of filters, no adversary and no gate, and a positive
    window size if the average filter is on, [gated_denoise] builds on
    a three-channel batch whose height and width are multiples of 4
    and, if a residual block is built ([res_depth] of 1 or more), at
    least 8 (in training: the [n] noisy examples followed by their [n]
    clean originals). It returns the batch of the generator, of the
    shape of the input and with values in [-1, 1]; outside training
    there is no loss, in training the only loss is [g_loss], the loss
    factor times the mean absolute difference between the refined
    noisy half and the clean half. *)
Theorem gated_denoise_denoiser_builds
    (vs : var_scope) (images : Tensor) (F : FLAGS.t) (is_training : bool)
    (n : nat) (B h w : nat) :
  vs_reuse vs = false ->
  FLAGS.denoise F = true ->
  FLAGS.generator_separate_channel F = false ->
  FLAGS.denoise_discrim F = false ->
  FLAGS.discrim F = false ->
  FLAGS.mixture_of_filters F = false ->
  (FLAGS.average_filter F = true -> (0 < FLAGS.filter_size F)%nat) ->
  shape4 images B (4 * h) (4 * w) 3 ->
  FLAGS.res_depth F = 0%nat \/ (2 <= h /\ 2 <= w)%nat ->
  (is_training = true -> B = (2 * n)%nat) ->
  exists out losses_dict summaries_dict,
    gated_denoise vs images F is_training n
      = Ok (out, losses_dict, summaries_dict) /\
    shape4 out B (4 * h) (4 * w) 3 /\
    in_range (-1) 1 out /\
    (is_training = false -> losses_dict = ∅) /\
    (is_training = true ->
     exists diff,
       tensor_sub (take n out) (drop n images) = Ok diff /\
       losses_dict =
       {[ "g_loss" :=
            FLAGS.denoise_loss_factor F * reduce_mean (tmap Rabs diff) ]}).
Proof.
  intros Hvs Hd Hsep Hdd Hdi Hmix Hfs Himg Hdepth Htr.
  assert (Hfilt : exists filtered,
            (if FLAGS.average_filter F then filter_candidate vs images F
             else Ok images) = Ok filtered /\
            shape4 filtered B (4 * h) (4 * w) 3).
  { destruct (FLAGS.average_filter F); [|by exists images].
    unfold filter_candidate. rewrite Hmix.
    rewrite average_filter_unfold by by apply Hfs.
    eexists. split; [done|]. by apply avg_pool_shape4. }
  destruct Hfilt as (filtered & Hfilt & Hfs4).
  destruct (generator_resnet_builds HL (sub_scope vs "denoise") filtered
              (make_options F is_training) (FLAGS.res_depth F) 3 false
              "generator" B h w) as (out & Hout & Hos & Hor);
    [by right|done|done|].
  exists out.
  unfold gated_denoise, filter_stage, denoise_stage, gate_stage,
    denoise_candidate.
  rewrite Hd, Hsep, Hdd, Hdi.
  destruct is_training.
  - specialize (Htr eq_refl). subst B.
    assert (Hsub : tensor_sub (take n out) (drop n images) =
                   Ok (tzip Rminus (take n out) (drop n images))).
    { apply tensor_op_same_shape.
      pose proof (shape4_take out n _ _ _ _ Hos) as Ht.
      pose proof (shape4_drop images n _ _ _ _ Himg) as Hdr.
      replace (n `min` (2 * n))%nat with n in Ht by lia.
      replace (2 * n - n)%nat with n in Hdr by lia.
      by eapply shape4_same. }
    destruct (FLAGS.average_filter F).
    + rewrite Hfilt. unfold mret, result_ret. simpl. rewrite Hout. simpl.
      unfold abs_criterion. rewrite Hsub. simpl.
      do 2 eexists. split; [reflexivity|].
      split; [done|]. split; [done|]. split; [done|].
      intros _. eexists. split; [reflexivity|]. done.
    + injection Hfilt as <-.
      unfold mret, result_ret. simpl. rewrite Hout. simpl.
      unfold abs_criterion. rewrite Hsub. simpl.
      do 2 eexists. split; [reflexivity|].
      split; [done|]. split; [done|]. split; [done|].
      intros _. eexists. split; [reflexivity|]. done.
  - destruct (FLAGS.average_filter F).
    + rewrite Hfilt. unfold mret, result_ret. simpl. rewrite Hout. simpl.
      do 2 eexists. split; [reflexivity|].
      split; [done|]. split; [done|]. split; [done|]. done.
    + injection Hfilt as <-.
      unfold mret, result_ret. simpl. rewrite Hout. simpl.
      do 2 eexists. split; [reflexivity|].
      split; [done|]. split; [done|]. split; [done|]. done.
Qed.

End DenoiseBuilds.

Lemma gated_denoise_denoiser_builds_witness :
  exists out losses_dict summaries_dict,
    gated_denoise (H:=shape_layers) Graph.root (zeros 2 8 8 3)
                  denoiser_flags true 1
      = Ok (out, losses_dict, summaries_dict) /\
    shape4 out 2 (4 * 2) (4 * 2) 3 /\
    in_range (-1) 1 out.
Proof.
  destruct (gated_denoise_denoiser_builds (L:=shape_layers)
              shape_layers_shapes Graph.root (zeros 2 8 8 3) denoiser_flags
              true 1 2 2 2)
    as (out & l & s & Hout & Hs & Hr & _);
    try reflexivity.
  - intros _. simpl. lia.
  - apply (shape4_zeros 2 8 8 3).
  - right. lia.
  - exists out, l, s. split; [exact Hout|]. split; [exact Hs|exact Hr].
Defined.

(** *** The weights of the mixture of filters *)

Lemma column_fmap (k : nat) (probs : list (list R)) :
  Forall (fun row => (k < length row)%nat) probs ->
  column k probs = Ok ((fun row => default 0 (row !! k)) <$> probs).
Proof.
  intros Hrows. unfold column. apply mapM_fmap.
  eapply Forall_impl; [exact Hrows|]. intros row Hk. simpl in *.
  destruct (lookup_lt_is_Some_2 row k Hk) as [v Hv]. by rewrite Hv.
Qed.

Lemma weighted_per_example (k : nat) (probs : list (list R)) (t : Tensor) :
  Forall (fun row => (k < length row)%nat) probs ->
  length probs = length t ->
  weighted k probs t =
  Ok (per_example Rmult ((fun row => default 0 (row !! k)) <$> probs) t).
Proof.
  intros Hrows Hlen. unfold weighted. rewrite column_fmap by done. simpl.
  apply tensor_op_expand_dims. by rewrite length_fmap.
Qed.

(** *** Builds of the discriminator in the wrong order *)

Lemma discriminator_body_first_kernel df_dim ks df_last_dim image sc store
    d store' :
  vs_reuse sc = false ->
  Graph.discriminator_body df_dim ks df_last_dim image sc store
    = Ok (d, store') ->
  scope_join (scope_join (vs_path sc) "d_h0_conv") "weights" ∈ store'.
Proof.
  intros Hr H.
  unfold Graph.discriminator_body, Graph.conv2d, Graph.instance_norm,
    Graph.variable_scope, Graph.get_variable in H.
  unfold mbind, Graph.build_bind, mret, Graph.build_ret in H.
  simpl in H. rewrite Hr in H.
  repeat match type of H with
         | context [decide ?P] => destruct (decide P); [discriminate H|]
         end.
  injection H as _ <-. set_solver.
Qed.

(** X21: the order of the builds matters. After a build of the
    discriminator that created its variables, a second build under the
    same scope name without [reuse] stops on the first kernel, which
    already exists; a build with [reuse=True] stops on the first kernel
    when no earlier build has created it, on the empty store in
    particular. *)
Theorem discriminator_build_order
    (vs : var_scope) (store : gset string) (x : Graph.node)
    (df_dim ks df_last_dim : nat) (name : string) :
  (forall d1 store1 y df_dim' ks' df_last_dim',
     Graph.discriminator x df_dim ks df_last_dim false name vs store
       = Ok (d1, store1) ->
     Graph.discriminator y df_dim' ks' df_last_dim' false name vs store1
       = Err (ValueError "Variable already exists")) /\
  (scope_join (scope_join (scope_join (vs_path vs) name) "d_h0_conv")
              "weights" ∉ store ->
   Graph.discriminator x df_dim ks df_last_dim true name vs store
     = Err (ValueError "Variable does not exist")) /\
  Graph.discriminator x df_dim ks df_last_dim true name vs ∅
    = Err (ValueError "Variable does not exist").
Proof.
  assert (Hreuse : forall st,
    scope_join (scope_join (scope_join (vs_path vs) name) "d_h0_conv")
               "weights" ∉ st ->
    Graph.discriminator x df_dim ks df_last_dim true name vs st
      = Err (ValueError "Variable does not exist")).
  { intros st Hnot. rewrite GraphFacts.discriminator_unfold. simpl.
    unfold Graph.discriminator_body, Graph.conv2d, Graph.variable_scope,
      Graph.get_variable.
    unfold mbind, Graph.build_bind. simpl.
    by rewrite decide_False. }
  split; [|split].
  - intros d1 store1 y df_dim' ks' df_last_dim' H.
    rewrite GraphFacts.discriminator_unfold in H.
    rewrite GraphFacts.discriminator_unfold.
    unfold enter_scope in *.
    destruct (vs_reuse (sub_scope vs name)) eqn:Hr; [done|].
    pose proof (discriminator_body_first_kernel _ _ _ _ _ _ _ _ Hr H) as Hin.
    unfold Graph.discriminator_body, Graph.conv2d, Graph.variable_scope,
      Graph.get_variable.
    unfold mbind, Graph.build_bind. simpl. simpl in Hr. rewrite Hr.
    by rewrite decide_True.
  - apply Hreuse.
  - apply Hreuse. set_solver.
Qed.

Lemma discriminator_build_order_witness :
  exists d1 store1,
    Graph.discriminator (Graph.Input 0) 16 3 1 false "discriminator"
      (sub_scope Graph.root "denoise") ∅ = Ok (d1, store1) /\
    Graph.discriminator (Graph.Input 1) 16 3 1 false "discriminator"
      (sub_scope Graph.root "denoise") store1
      = Err (ValueError "Variable already exists").
Proof.
  destruct denoise_discriminator_first_build as [[d1 store1] H].
  exists d1, store1. split; [exact H|].
  destruct (discriminator_build_order (sub_scope Graph.root "denoise") ∅
              (Graph.Input 0) 16 3 1 "discriminator") as [Hsecond _].
  exact (Hsecond d1 store1 (Graph.Input 1) 16%nat 3%nat 1%nat H).
Defined.

(** *** The U-Net generator *)

(** X22: [generator_unet] never builds, whatever the layers, the dropout
    and the input: its first dropout reads [dropout_rate], whose
    assignment is commented out. If the scope can be entered and the
    layers themselves build, the build stops on exactly that name. *)
Theorem generator_unet_never_builds `{L : Layers}
    (dropout : Tensor -> R -> bool -> Tensor)
    (vs : var_scope) (image : Tensor) (options : OPTIONS) (reuse : bool)
    (name : string) :
  ~ is_Ok (generator_unet dropout vs image options reuse name) /\
  (reuse = true \/ vs_reuse vs = false ->
   (forall scope x out ks s pad, is_Ok (conv2d scope x out ks s pad)) ->
   (forall scope x out ks s, is_Ok (deconv2d scope x out ks s)) ->
   (forall scope x, is_Ok (instance_norm scope x)) ->
   generator_unet dropout vs image options reuse name
     = Err (NameError "dropout_rate")).
Proof.
  split.
  - intros [out H]. unfold generator_unet in H.
    do 18 bind_inv H. discriminate H.
  - intros Hreuse Hconv Hdeconv Hnorm. unfold generator_unet.
    destruct (enter_scope_ok vs name reuse Hreuse) as [sc ->]. simpl.
    repeat (match goal with
            | |- context [conv2d ?a ?b ?c ?d ?e ?f] =>
                let y := fresh "c" in
                destruct (Hconv a b c d e f) as [y ->]; simpl
            end;
            match goal with
            | |- context [instance_norm ?a ?b] =>
                let y := fresh "e" in
                destruct (Hnorm a b) as [y ->]; simpl
            end).
    match goal with
    | |- context [deconv2d ?a ?b ?c ?d ?e] =>
        destruct (Hdeconv a b c d e) as [y ->]; simpl
    end.
    reflexivity.
Qed.

Lemma generator_unet_never_builds_witness :
  generator_unet (H:=identity_layers) (fun x _ _ => x) Graph.root
                 (zeros 1 4 4 3) small_options false "generator"
    = Err (NameError "dropout_rate").
Proof.
  apply (generator_unet_never_builds (L:=identity_layers) (fun x _ _ => x)
           Graph.root (zeros 1 4 4 3) small_options false "generator").
  - right. reflexivity.
  - intros. simpl. by eexists.
  - intros. simpl. by eexists.
  - intros. simpl. by eexists.
Defined.

(** *** The salt-pepper injector, pixel by pixel *)

Lemma salt_pepper_tget (image : Tensor) ratio rand_ratio d b i j c x :
  tget image b i j c = Some x ->
  exists out,
    get_salt_pepper_noise_image image ratio rand_ratio d = Ok out /\
    shape_of out = shape_of image /\
    tget out b i j c =
    Some (salt_pepper_pixel exact (effective_ratio ratio rand_ratio d)
            (keep_draw d b i j c) (value_draw d b i j c) x).
Proof.
  intros Hx. eexists. split; [apply salt_pepper_unfold|].
  split; [shape_tac|].
  rewrite tget_tmap.
  erewrite tget_tzip; [reflexivity| |].
  - erewrite tget_tzip; [reflexivity| |].
    + rewrite !tget_tmap, tget_tabulate_like, Hx. reflexivity.
    + rewrite tget_tmap, Hx. reflexivity.
  - erewrite tget_tzip; [reflexivity| |].
    + rewrite !tget_tmap, tget_tabulate_like, Hx. reflexivity.
    + rewrite tget_tabulate_like, Hx. reflexivity.
Qed.

Lemma salt_pepper_mask (r u : R) :
  0 <= r <= 1 -> 0 <= u < 1 ->
  floor (1 - r + u) = 1 \/ floor (1 - r + u) = 0.
Proof.
  intros Hr Hu. destruct (Rle_lt_dec r u).
  - left. apply (floor_unique _ 1). lra.
  - right. apply (floor_unique _ 0). lra.
Qed.

Lemma salt_pepper_pixel_kept (r u v x : R) :
  floor (1 - r + u) = 1 ->
  salt_pepper_pixel exact r u v x =
  clip_by_value (((x + 1) / 2) * 2 - 1) (-1) 1.
Proof.
  intros Hm. unfold salt_pepper_pixel, clip, clip_by_value. simpl.
  rewrite Hm. do 2 f_equal. lra.
Qed.

Lemma salt_pepper_pixel_replaced (r u v x : R) :
  floor (1 - r + u) = 0 ->
  salt_pepper_pixel exact r u v x = clip_by_value (v * 2 - 1) (-1) 1.
Proof.
  intros Hm. unfold salt_pepper_pixel, clip, clip_by_value. simpl.
  rewrite Hm. do 2 f_equal. lra.
Qed.

(** C7, as the code has it: for a ratio in [0, 1] and uniform draws in
    [0, 1) the salt-pepper injector returns a batch of the shape of its
    input with all values in [-1, 1], by its final clip. Every pixel is
    either kept or replaced, as its mask [floor(1 - ratio + draw)] is 1
    or 0. A kept pixel is not handed on but recomputed from the rescaled
    value, as [((x + 1) / 2) * 2 - 1] clipped; a replaced pixel is the
    fresh draw [u] rescaled, [u * 2 - 1] clipped. The copy of the
    evaluator is the injector with a ratio that is not drawn. *)
Theorem salt_pepper_clipped_and_recomputed
    (image : Tensor) (ratio : R) (rand_ratio : bool) (d : Draws) :
  0 <= ratio <= 1 ->
  0 <= ratio_draw d < 1 ->
  (forall b i j c, 0 <= keep_draw d b i j c < 1) ->
  exists out : Tensor,
    get_salt_pepper_noise_image image ratio rand_ratio d = Ok out /\
    (forall rand_stddev,
       Evaluator.get_salt_pepper_noise_image image ratio rand_stddev d =
       get_salt_pepper_noise_image image ratio false d) /\
    shape_of out = shape_of image /\
    (forall b i j c y, tget out b i j c = Some y -> -1 <= y <= 1) /\
    forall b i j c x,
      tget image b i j c = Some x ->
      let r := effective_ratio ratio rand_ratio d in
      let mask := floor (1 - r + keep_draw d b i j c) in
      tget out b i j c =
        Some (salt_pepper_pixel exact r (keep_draw d b i j c)
                                (value_draw d b i j c) x) /\
      (mask = 1 \/ mask = 0) /\
      (mask = 1 ->
       tget out b i j c =
       Some (clip_by_value (((x + 1) / 2) * 2 - 1) (-1) 1)) /\
      (mask = 0 ->
       tget out b i j c =
       Some (clip_by_value (value_draw d b i j c * 2 - 1) (-1) 1)).
Proof.
  intros Hratio Hrd Hkeep.
  pose proof (effective_ratio_bounds ratio rand_ratio d Hratio Hrd) as Hr.
  eexists. split; [apply salt_pepper_unfold|].
  split; [reflexivity|]. split; [shape_tac|]. split.
  - intros b i j c y. rewrite tget_tmap.
    destruct (tget _ b i j c); intros Hy; simplify_eq/=.
    apply clip_by_value_bounds. lra.
  - intros b i j c x Hx r mask.
    destruct (salt_pepper_tget image ratio rand_ratio d b i j c x Hx)
      as (out & Hout & _ & Hpix).
    rewrite salt_pepper_unfold in Hout. injection Hout as <-.
    split; [exact Hpix|]. split; [by apply salt_pepper_mask|]. split.
    + intros Hm. refine (eq_trans Hpix _). f_equal.
      by apply salt_pepper_pixel_kept.
    + intros Hm. refine (eq_trans Hpix _). f_equal.
      by apply salt_pepper_pixel_replaced.
Qed.

Lemma salt_pepper_clipped_and_recomputed_witness :
  exists out : Tensor,
    get_salt_pepper_noise_image (zeros 1 2 2 3) (1 / 2) false mixed_draws
      = Ok out /\
    shape_of out = shape_of (zeros 1 2 2 3) /\
    tget out 0 0 0 0 = Some (clip_by_value (1 / 4 * 2 - 1) (-1) 1) /\
    tget out 0 0 0 1 = Some (clip_by_value (((0 + 1) / 2) * 2 - 1) (-1) 1).
Proof.
  destruct (salt_pepper_clipped_and_recomputed
              (zeros 1 2 2 3) (1 / 2) false mixed_draws)
    as (out & Hout & _ & Hshape & _ & Hpix).
  - lra.
  - simpl. lra.
  - intros b i j [|c]; simpl; lra.
  - exists out. split; [exact Hout|]. split; [exact Hshape|]. split.
    + destruct (Hpix 0%nat 0%nat 0%nat 0%nat 0 eq_refl)
        as (_ & _ & _ & Hreplaced).
      apply Hreplaced. simpl. apply (floor_unique _ 0). simpl. lra.
    + destruct (Hpix 0%nat 0%nat 0%nat 1%nat 0 eq_refl)
        as (_ & _ & Hkept & _).
      apply Hkept. simpl. apply (floor_unique _ 1). simpl. lra.
Defined.

(** C7 as stated fails: the round trip of a kept pixel through [0, 1] is
    not exact in float32. With ratio 0 every pixel is kept (the mask is
    1), and the pixel [2^-30] comes back as 0, the pixel [0.1] (the
    float32 [13421773 * 2^-27]) as [13421776 * 2^-27]. *)
Lemma salt_pepper_kept_pixel_not_exact :
  let zero := Float32.of_Z 0 in
  let one := Float32.of_Z 1 in
  let tenth := S754_finite false 13421773 (-27) in
  Float32.floor (Float32.add (Float32.sub one zero) zero) = one /\
  salt_pepper_pixel Float32.arith zero zero zero (Float32.pow2 (-30))
    = S754_zero false /\
  S754_zero false <> Float32.pow2 (-30) /\
  SFltb (Float32.of_Z (-1)) (Float32.pow2 (-30)) = true /\
  SFltb (Float32.pow2 (-30)) one = true /\
  salt_pepper_pixel Float32.arith zero zero zero tenth
    = S754_finite false 13421776 (-27) /\
  Float32.ratio 1 10 = tenth.
Proof. vm_compute. repeat split; try reflexivity; discriminate. Qed.

(** *** The blend of the gate *)

Section Blend.
Context `{L : Layers}.

(** C3, as the code has it: with input gating enabled, the output of
    [gated_denoise] is the blend
    [confidence * raw + (1 - confidence) * best_candidate] per example,
    with the confidence the sigmoid of the mean of the gate
    discriminator's logits of that example; a confidence of 1 gives the
    raw batch and a confidence of 0 the best candidate. *)
Theorem gate_blend_per_example
    (vs : var_scope) (images : Tensor) (F : FLAGS.t) (is_training : bool)
    (noisy_batch_size : nat) out losses_dict summaries_dict :
  FLAGS.discrim F = true ->
  gated_denoise vs images F is_training noisy_batch_size =
    Ok (out, losses_dict, summaries_dict) ->
  exists best d_in_logits,
    let confidence := sigmoid <$> reduce_mean_123 d_in_logits in
    best_candidate vs images F is_training = Ok best /\
    discriminator (sub_scope vs "input_discrim") images (FLAGS.ndf F) 3 1
                  false "discriminator" = Ok d_in_logits /\
    gate_blend confidence images best = Ok out /\
    (forall c x y : R, blend_pixel exact c x y = c * x + (1 - c) * y) /\
    (length d_in_logits = length images ->
     shape_of best = shape_of images ->
     shape_of out = shape_of images /\
     forall b i j c x y,
       tget images b i j c = Some x -> tget best b i j c = Some y ->
       exists cb,
         confidence !! b = Some cb /\
         tget out b i j c = Some (cb * x + (1 - cb) * y)) /\
    (forall (conf : list R) (raw cand : Tensor),
       length conf = length raw -> shape_of cand = shape_of raw ->
       exists o,
         gate_blend conf raw cand = Ok o /\
         (Forall (fun c => c = 1) conf -> o = raw) /\
         (Forall (fun c => c = 0) conf -> o = cand) /\
         forall b i j c cb x y,
           conf !! b = Some cb ->
           tget raw b i j c = Some x -> tget cand b i j c = Some y ->
           tget o b i j c = Some (cb * x + (1 - cb) * y)).
Proof.
  intros Hd H.
  apply gated_denoise_stages in H as (best & l2 & s2 & s3 & Hbest & _ & H).
  apply gate_stage_on in H as (logits & Hlog & Hblend & _); [|done].
  exists best, logits. simpl.
  split; [done|]. split; [done|]. split; [done|]. split; [done|]. split.
  - intros Hlen Hs.
    assert (Hlen' : length (sigmoid <$> reduce_mean_123 logits)
                    = length images).
    { unfold reduce_mean_123. by rewrite !length_fmap. }
    split; [by eapply shape_of_gate_blend|].
    intros b i j c x y Hx Hy.
    destruct (tget_lookup_conf _ _ _ _ _ _ _ Hlen' Hx) as [cb Hcb].
    exists cb. split; [done|]. by eapply gate_blend_pixel.
  - intros conf raw cand Hlen Hs.
    assert (Hlenc : length conf = length cand).
    { by rewrite <- (shape_of_length cand), Hs, shape_of_length. }
    eexists. split; [by apply gate_blend_same_shape|].
    pose proof (gate_blend_same_shape conf raw cand Hlen Hs) as Ho.
    pose proof (shape_of_gate_blend _ _ _ _ Hlen Hs Ho) as Hso.
    split; [|split].
    + intros Hall. apply tensor_ext; [done|].
      intros n i j c x y Hx Hy.
      destruct (tget_same_shape raw cand n i j c y) as [z Hz]; [done..|].
      destruct (tget_lookup_conf _ _ _ _ _ _ _ Hlen Hy) as [cb Hcb].
      rewrite (gate_blend_pixel _ _ _ _ _ _ _ _ _ _ _ Hlen Hs Ho Hcb Hy Hz)
        in Hx.
      eapply Forall_lookup_1 in Hall; [|done]. simplify_eq. lra.
    + intros Hall. apply tensor_ext; [by rewrite Hso|].
      intros n i j c x y Hx Hy.
      destruct (tget_same_shape cand raw n i j c y) as [z Hz]; [done..|].
      destruct (tget_lookup_conf _ _ _ _ _ _ _ Hlenc Hy) as [cb Hcb].
      rewrite (gate_blend_pixel _ _ _ _ _ _ _ _ _ _ _ Hlen Hs Ho Hcb Hz Hy)
        in Hx.
      eapply Forall_lookup_1 in Hall; [|done]. simplify_eq. lra.
    + intros b i j c cb x y Hcb Hx Hy.
      exact (gate_blend_pixel _ _ _ _ _ _ _ _ _ _ _ Hlen Hs Ho Hcb Hx Hy).
Qed.

End Blend.

Lemma gate_blend_per_example_witness :
  exists out losses_dict summaries_dict,
    gated_denoise (H:=identity_layers) Graph.root (zeros 2 4 4 3)
                  eval_flags true 1 =
      Ok (out, losses_dict, summaries_dict) /\
    exists best d_in_logits,
      best_candidate (H:=identity_layers) Graph.root (zeros 2 4 4 3)
                     eval_flags true = Ok best /\
      gate_blend (sigmoid <$> reduce_mean_123 d_in_logits) (zeros 2 4 4 3) best
        = Ok out.
Proof.
  destruct training_run as [[[out losses] summ] H].
  exists out, losses, summ. split; [exact H|].
  destruct (gate_blend_per_example (L:=identity_layers) Graph.root
              (zeros 2 4 4 3) eval_flags true 1 out losses summ eq_refl H)
    as (best & logits & Hbest & _ & Hblend & _).
  exists best, logits. split; [exact Hbest | exact Hblend].
Defined.

(** C3 as stated fails: in float32 a confidence strictly between 0 and 1
    need not put the pixel between the two candidates. With confidence
    [0.1] and both candidates equal to [0.1] (the float32
    [13421773 * 2^-27]) the blend is [13421772 * 2^-27], below both.
    The two ends are exact: confidence 1 returns the raw pixel,
    confidence 0 the candidate. *)
Lemma gate_blend_not_between_float32 :
  let zero := Float32.of_Z 0 in
  let one := Float32.of_Z 1 in
  let tenth := S754_finite false 13421773 (-27) in
  Float32.ratio 1 10 = tenth /\
  SFltb zero tenth = true /\ SFltb tenth one = true /\
  blend_pixel Float32.arith tenth tenth tenth
    = S754_finite false 13421772 (-27) /\
  SFltb (blend_pixel Float32.arith tenth tenth tenth) tenth = true /\
  blend_pixel Float32.arith one tenth (Float32.pow2 (-30)) = tenth /\
  blend_pixel Float32.arith zero tenth (Float32.pow2 (-30))
    = Float32.pow2 (-30).
Proof. vm_compute. repeat split; reflexivity. Qed.

(** *** The correction of the residual generator *)



Section GeneratorResidual.
Context `{L : Layers} (HL : LayerShapes L).

Local Arguments Nat.mul : simpl never.



End GeneratorResidual.



(** *** Pixel scaling of the evaluator *)

(** X1: the two pixel scalings of the evaluator keep the shape of the
    batch and compute [(2 / 255) * x - 1] and [(255 / 2) * (x + 1)] on
    every pixel. As functions of real numbers the two are inverse to
    each other; on float32 pixels they are not: the pixel 51 comes back
    as [13369345 * 2^-18] (51.000004), and 158 of the 256 integer pixel
    values come back changed. *)
Theorem inception_round_trip_rounds (images : Tensor) :
  shape_of (inception_preprocess images) = shape_of images /\
  shape_of (inception_depreprocess images) = shape_of images /\
  (forall b i j c x,
     tget images b i j c = Some x ->
     tget (inception_preprocess images) b i j c
       = Some (preprocess_pixel exact x) /\
     tget (inception_depreprocess images) b i j c
       = Some (depreprocess_pixel exact x)) /\
  (forall x : R, depreprocess_pixel exact (preprocess_pixel exact x) = x) /\
  Float32.of_Z 51 = S754_finite false 13369344 (-18) /\
  depreprocess_pixel Float32.arith
    (preprocess_pixel Float32.arith (Float32.of_Z 51))
    = S754_finite false 13369345 (-18) /\
  length round_trip_changes = 158%nat.
Proof.
  split; [apply shape_of_tmap|]. split; [apply shape_of_tmap|].
  split; [|split; [|split; [|split]]].
  - intros b i j c x Hx. unfold inception_preprocess, inception_depreprocess.
    rewrite !tget_tmap, Hx. simpl. split; f_equal.
    + unfold preprocess_pixel. simpl. lra.
    + unfold depreprocess_pixel. simpl. lra.
  - intros x. unfold depreprocess_pixel, preprocess_pixel. simpl. field.
  - by vm_compute.
  - by vm_compute.
  - by vm_compute.
Qed.

(** *** The loss criteria on batches that are not empty *)

Lemma tmap_tmap (f g : R -> R) (t : Tensor) :
  tmap f (tmap g t) = tmap (f ∘ g) t.
Proof.
  unfold tmap. rewrite <- list_fmap_compose. apply list_fmap_ext.
  intros _ img _. simpl. rewrite <- list_fmap_compose. apply list_fmap_ext.
  intros _ r _. simpl. rewrite <- list_fmap_compose. apply list_fmap_ext.
  intros _ px _. simpl. by rewrite <- list_fmap_compose.
Qed.

(** X2: on two batches of one shape that are not empty, the similarity
    loss [abs_criterion] builds and is not negative, is 0 when the input
    is its own target, and does not depend on which of the two is called
    the target. *)
Theorem abs_criterion_properties (in_ target : Tensor) :
  flatten in_ <> [] ->
  shape_of in_ = shape_of target ->
  (exists v, abs_criterion in_ target = Ok v /\ 0 <= v) /\
  abs_criterion in_ in_ = Ok 0 /\
  abs_criterion in_ target = abs_criterion target in_.
Proof.
  intros Hne Hs. split; [|split].
  - unfold abs_criterion, tensor_sub.
    rewrite tensor_op_same_shape by done. simpl.
    eexists. split; [reflexivity|].
    apply mean_nonneg, Forall_flatten_tmap. intros x. apply Rabs_pos.
  - unfold abs_criterion, tensor_sub.
    rewrite tensor_op_same_shape by done. simpl.
    unfold mret, result_ret. f_equal.
    rewrite tzip_same, tmap_tmap. apply mean_zero, Forall_flatten_tmap.
    intros x. simpl. rewrite Rminus_diag. apply Rabs_R0.
  - unfold abs_criterion, tensor_sub.
    rewrite !tensor_op_same_shape by done. simpl.
    do 2 f_equal. rewrite !tmap_tzip. apply tzip_swap.
    intros x y. apply Rabs_minus_sym.
Qed.

Lemma abs_criterion_properties_witness :
  (exists v, abs_criterion (zeros 1 2 2 3) (ones_like (zeros 1 2 2 3)) = Ok v
             /\ 0 <= v) /\
  abs_criterion (zeros 1 2 2 3) (ones_like (zeros 1 2 2 3)) =
  abs_criterion (ones_like (zeros 1 2 2 3)) (zeros 1 2 2 3).
Proof.
  destruct (abs_criterion_properties (zeros 1 2 2 3)
              (ones_like (zeros 1 2 2 3))) as (Hv & _ & Hsym).
  - discriminate.
  - reflexivity.
  - split; [exact Hv|exact Hsym].
Defined.

(** X3: on two batches of one shape that are not empty, the adversarial
    criterion [mae_criterion] (a mean of squares) builds and is not
    negative, is 0 when the input is its own target, and does not depend
    on which of the two is called the target. *)
Theorem mae_criterion_properties (in_ target : Tensor) :
  flatten in_ <> [] ->
  shape_of in_ = shape_of target ->
  (exists v, mae_criterion in_ target = Ok v /\ 0 <= v) /\
  mae_criterion in_ in_ = Ok 0 /\
  mae_criterion in_ target = mae_criterion target in_.
Proof.
  intros Hne Hs. split; [|split].
  - unfold mae_criterion, tensor_sub.
    rewrite tensor_op_same_shape by done. simpl.
    eexists. split; [reflexivity|].
    apply mean_nonneg, Forall_flatten_tmap. intros x. apply pow2_ge_0.
  - unfold mae_criterion, tensor_sub.
    rewrite tensor_op_same_shape by done. simpl.
    unfold mret, result_ret. f_equal.
    rewrite tzip_same, tmap_tmap. apply mean_zero, Forall_flatten_tmap.
    intros x. simpl. rewrite Rminus_diag. simpl. lra.
  - unfold mae_criterion, tensor_sub.
    rewrite !tensor_op_same_shape by done. simpl.
    do 2 f_equal. rewrite !tmap_tzip. apply tzip_swap.
    intros x y. simpl. ring.
Qed.

Lemma mae_criterion_properties_witness :
  (exists v, mae_criterion (zeros 1 2 2 3) (ones_like (zeros 1 2 2 3)) = Ok v
             /\ 0 <= v) /\
  mae_criterion (zeros 1 2 2 3) (ones_like (zeros 1 2 2 3)) =
  mae_criterion (ones_like (zeros 1 2 2 3)) (zeros 1 2 2 3).
Proof.
  destruct (mae_criterion_properties (zeros 1 2 2 3)
              (ones_like (zeros 1 2 2 3))) as (Hv & _ & Hsym).
  - discriminate.
  - reflexivity.
  - split; [exact Hv|exact Hsym].
Defined.

(** *** The salt-pepper injector at the ends of its ratio *)

(** X14: the salt-pepper injector at the two ends of its ratio, for
    uniform draws in [0, 1). With ratio 0 (drawn or not) no pixel is
    replaced: every pixel is the input pixel rescaled to [0, 1] and
    back, [((x + 1) / 2) * 2 - 1] clipped, whatever the fresh draws.
    With the fixed ratio 1 every pixel is replaced: it is the fresh
    draw rescaled, [u * 2 - 1] clipped, whatever the input. *)
Theorem salt_pepper_extreme_ratios
    (image : Tensor) (rand_ratio : bool) (d : Draws) :
  (forall b i j c, 0 <= keep_draw d b i j c < 1) ->
  (exists out,
     get_salt_pepper_noise_image image 0 rand_ratio d = Ok out /\
     shape_of out = shape_of image /\
     forall b i j c x,
       tget image b i j c = Some x ->
       tget out b i j c =
       Some (clip_by_value (((x + 1) / 2) * 2 - 1) (-1) 1)) /\
  (exists out,
     get_salt_pepper_noise_image image 1 false d = Ok out /\
     shape_of out = shape_of image /\
     forall b i j c x,
       tget image b i j c = Some x ->
       tget out b i j c =
       Some (clip_by_value (value_draw d b i j c * 2 - 1) (-1) 1)).
Proof.
  intros Hkeep. split.
  - eexists. split; [apply salt_pepper_unfold|]. split; [shape_tac|].
    intros b i j c x Hx.
    destruct (salt_pepper_tget image 0 rand_ratio d b i j c x Hx)
      as (out & Hout & _ & Hpix).
    rewrite salt_pepper_unfold in Hout. injection Hout as <-.
    refine (eq_trans Hpix _). f_equal.
    apply salt_pepper_pixel_kept.
    assert (Hr : effective_ratio 0 rand_ratio d = 0).
    { unfold effective_ratio. destruct rand_ratio; lra. }
    rewrite Hr. pose proof (Hkeep b i j c).
    apply (floor_unique _ 1). lra.
  - eexists. split; [apply salt_pepper_unfold|]. split; [shape_tac|].
    intros b i j c x Hx.
    destruct (salt_pepper_tget image 1 false d b i j c x Hx)
      as (out & Hout & _ & Hpix).
    rewrite salt_pepper_unfold in Hout. injection Hout as <-.
    refine (eq_trans Hpix _). f_equal.
    apply salt_pepper_pixel_replaced.
    change (effective_ratio 1 false d) with 1.
    pose proof (Hkeep b i j c).
    apply (floor_unique _ 0). lra.
Qed.

Lemma salt_pepper_extreme_ratios_witness :
  exists out,
    get_salt_pepper_noise_image (zeros 1 2 2 3) 1 false mixed_draws = Ok out /\
    shape_of out = shape_of (zeros 1 2 2 3) /\
    forall b i j c x,
      tget (zeros 1 2 2 3) b i j c = Some x ->
      tget out b i j c =
      Some (clip_by_value (value_draw mixed_draws b i j c * 2 - 1) (-1) 1).
Proof.
  apply (salt_pepper_extreme_ratios (zeros 1 2 2 3) false mixed_draws).
  intros b i j [|c]; simpl; lra.
Defined.

(** *** The names of the losses *)

Section LossNames.
Context `{L : Layers}.

Lemma denoise_discrim_stage_names scope F tr noisy orig denoised g l s
    g' l' s' :
  denoise_discrim_stage scope F tr noisy orig denoised g l s
    = Ok (g', l', s') ->
  dom l' = dom l ∪ (if tr then {["g_loss"; "d_loss"]} else ∅).
Proof.
  intros H. unfold denoise_discrim_stage in H.
  destruct noisy as [noisy|]; [|discriminate H].
  bind_inv H. bind_inv H.
  destruct tr; [|res_simpl H; simplify_eq; set_solver].
  destruct orig as [orig|]; [|discriminate H].
  bind_inv H. bind_inv H. bind_inv H.
  destruct g as [g0|]; [|discriminate H].
  bind_inv H. bind_inv H. simplify_eq.
  rewrite !dom_insert_L. set_solver.
Qed.

Lemma denoise_stage_names vs F opts tr n noisy orig filtered l s
    best l' s' :
  denoise_stage vs F opts tr n noisy orig filtered l s = Ok (best, l', s') ->
  dom l' = dom l ∪
           (if tr && FLAGS.denoise F then {["g_loss"]} else ∅) ∪
           (if tr && FLAGS.denoise F && FLAGS.denoise_discrim F
            then {["d_loss"]} else ∅).
Proof.
  intros H. unfold denoise_stage in H.
  destruct (FLAGS.denoise F);
    [|res_simpl H; simplify_eq; rewrite !andb_false_r; set_solver].
  bind_inv H. bind_inv H. destruct a0 as [[g1 l1] s1].
  assert (Hl1 : dom l1 = dom l ∪ (if tr then {["g_loss"]} else ∅)).
  { destruct tr; res_simpl E0.
    - bind_inv E0. bind_inv E0. simplify_eq.
      rewrite dom_insert_L. set_solver.
    - simplify_eq. set_solver. }
  bind_inv H. destruct a0 as [[g2 l2] s2].
  assert (Hl2 : dom l2 = dom l1 ∪
            (if tr && FLAGS.denoise_discrim F
             then {["g_loss"; "d_loss"]} else ∅)).
  { destruct (FLAGS.denoise_discrim F); res_simpl E1.
    - apply denoise_discrim_stage_names in E1. rewrite E1.
      by rewrite andb_true_r.
    - simplify_eq. rewrite andb_false_r. set_solver. }
  bind_inv H. simplify_eq. rewrite Hl2, Hl1.
  destruct tr, (FLAGS.denoise_discrim F); simpl; set_solver.
Qed.

Lemma gate_stage_names vs F tr n images filtered l s out l' s' :
  gate_stage vs F tr n images filtered l s = Ok (out, l', s') ->
  dom l' = dom l ∪ (if tr && FLAGS.discrim F then {["d_in_loss"]} else ∅).
Proof.
  intros H. unfold gate_stage in H.
  destruct (FLAGS.discrim F);
    [|res_simpl H; simplify_eq; rewrite andb_false_r; set_solver].
  bind_inv H. bind_inv H. destruct a0 as [l1 s1].
  bind_inv H. simplify_eq.
  destruct tr; res_simpl E0; [|simplify_eq; set_solver].
  bind_inv E0. simplify_eq. rewrite dom_insert_L. set_solver.
Qed.

(** X7: whenever [gated_denoise] builds, the names of the losses it
    returns are fixed by the flags: [g_loss] exactly when training
    with the denoiser, [d_loss] exactly when training with the denoiser
    and its discriminator, [d_in_loss] exactly when training with the
    input gate; nothing else is recorded. *)
Theorem gated_denoise_loss_names
    (vs : var_scope) (images : Tensor) (F : FLAGS.t) (is_training : bool)
    (noisy_batch_size : nat) out losses_dict summaries_dict :
  gated_denoise vs images F is_training noisy_batch_size
    = Ok (out, losses_dict, summaries_dict) ->
  dom losses_dict = expected_losses F is_training.
Proof.
  intros H. unfold gated_denoise in H.
  bind_inv H. destruct a as [filtered s1].
  bind_inv H. destruct a as [[best l2] s2].
  bind_inv H. destruct a as [[img l3] s3]. simplify_eq.
  apply gate_stage_names in E1. apply denoise_stage_names in E0.
  rewrite E1, E0, dom_empty_L. unfold expected_losses. set_solver.
Qed.

End LossNames.

Lemma gated_denoise_loss_names_witness :
  exists out losses_dict summaries_dict,
    gated_denoise (H:=identity_layers) Graph.root (zeros 2 4 4 3)
                  eval_flags true 1 =
      Ok (out, losses_dict, summaries_dict) /\
    dom losses_dict = expected_losses eval_flags true.
Proof.
  destruct training_run as [[[out losses] summ] H].
  exists out, losses, summ. split; [exact H|].
  exact (gated_denoise_loss_names (L:=identity_layers) Graph.root
           (zeros 2 4 4 3) eval_flags true 1 out losses summ H).
Defined.

(** *** Full blocks through the filter and the gate *)

Section FilterGateShape.
Context `{L : Layers}.

(** X17: without the generator and the mixture of filters, the pipeline
    keeps a full block a full block of the same dimensions, with the
    average filter and the input gate on or off. The discriminator of
    the gate is taken to keep the batch size. *)
Theorem gated_denoise_filter_gate_keeps_shape
    (vs : var_scope) (images : Tensor) (F : FLAGS.t) (is_training : bool)
    (n : nat) (B H W C : nat) out losses_dict summaries_dict :
  FLAGS.denoise F = false ->
  FLAGS.mixture_of_filters F = false ->
  shape4 images B H W C ->
  (forall logits,
     discriminator (sub_scope vs "input_discrim") images (FLAGS.ndf F) 3 1
                   false "discriminator" = Ok logits ->
     length logits = B) ->
  gated_denoise vs images F is_training n
    = Ok (out, losses_dict, summaries_dict) ->
  shape4 out B H W C.
Proof.
  intros Hd Hmix Hs Hdisc Hres.
  apply gated_denoise_stages in Hres
    as (best & l2 & s2 & s3 & Hbest & _ & Hg).
  assert (Hbs : shape4 best B H W C).
  { unfold best_candidate in Hbest. rewrite Hd in Hbest.
    destruct (FLAGS.average_filter F); [|by simplify_eq].
    unfold filter_candidate in Hbest. rewrite Hmix in Hbest.
    destruct (decide (0 < FLAGS.filter_size F)%nat) as [Hk|Hk].
    - rewrite average_filter_unfold in Hbest by done. simplify_eq.
      by apply avg_pool_shape4.
    - unfold average_filter, avg_pool in Hbest. simpl in Hbest.
      destruct decide; [lia|done]. }
  destruct (FLAGS.discrim F) eqn:Hdi.
  - apply gate_stage_on in Hg as (logits & Hlog & Hblend & _); [|done].
    pose proof (Hdisc _ Hlog) as Hlen.
    destruct Hs as [HB Himgs].
    assert (Hso : shape_of out = shape_of images).
    { eapply shape_of_gate_blend; [| |exact Hblend].
      - unfold reduce_mean_123. rewrite !length_fmap. lia.
      - by eapply shape4_same. }
    eapply shape4_transfer; [exact Hso|done].
  - rewrite gate_stage_off in Hg by done. by simplify_eq.
Qed.

End FilterGateShape.

Lemma gated_denoise_filter_gate_keeps_shape_witness :
  exists out losses_dict summaries_dict,
    gated_denoise (H:=identity_layers) Graph.root (zeros 1 4 4 3)
                  eval_flags false 1 = Ok (out, losses_dict, summaries_dict) /\
    shape4 out 1 4 4 3.
Proof.
  destruct eval_run as [[[out losses] summ] H].
  exists out, losses, summ. split; [exact H|].
  apply (gated_denoise_filter_gate_keeps_shape (L:=identity_layers)
           Graph.root (zeros 1 4 4 3) eval_flags false 1 1 4 4 3
           out losses summ).
  - reflexivity.
  - reflexivity.
  - apply shape4_zeros.
  - intros logits Hl. unfold discriminator in Hl. simpl in Hl.
    unfold mret, result_ret in Hl. simpl in Hl. by simplify_eq.
  - exact H.
Defined.

(** *** The mixture of filters *)

Section Mixture.
Context `{L : Layers}.

(** X20: the mixture of filters adds up, example by example, the batch
    and its three box averages (windows 2, 3 and 4), each multiplied by
    one of the four class probabilities of the gate: a pixel of the
    result is [w0 * x + w1 * y0 + w2 * y1 + w3 * y2]. On a full block
    it returns a full block of the same dimensions. The gate is taken
    to return one row of four classes per example. *)
Theorem mixture_of_filters_weighted_sum
    (vs : var_scope) (images : Tensor) (F : FLAGS.t) (B H W C : nat)
    (out : Tensor) :
  FLAGS.mixture_of_filters F = true ->
  shape4 images B H W C ->
  (forall probs,
     gate (sub_scope vs "filter_gate") images (FLAGS.ndf F) 4 false "gate"
       = Ok probs ->
     length probs = B /\ Forall (fun row => length row = 4%nat) probs) ->
  filter_candidate vs images F = Ok out ->
  shape4 out B H W C /\
  exists probs f0 f1 f2,
    gate (sub_scope vs "filter_gate") images (FLAGS.ndf F) 4 false "gate"
      = Ok probs /\
    average_filter images 2 = Ok f0 /\ average_filter images 3 = Ok f1 /\
    average_filter images 4 = Ok f2 /\
    shape4 f0 B H W C /\ shape4 f1 B H W C /\ shape4 f2 B H W C /\
    forall b i j c w0 w1 w2 w3 x y0 y1 y2,
      probs !! b = Some [w0; w1; w2; w3] ->
      tget images b i j c = Some x -> tget f0 b i j c = Some y0 ->
      tget f1 b i j c = Some y1 -> tget f2 b i j c = Some y2 ->
      tget out b i j c = Some (w0 * x + w1 * y0 + w2 * y1 + w3 * y2).
Proof.
  intros Hmix Hs Hgate Hout.
  unfold filter_candidate in Hout. rewrite Hmix in Hout.
  rewrite !average_filter_unfold in Hout by lia.
  unfold mbind at 1 2 3 in Hout. simpl in Hout.
  destruct (gate (sub_scope vs "filter_gate") images (FLAGS.ndf F) 4 false
              "gate") as [probs|] eqn:Eg; [|discriminate Hout].
  destruct (Hgate probs eq_refl) as [Hlen Hrows].
  set (f0 := avg_pool_image 2 2 1 1 <$> images) in *.
  set (f1 := avg_pool_image 3 3 1 1 <$> images) in *.
  set (f2 := avg_pool_image 4 4 1 1 <$> images) in *.
  assert (Hs0 : shape4 f0 B H W C) by by apply avg_pool_shape4.
  assert (Hs1 : shape4 f1 B H W C) by by apply avg_pool_shape4.
  assert (Hs2 : shape4 f2 B H W C) by by apply avg_pool_shape4.
  assert (Hk : forall k, (k < 4)%nat ->
            Forall (fun row : list R => (k < length row)%nat) probs).
  { intros k Hk. eapply Forall_impl; [exact Hrows|]. simpl. intros; lia. }
  assert (HB : forall t, shape4 t B H W C -> length probs = length t).
  { intros t [HBt _]. lia. }
  simpl in Hout.
  rewrite (weighted_per_example 0 probs images) in Hout
    by (try apply Hk; try apply HB; try done; lia).
  rewrite (weighted_per_example 1 probs f0) in Hout
    by (try apply Hk; try apply HB; try done; lia).
  rewrite (weighted_per_example 2 probs f1) in Hout
    by (try apply Hk; try apply HB; try done; lia).
  rewrite (weighted_per_example 3 probs f2) in Hout
    by (try apply Hk; try apply HB; try done; lia).
  simpl in Hout.
  set (w := fun k => (fun row : list R => default 0 (row !! k)) <$> probs)
    in *.
  assert (Hw : forall k, length (w k) = length probs).
  { intros k. unfold w. by rewrite length_fmap. }
  assert (Hsh : forall k t, shape4 t B H W C ->
            shape_of (per_example Rmult (w k) t) = shape_of images).
  { intros k t Ht. rewrite shape_of_per_example.
    - by eapply shape4_same.
    - rewrite Hw. by apply HB. }
  repeat destruct (same_shape_b _ _) in Hout; try discriminate Hout.
  injection Hout as <-.
  set (t0 := per_example Rmult (w 0%nat) images) in *.
  set (t1 := per_example Rmult (w 1%nat) f0) in *.
  set (t2 := per_example Rmult (w 2%nat) f1) in *.
  set (t3 := per_example Rmult (w 3%nat) f2) in *.
  assert (H0 : shape_of t0 = shape_of images) by by apply Hsh.
  assert (H1 : shape_of t1 = shape_of images) by by apply Hsh.
  assert (H2 : shape_of t2 = shape_of images) by by apply Hsh.
  assert (H3 : shape_of t3 = shape_of images) by by apply Hsh.
  assert (H01 : shape_of (tzip Rplus t0 t1) = shape_of images).
  { rewrite shape_of_tzip; congruence. }
  assert (H012 : shape_of (tzip Rplus (tzip Rplus t0 t1) t2)
                 = shape_of images).
  { rewrite shape_of_tzip; congruence. }
  assert (Hso : shape_of (tzip Rplus (tzip Rplus (tzip Rplus t0 t1) t2) t3)
                = shape_of images).
  { rewrite shape_of_tzip; congruence. }
  split; [by eapply shape4_transfer|].
  exists probs, f0, f1, f2. split; [done|].
  rewrite !average_filter_unfold by lia.
  split; [done|]. split; [done|]. split; [done|].
  split; [done|]. split; [done|]. split; [done|].
  intros b i j c w0 w1 w2 w3 x y0 y1 y2 Hrow Hx Hy0 Hy1 Hy2.
  assert (Hwk : forall k v, [w0; w1; w2; w3] !! k = Some v ->
            w k !! b = Some v).
  { intros k v Hv. unfold w. rewrite list_lookup_fmap, Hrow. simpl.
    by rewrite Hv. }
  erewrite tget_tzip; [reflexivity| |].
  - erewrite tget_tzip; [reflexivity| |].
    + erewrite tget_tzip; [reflexivity| |].
      * apply (tget_per_example Rmult (w 0%nat) images b i j c w0 x);
          [by apply Hwk|done].
      * apply (tget_per_example Rmult (w 1%nat) f0 b i j c w1 y0);
          [by apply Hwk|done].
    + apply (tget_per_example Rmult (w 2%nat) f1 b i j c w2 y1);
        [by apply Hwk|done].
  - apply (tget_per_example Rmult (w 3%nat) f2 b i j c w3 y2);
      [by apply Hwk|done].
Qed.

End Mixture.

Lemma mixture_run :
  exists out,
    filter_candidate (H:=identity_layers) Graph.root (zeros 1 4 4 4)
                     mixture_flags = Ok out.
Proof. eexists. reflexivity. Qed.

Lemma mixture_of_filters_weighted_sum_witness :
  exists out,
    filter_candidate (H:=identity_layers) Graph.root (zeros 1 4 4 4)
                     mixture_flags = Ok out /\
    shape4 out 1 4 4 4.
Proof.
  destruct mixture_run as [out Hout]. exists out. split; [exact Hout|].
  destruct (mixture_of_filters_weighted_sum (L:=identity_layers) Graph.root
              (zeros 1 4 4 4) mixture_flags 1 4 4 4 out)
    as (Hs & _).
  - reflexivity.
  - apply shape4_zeros.
  - intros probs Hp. unfold gate in Hp. simpl in Hp.
    unfold mret, result_ret in Hp. simpl in Hp.
    injection Hp as <-. split; [reflexivity|].
    repeat constructor.
  - exact Hout.
  - exact Hs.
Defined.
